(** * A shallow embedding of the HTTP engine of esp32_mp_custom

    Three source files are modelled:
    - [src/firmware/modules/http_client.py] (module [Client]): URL
      decomposition, header read loop, header parsing, the four body
      strategies and the retry driver;
    - [src/modules/http_server.py] (module [Server]): admission control,
      request parsing, hook pipeline, route dispatch, static responder and
      the teardown block; the registration methods are in [Registration];
    - [src/modules/openmeteo.py] (module [OpenMeteo]): the part of
      [OpenMeteo.update] that calls the client, with the processing of the
      decoded forecast kept as a parameter of the section.

    [ExchangeSpec] plugs the server in as the network of the client, so that
    what one side writes is what the other side reads.

    Conventions.
    - A Python [bytes]/[bytearray] value is a [list byte].  A Python [str] is
      represented by its UTF-8 encoding, also a [list byte] (this is how the
      MicroPython runtime stores it); [bytes.decode()] is therefore a
      validity check that returns the same bytes or raises [UnicodeError].
    - Python integers are [Z]; lengths and indices that are non-negative by
      construction are [nat].
    - A coroutine that raises is a value [Raise e]; a loop that has not
      finished after [fuel] iterations is [Spin]. *)

From Stdlib Require Import ZArith Lia List Strings.Byte Strings.String.
From stdpp Require Import gmap strings list.
Import ListNotations.
Open Scope Z_scope.

(** ** Bytes and strings *)

Abbreviation bytes := (list byte).
Abbreviation str := (list byte).

#[global] Instance byte_eqdec : EqDecision byte.
Proof.
  intros a b. unfold Decision. destruct (Byte.eqb a b) eqn:E.
  - left. now apply Byte.byte_dec_bl.
  - right. intros ->. rewrite Byte.byte_dec_lb in E; congruence.
Defined.

#[global] Instance byte_countable : Countable byte :=
  inj_countable Byte.to_N Byte.of_N Byte.of_to_N.

(** Byte-string literal: [B "GET"] is [b"GET"]. *)
Definition B (s : string) : bytes := list_byte_of_string s.

Definition CR : byte := x0d.
Definition LF : byte := x0a.
Definition CRLF : bytes := [CR; LF].
Definition CRLFCRLF : bytes := [CR; LF; CR; LF].
Definition NUL : byte := x00.

Module Py.

(** [s.startswith(p)] *)
Fixpoint startswith (p s : bytes) : bool :=
  match p, s with
  | [], _ => true
  | _ :: _, [] => false
  | a :: p', b :: s' => bool_decide (a = b) && startswith p' s'
  end.

(** [s.find(sep)]: index of the first occurrence, [None] for -1. *)
Fixpoint find (sep s : bytes) : option nat :=
  if startswith sep s then Some 0%nat
  else match s with
       | [] => None
       | _ :: s' => S <$> find sep s'
       end.

(** [sep in s] *)
Definition contains (sep s : bytes) : bool :=
  match find sep s with Some _ => true | None => false end.

(** [s.partition(sep)] *)
Definition partition (sep s : bytes) : bytes * bytes * bytes :=
  match find sep s with
  | Some p => (take p s, sep, drop (p + length sep) s)
  | None => (s, [], [])
  end.

(** [s.split(sep, 1)] when [sep in s]; [None] when the separator is absent
    (the result would be the one-element list [[s]]). *)
Definition split_once (sep s : bytes) : option (bytes * bytes) :=
  match find sep s with
  | Some p => Some (take p s, drop (p + length sep) s)
  | None => None
  end.

(** [s.split(sep)] for a non-empty separator. *)
Fixpoint split_fuel (fuel : nat) (sep s : bytes) : list bytes :=
  match fuel with
  | O => [s]
  | S f => match find sep s with
           | Some p => take p s :: split_fuel f sep (drop (p + length sep) s)
           | None => [s]
           end
  end.

Definition split (sep s : bytes) : list bytes :=
  split_fuel (S (length s)) sep s.

(** Whitespace as [str.isspace] sees it on ASCII. *)
Definition isspace (b : byte) : bool :=
  let c := Byte.to_N b in
  ((c =? 32) || ((9 <=? c) && (c <=? 13)))%N.

(** [s.split()] : split on runs of whitespace, no empty fields. *)
Fixpoint split_ws_aux (cur : bytes) (s : bytes) : list bytes :=
  match s with
  | [] => match cur with [] => [] | _ => [cur] end
  | b :: s' =>
      if isspace b
      then match cur with
           | [] => split_ws_aux [] s'
           | _ => cur :: split_ws_aux [] s'
           end
      else split_ws_aux (cur ++ [b]) s'
  end.

Definition split_ws (s : bytes) : list bytes := split_ws_aux [] s.

Fixpoint lstrip (s : bytes) : bytes :=
  match s with
  | b :: s' => if isspace b then lstrip s' else s
  | [] => []
  end.

Definition rstrip (s : bytes) : bytes := rev (lstrip (rev s)).

(** [s.strip()] *)
Definition strip (s : bytes) : bytes := rstrip (lstrip s).

(** [s.lower()] : only the ASCII letters A-Z change. *)
Definition lower_byte (b : byte) : byte :=
  let c := Byte.to_N b in
  if ((65 <=? c) && (c <=? 90))%N
  then match Byte.of_N (c + 32) with Some b' => b' | None => b end
  else b.

Definition lower (s : bytes) : bytes := map lower_byte s.

(** [s[:i]] and [s[i:]] for an integer index that may be negative. *)
Definition slice_to (i : Z) (s : bytes) : bytes :=
  if i <? 0 then take (length s - Z.to_nat (- i)) s else take (Z.to_nat i) s.

Definition slice_from (i : Z) (s : bytes) : bytes :=
  if i <? 0 then drop (length s - Z.to_nat (- i)) s else drop (Z.to_nat i) s.

(** [body[a:b] = v] on a bytearray, for [0 <= a]: the (clamped) range is
    replaced by [v], whatever the length of [v]. *)
Definition slice_assign (a b : nat) (v body : bytes) : bytes :=
  take a body ++ v ++ drop (Nat.max a b) body.

(** [bytearray(n)] for [0 <= n]. *)
Definition zeros (n : nat) : bytes := repeat NUL n.

(** *** Integers *)

(** Value of one digit character, for bases up to 36. *)
Definition digit_val (b : byte) : option Z :=
  let c := Z.of_N (Byte.to_N b) in
  if (48 <=? c) && (c <=? 57) then Some (c - 48)
  else if (97 <=? c) && (c <=? 122) then Some (c - 87)
  else if (65 <=? c) && (c <=? 90) then Some (c - 55)
  else None.

Fixpoint parse_digits (base : Z) (acc : Z) (s : bytes) : option Z :=
  match s with
  | [] => Some acc
  | b :: s' =>
      match digit_val b with
      | Some d => if d <? base then parse_digits base (base * acc + d) s' else None
      | None => None
      end
  end.

Definition strip_radix_prefix (base : Z) (s : bytes) : bytes :=
  match s with
  | b0 :: b1 :: s' =>
      if bool_decide (b0 = x30)
         && (bool_decide (b1 = x78) || bool_decide (b1 = x58))
         && (base =? 16)
      then s' else s
  | _ => s
  end.

(** [int(s, base)], [None] for [ValueError]: surrounding whitespace, an
    optional sign, an optional [0x] prefix in base 16, then at least one
    digit.  (Digit-group underscores are not accepted by this model.) *)
Definition int_of (base : Z) (s : bytes) : option Z :=
  let s := strip s in
  let '(neg, s) :=
    match s with
    | b :: s' =>
        if bool_decide (b = x2d) then (true, s')
        else if bool_decide (b = x2b) then (false, s')
        else (false, s)
    | [] => (false, s)
    end in
  match strip_radix_prefix base s with
  | [] => None
  | ds => (fun v => if neg : bool then - v else v) <$> parse_digits base 0 ds
  end.

Definition digit_char (d : nat) : byte :=
  match Byte.of_N (N.of_nat (if (d <? 10)%nat then 48 + d else 87 + d)) with
  | Some b => b
  | None => x30
  end.

(** Digits of [n] in [base], most significant first, no leading zero. *)
Fixpoint digits_fuel (fuel : nat) (base n : nat) : bytes :=
  match fuel with
  | O => []
  | S f =>
      (if (n / base =? 0)%nat then [] else digits_fuel f base (n / base))
      ++ [digit_char (n mod base)]
  end.

Definition digits (base n : nat) : bytes := digits_fuel (S n) base n.

(** [format(n, 'x')] for [0 <= n]. *)
Definition hex (n : nat) : bytes := digits 16 n.

(** [str(n)] *)
Definition str_of_Z (n : Z) : str :=
  if n <? 0 then x2d :: digits 10 (Z.to_nat (- n)) else digits 10 (Z.to_nat n).

(** *** UTF-8 *)

(** The well-formedness automaton of RFC 3629: [need] continuation bytes
    are still expected, the next one within [[lo, hi]]. *)
Fixpoint utf8_scan (need : nat) (lo hi : N) (p : bytes) : bool :=
  match p with
  | [] => bool_decide (need = 0%nat)
  | b :: q =>
      let c := Byte.to_N b in
      match need with
      | O =>
          (if c <? 128 then utf8_scan 0 128 191 q
           else if (194 <=? c) && (c <=? 223) then utf8_scan 1 128 191 q
           else if c =? 224 then utf8_scan 2 160 191 q
           else if c =? 237 then utf8_scan 2 128 159 q
           else if (225 <=? c) && (c <=? 239) then utf8_scan 2 128 191 q
           else if c =? 240 then utf8_scan 3 144 191 q
           else if c =? 244 then utf8_scan 3 128 143 q
           else if (241 <=? c) && (c <=? 243) then utf8_scan 3 128 191 q
           else false)%N
      | S n =>
          (if (lo <=? c) && (c <=? hi) then utf8_scan n 128 191 q else false)%N
      end
  end.

Definition utf8_valid (p : bytes) : bool := utf8_scan 0 128 191 p.

(** *** Joining *)

(** [sep.join(parts)] *)
Fixpoint join (sep : bytes) (parts : list bytes) : bytes :=
  match parts with
  | [] => []
  | [p] => p
  | p :: ps => p ++ sep ++ join sep ps
  end.

End Py.

(** ** Exceptions and outcomes *)

(** The exceptions the two modules meet.  [HttpError code msg] is
    [HttpError(request, code, msg)], the form the server raises and
    unpacks; [HttpErrorArgs n text] is an [HttpError] raised with [n]
    arguments, [n] other than three, whose [str()] is [text]. *)
Inductive exn :=
| OSError (errno : Z) (msg : str)
| TimeoutError (msg : str)
| ValueError (msg : str)
| UnicodeError (msg : str)
| HttpError (code : Z) (msg : str)
| HttpErrorArgs (n : nat) (text : str)
| Exception (msg : str).

#[global] Instance exn_eqdec : EqDecision exn.
Proof. solve_decision. Defined.

(** [str(e)]; an [OSError(errno, msg)] reads [[Errno errno] msg]. *)
Definition str_of_exn (e : exn) : str :=
  match e with
  | OSError errno m => B "[Errno " ++ Py.str_of_Z errno ++ B "] " ++ m
  | TimeoutError m | ValueError m | UnicodeError m
  | HttpError _ m | HttpErrorArgs _ m | Exception m => m
  end.

(** Outcome of running a coroutine for at most [fuel] loop iterations. *)
Inductive result (A : Type) :=
| Ok (a : A)
| Raise (e : exn)
| Spin.
Arguments Ok {A} a.
Arguments Raise {A} e.
Arguments Spin {A}.

#[global] Instance result_ret : MRet result := fun A a => Ok a.
#[global] Instance result_bind : MBind result := fun A B f m =>
  match m with
  | Ok a => f a
  | Raise e => Raise e
  | Spin => Spin
  end.

(** [bytes.decode()] *)
Definition decode (p : bytes) : result str :=
  if Py.utf8_valid p then Ok p else Raise (UnicodeError (B "invalid utf-8")).

(** [int(s, base)] *)
Definition py_int (base : Z) (s : bytes) : result Z :=
  match Py.int_of base s with
  | Some v => Ok v
  | None => Raise (ValueError (B "invalid literal for int()"))
  end.

(** ** The client: [src/firmware/modules/http_client.py] *)

Module Client.

Definition READ_SIZE : nat := 512.
Definition MAX_HEADER : nat := 2048.

Record HttpResponse := {
  status_code : Z;
  headers : option (gmap str str);
  body : str
}.

(** *** Transport

    The bytes the peer sends on one connection, in the pieces in which
    the reads find them (a read takes from one piece only, and leaves what
    it did not ask for), and what a read finds once they are consumed: end
    of stream ([None]) or an error such as a reset ([Some e]). *)
Record stream := { segs : list bytes; at_end : option exn }.

(** What [open_connection] gives on one attempt. *)
Record transport := { connect_error : option exn; incoming : stream }.

Fixpoint skip_empty (l : list bytes) : list bytes :=
  match l with
  | [] :: l' => skip_empty l'
  | _ => l
  end.

(** [await reader.read(n)]: at most [n] bytes of the segment at hand,
    [b""] at end of stream. *)
Definition read (n : nat) (s : stream) : result (bytes * stream) :=
  match skip_empty (segs s) with
  | [] =>
      match at_end s with
      | None => Ok ([], {| segs := []; at_end := None |})
      | Some e => Raise e
      end
  | seg :: rest =>
      Ok (take n seg,
          {| segs := if (length seg <=? n)%nat then rest else drop n seg :: rest;
             at_end := at_end s |})
  end.

(** *** URL parse (lines 21-38) *)
Definition parse_url (url : str) : bool * str * Z * str :=
  let '(use_ssl, url, port) :=
    if Py.startswith (B "https://") url then (true, drop 8 url, 443)
    else if Py.startswith (B "http://") url then (false, drop 7 url, 80)
    else (false, url, 80) in
  match Py.split_once (B "/") url with
  | Some (host, path) => (use_ssl, host, port, B "/" ++ path)
  | None => (use_ssl, url, port, B "/")
  end.

(** The request written at lines 51-57. *)
Definition request_bytes (host path : str) : bytes :=
  B "GET " ++ path ++ B " HTTP/1.1" ++ CRLF ++
  B "Host: " ++ host ++ CRLF ++
  B "Connection: close" ++ CRLFCRLF.

(** *** Header read loop (lines 61-70) *)
Fixpoint read_header_bytes (fuel : nat) (header_bytes : bytes) (s : stream)
  : result (bytes * stream) :=
  if Py.contains CRLFCRLF header_bytes then Ok (header_bytes, s)
  else
    match fuel with
    | O => Spin
    | S f =>
        '(chunk, s') ← read 64 s;
        match chunk with
        | [] => Ok (header_bytes, s')
        | _ =>
            let header_bytes := header_bytes ++ chunk in
            if (MAX_HEADER <? length header_bytes)%nat
            then Raise (ValueError (B "Header too large"))
            else read_header_bytes f header_bytes s'
        end
    end.

(** Status (lines 76-79): any failure of [int(lines[0].split()[1])] gives 500. *)
Definition parse_status (lines : list str) : Z :=
  match lines with
  | l0 :: _ =>
      match Py.split_ws l0 with
      | _ :: tok :: _ => default 500 (Py.int_of 10 tok)
      | _ => 500
      end
  | [] => 500
  end.

(** Headers (lines 82-86). *)
Definition add_header (headers : gmap str str) (l : str) : gmap str str :=
  match Py.split_once (B ":") l with
  | Some (k, v) => <[Py.strip (Py.lower k) := Py.strip v]> headers
  | None => headers
  end.

Definition parse_headers (lines : list str) : gmap str str :=
  foldl add_header ∅ (tail lines).

(** *** Body strategies (lines 88-172) *)

(** CHUNKED, inner loop of line 98. *)
Fixpoint fill_line (fuel : nat) (buffer : bytes) (s : stream)
  : result (bytes * stream) :=
  if Py.contains CRLF buffer then Ok (buffer, s)
  else
    match fuel with
    | O => Spin
    | S f =>
        '(chunk, s') ← read 64 s;
        fill_line f (buffer ++ chunk) s'
    end.

(** CHUNKED, inner loop of line 109: [need] is [size + 2]. *)
Fixpoint fill_size (fuel : nat) (need : Z) (buffer : bytes) (s : stream)
  : result (bytes * stream) :=
  if Z.of_nat (length buffer) <? need then
    match fuel with
    | O => Spin
    | S f =>
        '(chunk, s') ← read (Z.to_nat (need - Z.of_nat (length buffer))) s;
        fill_size f need (buffer ++ chunk) s'
    end
  else Ok (buffer, s).

(** CHUNKED, outer loop of lines 97-113; returns [body_parts]. *)
Fixpoint read_chunks (fuel0 fuel : nat) (body_parts : list bytes)
    (buffer : bytes) (s : stream) : result (list bytes) :=
  match fuel with
  | O => Spin
  | S f =>
      '(buffer, s) ← fill_line fuel0 buffer s;
      let p := default 0%nat (Py.find CRLF buffer) in
      let line := take p buffer in
      let buffer := drop (p + 2) buffer in
      size ← py_int 16 line;
      if size =? 0 then Ok body_parts
      else
        '(buffer, s) ← fill_size fuel0 (size + 2) buffer s;
        read_chunks fuel0 f (body_parts ++ [Py.slice_to size buffer])
                    (Py.slice_from (size + 2) buffer) s
  end.

Definition body_chunked (fuel : nat) (remaining : bytes) (s : stream)
  : result str :=
  body_parts ← read_chunks fuel fuel [] remaining s;
  decode (concat body_parts).

(** FIXED LENGTH, loop of lines 128-133. *)
Fixpoint fill_fixed (fuel : nat) (content_length : nat) (body : bytes)
    (idx : nat) (s : stream) : result bytes :=
  if (idx <? content_length)%nat then
    match fuel with
    | O => Spin
    | S f =>
        '(chunk, s') ← read (content_length - idx) s;
        match chunk with
        | [] => Ok body
        | _ =>
            fill_fixed f content_length
              (Py.slice_assign idx (idx + length chunk) chunk body)
              (idx + length chunk) s'
        end
    end
  else Ok body.

(** [bytearray(n)]: [ValueError] for a negative count. *)
Definition bytearray (n : Z) : result bytes :=
  if n <? 0 then Raise (ValueError (B "negative count"))
  else Ok (Py.zeros (Z.to_nat n)).

Definition body_fixed (fuel : nat) (content_length : str) (remaining : bytes)
    (s : stream) : result str :=
  content_length ← py_int 10 content_length;
  body ← bytearray content_length;
  let '(body, idx) :=
    match remaining with
    | [] => (body, 0%nat)
    | _ => (Py.slice_assign 0 (length remaining) remaining body,
            length remaining)
    end in
  body ← fill_fixed fuel (Z.to_nat content_length) body idx s;
  decode body.

(** SAFE FALLBACK BUFFER, loop of lines 149-158; returns [(body, idx)]. *)
Fixpoint fill_fallback (fuel : nat) (fallback_buffer_size : nat)
    (body : bytes) (idx : nat) (s : stream) : result (bytes * nat) :=
  match fuel with
  | O => Spin
  | S f =>
      '(chunk, s') ← read READ_SIZE s;
      match chunk with
      | [] => Ok (body, idx)
      | _ =>
          if (fallback_buffer_size <? idx + length chunk)%nat
          then Raise (ValueError (B "Body too large"))
          else fill_fallback f fallback_buffer_size
                 (Py.slice_assign idx (idx + length chunk) chunk body)
                 (idx + length chunk) s'
      end
  end.

Definition body_fallback (fuel : nat) (fallback_buffer_size : Z)
    (remaining : bytes) (s : stream) : result str :=
  body ← bytearray fallback_buffer_size;
  let size := Z.to_nat fallback_buffer_size in
  '(body, idx) ←
    match remaining with
    | [] => Ok (body, 0%nat)
    | _ =>
        if (size <? length remaining)%nat
        then Raise (ValueError (B "Body too large"))
        else Ok (Py.slice_assign 0 (length remaining) remaining body,
                 length remaining)
    end;
  '(body, idx) ← fill_fallback fuel size body idx s;
  decode (take idx body).

(** DYNAMIC, loop of lines 166-170; every chunk is decoded on its own. *)
Fixpoint fill_dynamic (fuel : nat) (parts : list str) (s : stream)
  : result (list str) :=
  match fuel with
  | O => Spin
  | S f =>
      '(chunk, s') ← read READ_SIZE s;
      match chunk with
      | [] => Ok parts
      | _ => text ← decode chunk; fill_dynamic f (parts ++ [text]) s'
      end
  end.

Definition body_dynamic (fuel : nat) (remaining : bytes) (s : stream)
  : result str :=
  parts ← match remaining with
          | [] => Ok []
          | _ => text ← decode remaining; Ok [text]
          end;
  parts ← fill_dynamic fuel parts s;
  Ok (concat parts).

(** The [if/elif/elif/else] of lines 93, 119, 138 and 163. *)
Inductive strategy :=
| Chunked
| FixedLength (content_length : str)
| Fallback (fallback_buffer_size : Z)
| Dynamic.

Definition select_strategy (headers : gmap str str)
    (fallback_buffer_size : option Z) : strategy :=
  let transfer_encoding := default [] (headers !! B "transfer-encoding") in
  let content_length := headers !! B "content-length" in
  if Py.contains (B "chunked") transfer_encoding then Chunked
  else
    match content_length with
    | Some (c :: cl) => FixedLength (c :: cl)
    | _ =>
        match fallback_buffer_size with
        | Some n => if n =? 0 then Dynamic else Fallback n
        | None => Dynamic
        end
    end.

Definition read_body (fuel : nat) (headers : gmap str str)
    (fallback_buffer_size : option Z) (remaining : bytes) (s : stream)
  : result str :=
  match select_strategy headers fallback_buffer_size with
  | Chunked => body_chunked fuel remaining s
  | FixedLength content_length => body_fixed fuel content_length remaining s
  | Fallback n => body_fallback fuel n remaining s
  | Dynamic => body_dynamic fuel remaining s
  end.

(** *** One attempt (lines 41-182)

    The [finally] block only closes the writer and swallows what
    [wait_closed] raises, so it does not change the outcome. *)
Definition single_request (fuel : nat) (fallback_buffer_size : option Z)
    (t : transport) : result HttpResponse :=
  match connect_error t with
  | Some e => Raise e
  | None =>
      '(header_bytes, s) ← read_header_bytes fuel [] (incoming t);
      let '(header_text, _, remaining) := Py.partition CRLFCRLF header_bytes in
      text ← decode header_text;
      let lines := Py.split CRLF text in
      let status := parse_status lines in
      let headers := parse_headers lines in
      body ← read_body fuel headers fallback_buffer_size remaining s;
      Ok {| status_code := status; headers := Some headers; body := body |}
  end.

(** [asyncio.wait_for_ms(coro, ms)]: a coroutine still running at the
    deadline is cancelled and [TimeoutError] is raised in its place. *)
Definition wait_for_ms {A} (r : result A) : result A :=
  match r with
  | Spin => Raise (TimeoutError [])
  | _ => r
  end.

(** *** Retry loop (lines 185-198) *)
Inductive event :=
| EvAttempt (i : nat)
| EvPrint (e : exn)
| EvSleep (ms : Z).

Fixpoint retry_loop (attempt : nat → result HttpResponse) (retries : Z)
    (i n : nat) : result (option HttpResponse) * list event :=
  match n with
  | O => (Ok None, [])
  | S n' =>
      match wait_for_ms (attempt i) with
      | Ok r => (Ok (Some r), [EvAttempt i])
      | Raise e =>
          if Z.of_nat i =? retries - 1
          then (Ok (Some {| status_code := 500; headers := None;
                            body := str_of_exn e |}),
                [EvAttempt i; EvPrint e])
          else
            let '(r, log) := retry_loop attempt retries (S i) n' in
            (r, EvAttempt i :: EvPrint e :: EvSleep 1000 :: log)
      | Spin => (Spin, [EvAttempt i])
      end
  end.

(** The network: what the [i]-th connection of a call meets, given the
    endpoint it is opened to and the request written on it. *)
Definition network : Type := nat → bool → str → Z → bytes → transport.

(** [http_client(url, retries, timeout, fallback_buffer_size)]; [fuel]
    stands for [timeout]. *)
Definition http_client (net : network) (fuel : nat) (url : str)
    (retries : Z) (fallback_buffer_size : option Z)
  : result (option HttpResponse) * list event :=
  let '(use_ssl, host, port, path) := parse_url url in
  retry_loop
    (fun i => single_request fuel fallback_buffer_size
                (net i use_ssl host port (request_bytes host path)))
    retries 0 (Z.to_nat retries).

End Client.

(** ** The server: [src/modules/http_server.py] *)

Module Server.

(** [uerrno] constants used by the module (lwIP values of the ESP32 port). *)
Definition ENOENT : Z := 2.
Definition EISDIR : Z := 21.
Definition ECONNRESET : Z := 104.
Definition ENOTCONN : Z := 128.

(** MIME types for static files (lines 7-15). *)
Definition _MIME : gmap str str :=
  list_to_map
    [ (B ".html", B "text/html");
      (B ".css", B "text/css");
      (B ".js", B "application/javascript");
      (B ".ico", B "image/x-icon");
      (B ".png", B "image/png");
      (B ".jpg", B "image/jpeg");
      (B ".json", B "application/json") ].

Definition STATIC_DIR : str := B "./html".

(** What the static root holds at a path. *)
Inductive file :=
| File (content : bytes)
| Dir.

(** One accepted connection: the identity of its writer, the bytes the peer
    sends, what a read finds after them (end of stream, or an error such as
    a reset or the 5 s timeout), and the [errno] of the [OSError] that
    [awrite] or [aclose] raise on it, if any. *)
Record conn := {
  conn_id : Z;
  peer_input : bytes;
  peer_end : option exn;
  awrite_error : option Z;
  aclose_error : option Z
}.

Section Engine.

(** [json.loads] ([None] when it raises) and [json.dumps] over the decoded
    values, and the file system under the static root. *)
Context {JSON : Type}.
Variable json_loads : bytes → option JSON.
Variable json_dumps : JSON → str.
Variable fs : str → option file.

Record Request := {
  method : str;
  url : str;
  headers : gmap str str;
  args : gmap str str;
  json : option JSON
}.

(** [Request()] (lines 21-29). *)
Definition new_request : Request :=
  {| method := []; url := []; headers := ∅; args := ∅; json := None |}.

(** What the connection task does, in order. *)
Inductive event :=
| EvReadline (line : bytes)
| EvRead (data : bytes)
| EvWrite (data : bytes)
| EvClose
| EvBeforeHook (i : nat)
| EvHandler (path : str)
| EvErrorHook (i : nat) (code : Z) (msg : str)
| EvAfterHook (i : nat) (status_code : Z)
| EvPrint (e : exn).

(** The locals of [handle] that outlive an exception, the unread input and
    the log. *)
Record st := {
  input : bytes;
  request : Request;
  status_code : Z;
  log : list event
}.

Definition M (A : Type) : Type := st → result A * st.

#[global] Instance M_ret : MRet M := fun A a s => (Ok a, s).
#[global] Instance M_bind : MBind M := fun A B f m s =>
  match m s with
  | (Ok a, s') => f a s'
  | (Raise e, s') => (Raise e, s')
  | (Spin, s') => (Spin, s')
  end.

Definition raise {A} (e : exn) : M A := fun s => (Raise e, s).
Definition spin {A} : M A := fun s => (Spin, s).
Definition get : M st := fun s => (Ok s, s).
(** The state after the events [evs] were added to the log. *)
Definition logged (s : st) (evs : list event) : st :=
  {| input := input s; request := request s;
     status_code := status_code s; log := log s ++ evs |}.
Definition emit (ev : event) : M unit := fun s => (Ok tt, logged s [ev]).
Definition set_input (i : bytes) : M unit := fun s =>
  (Ok tt, {| input := i; request := request s;
             status_code := status_code s; log := log s |}).
Definition set_request (r : Request) : M unit := fun s =>
  (Ok tt, {| input := input s; request := r;
             status_code := status_code s; log := log s |}).
Definition set_status_code (c : Z) : M unit := fun s =>
  (Ok tt, {| input := input s; request := request s;
             status_code := c; log := log s |}).

(** [try: m  except <handled by h>: ...]; [h] re-raises what it does not
    handle. *)
Definition try_except {A} (m : M A) (h : exn → M A) : M A := fun s =>
  match m s with
  | (Raise e, s') => h e s'
  | r => r
  end.

(** [try: m  finally: f]. *)
Definition try_finally {A} (m : M A) (f : M unit) : M A := fun s =>
  match m s with
  | (Spin, s') => (Spin, s')
  | (r, s') =>
      match f s' with
      | (Ok _, s'') => (r, s'')
      | (Raise e, s'') => (Raise e, s'')
      | (Spin, s'') => (Spin, s'')
      end
  end.

(** Lifting of the pure builtins that may raise. *)
Definition lift {A} (r : result A) : M A := fun s => (r, s).

(** *** Transport of one connection *)

Definition at_peer_end (c : conn) : M bytes :=
  match peer_end c with
  | None => mret []
  | Some e => raise e
  end.

(** [await asyncio.wait_for(reader.readline(), 5)] *)
Definition readline (c : conn) : M bytes :=
  s ← get;
  line ← match Py.find [LF] (input s) with
         | Some p =>
             set_input (drop (S p) (input s));; mret (take (S p) (input s))
         | None =>
             match input s with
             | [] => at_peer_end c
             | _ => match peer_end c with
                    | None => set_input [];; mret (input s)
                    | Some e => raise e
                    end
             end
         end;
  emit (EvReadline line);; mret line.

(** [await asyncio.wait_for(reader.read(n), 5)]; what the peer has sent is
    delivered at once. *)
Definition read (c : conn) (n : nat) : M bytes :=
  s ← get;
  data ← match input s with
         | [] => at_peer_end c
         | _ => set_input (drop n (input s));; mret (take n (input s))
         end;
  emit (EvRead data);; mret data.

(** [await writer.awrite(data)] *)
Definition awrite (c : conn) (data : bytes) : M unit :=
  match awrite_error c with
  | None => emit (EvWrite data)
  | Some errno => raise (OSError errno [])
  end.

(** [await writer.aclose()] *)
Definition aclose (c : conn) : M unit :=
  match aclose_error c with
  | None => emit EvClose
  | Some errno => raise (OSError errno [])
  end.

Definition is_OSError (e : exn) : bool :=
  match e with OSError _ _ => true | _ => false end.

(** Safe write helper (lines 32-40).  A [str] is encoded first; its
    ISO-8859-1 encoding is taken to be its bytes, which is exact for ASCII
    text. *)
Definition write (c : conn) (data : bytes) : M unit :=
  try_except (awrite c data)
    (fun e => match e with
              | OSError errno _ =>
                  if bool_decide (errno = ECONNRESET)
                     || bool_decide (errno = ENOTCONN)
                  then mret tt else raise e
              | _ => raise e
              end).

(** [open(filename, mode)] followed by reading it all. *)
Definition open_file (filename : str) : result bytes :=
  match fs filename with
  | Some (File content) => Ok content
  | Some Dir => Raise (OSError EISDIR (B "EISDIR"))
  | None => Raise (OSError ENOENT (B "ENOENT"))
  end.

Fixpoint write_chunks (c : conn) (fuel : nat) (content : bytes) : M unit :=
  match fuel with
  | O => mret tt
  | S f =>
      match take 512 content with
      | [] => mret tt
      | chunk => write c chunk;; write_chunks c f (drop 512 content)
      end
  end.

(** File sending helper (lines 43-56).  The file is cut every 512 bytes
    in both modes. *)
Definition send_file (c : conn) (filename : str) (binary : bool) : M unit :=
  try_except
    (content ← lift (open_file filename);
     write_chunks c (S (length content)) content)
    (fun e => match e with
              | OSError errno _ =>
                  if bool_decide (errno = ENOENT)
                  then raise (HttpError 404 (B "File Not Found"))
                  else raise e
              | _ => raise e
              end).

(** Headers (lines 59-71). *)
Definition send_headers (c : conn) (status_code : Z) (content_type : bytes)
    (cache : bool) : M unit :=
  write c (B "HTTP/1.1 " ++ Py.str_of_Z status_code ++ CRLF);;
  write c (B "Content-Type: " ++ content_type ++ CRLF);;
  (if cache
   then write c (B "Cache-Control: max-age=31536000" ++ CRLF)
   else write c (B "Cache-Control: no-cache, no-store, must-revalidate" ++ CRLF);;
        write c (B "Pragma: no-cache" ++ CRLF);;
        write c (B "Expires: 0" ++ CRLF));;
  write c (B "Access-Control-Allow-Origin: *" ++ CRLF);;
  write c (B "Access-Control-Allow-Methods: GET, POST, OPTIONS" ++ CRLF);;
  write c (B "Access-Control-Allow-Headers: Content-Type, Authorization" ++ CRLFCRLF).

(** *** Server object *)

(** What a route handler returns (line 200-205): a mapping or sequence, a
    string, or anything else. *)
Inductive handler_result :=
| HJson (v : JSON)
| HText (text : str)
| HNone.

(** An application handler: what it writes on the connection and how it
    ends. *)
Record handler_run := {
  h_writes : list bytes;
  h_outcome : result handler_result
}.

Definition handler := Request → handler_run.
(** A before-hook may change the request and may raise. *)
Definition before_hook := Request → Request * option exn.
Definition error_hook := Request → Z → str → option exn.
Definition after_hook := Request → Z → option exn.

Record HttpServer := {
  routes : gmap str (handler * list str);
  _before_hooks : list before_hook;
  _after_hooks : list after_hook;
  _error_hooks : list error_hook;
  _connections : gset Z;
  max_connections : Z
}.

Definition set_connections (srv : HttpServer) (s : gset Z) : HttpServer :=
  {| routes := routes srv; _before_hooks := _before_hooks srv;
     _after_hooks := _after_hooks srv; _error_hooks := _error_hooks srv;
     _connections := s; max_connections := max_connections srv |}.

(** *** Static files (lines 247-263) *)

(** [url.split('.')[-1]] *)
Definition last_field (url : str) : str :=
  List.last (Py.split (B ".") url) [].

(** Path, content type and mode under which a URL is served. *)
Definition static_target (url : str) : str * str * bool :=
  let url := if Py.contains (B ".") url then url else url ++ B ".html" in
  let path := STATIC_DIR ++ B "/" ++ drop 1 url in
  let ext := B "." ++ last_field url in
  let content_type := default (B "application/octet-stream") (_MIME !! ext) in
  let binary := bool_decide (ext ∈ [B ".ico"; B ".png"; B ".jpg"]) in
  (path, content_type, binary).

(** [os.stat(path)] *)
Definition os_stat (path : str) : result unit :=
  match fs path with
  | Some _ => Ok tt
  | None => Raise (OSError ENOENT (B "ENOENT"))
  end.

Definition serve_static (c : conn) (req : Request) : M unit :=
  let '(path, content_type, binary) := static_target (url req) in
  try_except
    (lift (os_stat path);;
     send_headers c 200 content_type true;;
     send_file c path binary)
    (fun e => if is_OSError e
              then send_headers c 404 (B "text/html") false;;
                   write c (B "<h1>404 Not Found</h1>")
              else raise e).

(** *** Request parsing (lines 137-177) *)

(** Query params (lines 147-155): [(url, args)] of the request target. *)
Definition add_arg (args : gmap str str) (p : str) : gmap str str :=
  match Py.split_once (B "=") p with
  | Some (k, v) => <[k := v]> args
  | None => <[p := []]> args
  end.

Definition parse_target (full_url : str) : str * gmap str str :=
  match Py.split_once (B "?") full_url with
  | Some (path, query) => (path, foldl add_arg ∅ (Py.split (B "&") query))
  | None => (full_url, ∅)
  end.

Definition with_line (r : Request) (m u : str) (a : gmap str str) : Request :=
  {| method := m; url := u; headers := headers r; args := a; json := json r |}.

Definition with_header (r : Request) (k v : str) : Request :=
  {| method := method r; url := url r; headers := <[k := v]> (headers r);
     args := args r; json := json r |}.

Definition with_json (r : Request) (j : option JSON) : Request :=
  {| method := method r; url := url r; headers := headers r;
     args := args r; json := j |}.

(** Headers (lines 158-165). *)
Fixpoint read_headers (c : conn) (fuel : nat) : M unit :=
  match fuel with
  | O => spin
  | S f =>
      hline ← readline c;
      if bool_decide (hline = []) || bool_decide (hline = CRLF) then mret tt
      else
        hline ← lift (decode hline);
        match Py.split_once (B ":") hline with
        | Some (k, v) =>
            s ← get;
            set_request (with_header (request s) (Py.strip k) (Py.strip v))
        | None => mret tt
        end;;
        read_headers c f
  end.

(** Loop of lines 171-172. *)
Fixpoint read_post_body (c : conn) (fuel : nat) (length_ : Z) (body : bytes)
  : M bytes :=
  if Z.of_nat (length body) <? length_ then
    match fuel with
    | O => spin
    | S f =>
        data ← read c (Z.to_nat (length_ - Z.of_nat (length body)));
        read_post_body c f length_ (body ++ data)
    end
  else mret body.

(** POST JSON (lines 168-177). *)
Definition read_json (c : conn) (fuel : nat) : M unit :=
  s ← get;
  length_ ← match headers (request s) !! B "Content-Length" with
            | Some v => lift (py_int 10 v)
            | None => mret 0
            end;
  body ← read_post_body c fuel length_ [];
  match body with
  | [] => mret tt
  | _ => s ← get; set_request (with_json (request s) (json_loads body))
  end.

(** BEFORE hooks (lines 180-184). *)
Fixpoint run_before (i : nat) (hooks : list before_hook) : M unit :=
  match hooks with
  | [] => mret tt
  | h :: hooks' =>
      s ← get;
      emit (EvBeforeHook i);;
      let '(r, e) := h (request s) in
      set_request r;;
      match e with Some e => emit (EvPrint e) | None => mret tt end;;
      run_before (S i) hooks'
  end.

(** Error hooks (lines 211-215 and 224-228); what they raise is dropped. *)
Fixpoint run_error (i : nat) (hooks : list error_hook) (code : Z) (msg : str)
  : M unit :=
  match hooks with
  | [] => mret tt
  | h :: hooks' => emit (EvErrorHook i code msg);; run_error (S i) hooks' code msg
  end.

(** AFTER hooks (lines 234-238). *)
Fixpoint run_after (i : nat) (hooks : list after_hook) : M unit :=
  match hooks with
  | [] => mret tt
  | h :: hooks' =>
      s ← get;
      emit (EvAfterHook i (status_code s));;
      match h (request s) (status_code s) with
      | Some e => emit (EvPrint e)
      | None => mret tt
      end;;
      run_after (S i) hooks'
  end.

(** *** Route handler (lines 193-207) *)

Fixpoint emit_writes (c : conn) (ws : list bytes) : M unit :=
  match ws with
  | [] => mret tt
  | w :: ws' => awrite c w;; emit_writes c ws'
  end.

Definition call_handler (c : conn) (path : str) (h : handler) (req : Request)
  : M handler_result :=
  emit (EvHandler path);;
  emit_writes c (h_writes (h req));;
  lift (h_outcome (h req)).

Definition dispatch (srv : HttpServer) (c : conn) (req : Request) : M unit :=
  let '(key, found) :=
    match routes srv !! url req with
    | Some hm => (url req, Some hm)
    | None => (B "*", routes srv !! B "*")
    end in
  match found with
  | Some (h, methods) =>
      if bool_decide (method req ∈ methods) then
        result ← call_handler c key h req;
        match result with
        | HJson v =>
            send_headers c 200 (B "application/json") false;;
            write c (json_dumps v)
        | HText text =>
            send_headers c 200 (B "text/plain") false;;
            write c text
        | HNone => mret tt
        end
      else serve_static c req
  | None => serve_static c req
  end.

(** *** The body of the [try] (lines 137-207) *)
Definition process (srv : HttpServer) (c : conn) (fuel : nat) : M unit :=
  line ← readline c;
  match line with
  | [] => mret tt
  | _ =>
      text ← lift (decode line);
      match Py.split_ws text with
      | [m; full_url; _] =>
          s ← get;
          let '(u, a) := parse_target full_url in
          set_request (with_line (request s) m u a);;
          read_headers c fuel;;
          (if bool_decide (m = B "POST") then read_json c fuel else mret tt);;
          run_before 0 (_before_hooks srv);;
          s ← get;
          if bool_decide (method (request s) = B "OPTIONS") then
            set_status_code 204;;
            send_headers c 204 (B "text/html") false
          else dispatch srv c (request s)
      | _ => mret tt
      end
  end.

(** What [req, code, msg = e.args] (line 210) raises when [e.args] holds
    [n] values, [n] other than three. *)
Definition unpack_error (n : nat) : exn :=
  if (n <? 3)%nat
  then ValueError (B "need more than " ++ Py.str_of_Z (Z.of_nat n)
                   ++ B " values to unpack")
  else ValueError (B "too many values to unpack (expected 3)").

(** The [except] clauses (lines 209-230).  An exception raised inside a
    clause is not seen by the clauses after it. *)
Definition on_exception (srv : HttpServer) (c : conn) (e : exn) : M unit :=
  match e with
  | HttpError code msg =>
      run_error 0 (_error_hooks srv) code msg;;
      send_headers c code (B "text/html") false;;
      write c (B "<h1>" ++ msg ++ B "</h1>")
  | HttpErrorArgs n _ => raise (unpack_error n)
  | OSError _ _ | TimeoutError _ => emit (EvPrint e)
  | _ =>
      run_error 0 (_error_hooks srv) 500 (str_of_exn e);;
      send_headers c 500 (B "text/html") false;;
      write c (B "<h1>500 Internal Server Error</h1>")
  end.

(** The [finally] block up to the release of the slot (lines 233-242). *)
Definition teardown (srv : HttpServer) (c : conn) : M unit :=
  run_after 0 (_after_hooks srv);;
  try_except (aclose c) (fun e => if is_OSError e then mret tt else raise e).

(** Lines 130-242 for an admitted connection. *)
Definition serve (srv : HttpServer) (c : conn) (fuel : nat) : M unit :=
  try_finally (try_except (process srv c fuel) (on_exception srv c))
              (teardown srv c).

(** *** Admission (lines 115-127) and release (lines 243-244) *)

Definition full (srv : HttpServer) : bool :=
  max_connections srv <=? Z.of_nat (size (_connections srv)).

Definition enter (srv : HttpServer) (c : conn) : HttpServer :=
  if full srv then srv
  else set_connections srv ({[conn_id c]} ∪ _connections srv).

Definition release (srv : HttpServer) (c : conn) : HttpServer :=
  set_connections srv (_connections srv ∖ {[conn_id c]}).

Definition response_503 : bytes :=
  B "HTTP/1.1 503 Service Unavailable" ++ CRLF ++
  B "Content-Type: text/html" ++ CRLFCRLF ++
  B "<h1>503 Too many connections</h1>".

(** Lines 117-126. *)
Definition reject (c : conn) : M unit :=
  try_except (awrite c response_503;; aclose c)
             (fun e => if is_OSError e then mret tt else raise e).

Definition initial (c : conn) : st :=
  {| input := peer_input c; request := new_request; status_code := 200;
     log := [] |}.

(** [handle(reader, writer)]: the server after the task, its outcome and
    what it did.  A task that is still spinning holds its slot. *)
Definition handle (srv : HttpServer) (c : conn) (fuel : nat)
  : HttpServer * result unit * list event :=
  if full srv then
    let '(r, s) := reject c (initial c) in (srv, r, log s)
  else
    let srv := enter srv c in
    match serve srv c fuel (initial c) with
    | (Spin, s) => (srv, Spin, log s)
    | (r, s) => (release srv c, r, log s)
    end.

End Engine.

(** *** The admission set under interleaving

    Between two suspension points a task runs alone, and the lock covers
    the check, the 503 answer and the insertion; so the set changes only
    by an admission or by the release that ends an admitted task. *)
Inductive step {JSON : Type} : @HttpServer JSON → @HttpServer JSON → Prop :=
| step_arrive srv c : step srv (enter srv c)
| step_release srv c : conn_id c ∈ _connections srv → step srv (release srv c).

Inductive reachable {JSON : Type} (srv0 : @HttpServer JSON)
  : @HttpServer JSON → Prop :=
| reach_init : reachable srv0 srv0
| reach_step srv srv' : reachable srv0 srv → step srv srv' → reachable srv0 srv'.

End Server.

(** ** Specification-side definitions for the client *)

Module ClientSpec.
Import Client.

(** The [i]-th attempt of a call, as the retry loop runs it. *)
Definition attempt (net : network) (fuel : nat) (url : str)
    (fallback_buffer_size : option Z) (i : nat) : result HttpResponse :=
  let '(use_ssl, host, port, path) := parse_url url in
  wait_for_ms (single_request fuel fallback_buffer_size
                 (net i use_ssl host port (request_bytes host path))).

(** Log of failed attempts [i, i+1, ...], each followed by the backoff. *)
Fixpoint failed_log (i : nat) (errs : list exn) : list event :=
  match errs with
  | [] => []
  | e :: errs' =>
      EvAttempt i :: EvPrint e :: EvSleep 1000 :: failed_log (S i) errs'
  end.

(** The response returned once the retries are exhausted. *)
Definition synthetic (e : exn) : HttpResponse :=
  {| status_code := 500; headers := None; body := str_of_exn e |}.

(** Chunked transfer encoding as the specification words it, for a body
    cut into the given chunks: for each chunk the size in hexadecimal,
    CRLF, the bytes, CRLF; then a zero-size chunk and the final CRLF. *)
Definition encode_chunk (c : bytes) : bytes :=
  Py.hex (length c) ++ CRLF ++ c ++ CRLF.

Definition encode_chunked (chunks : list bytes) : bytes :=
  concat (map encode_chunk chunks) ++ B "0" ++ CRLF ++ CRLF.

(** Bytes still to arrive on a stream. *)
Definition pending (s : stream) : bytes := concat (segs s).

(** A stream that delivers the given segments and then ends. *)
Definition stream_of (segments : list bytes) : stream :=
  {| segs := segments; at_end := None |}.

(** The response is framed by [Transfer-Encoding: chunked]. *)
Definition chunked (headers : gmap str str) : bool :=
  Py.contains (B "chunked") (default [] (headers !! B "transfer-encoding")).

(** The response carries [Content-Length: N]. *)
Definition declares_length (headers : gmap str str) (N : nat) : Prop :=
  ∃ cl, headers !! B "content-length" = Some cl ∧ cl ≠ [] ∧
        Py.int_of 10 cl = Some (Z.of_nat N).

(** Two header lines that differ at most in the letter case of the name. *)
Definition same_header_line (l l' : str) : Prop :=
  match Py.split_once (B ":") l, Py.split_once (B ":") l' with
  | Some (k, v), Some (k', v') => Py.lower k = Py.lower k' ∧ v = v'
  | None, None => True
  | _, _ => False
  end.

(** The body of an outcome. *)
Definition body_of (r : result HttpResponse) : result str :=
  match r with
  | Ok resp => Ok (body resp)
  | Raise e => Raise e
  | Spin => Spin
  end.

(** The characters of a hexadecimal size line. *)
Definition hexdigit (b : byte) : Prop :=
  ∃ d, (d < 16)%nat ∧ b = Py.digit_char d.

(** *** Concrete peers *)

(** A server that resets every connection attempt. *)
Definition net_reset : network := fun _ _ _ _ _ =>
  {| connect_error := Some (OSError 104 (B "ECONNRESET"));
     incoming := stream_of [] |}.

(** A response head announcing chunked framing next to a length that must
    not be consulted, and one announcing a length only. *)
Definition chunked_headers : gmap str str :=
  <[B "transfer-encoding" := B "chunked"]> (<[B "content-length" := B "999"]> ∅).

Definition length_headers (n : str) : gmap str str :=
  <[B "content-length" := n]> ∅.

(** *** Further notions *)

(** A byte of the ASCII range. *)
Definition is_ascii (b : byte) : bool := (Byte.to_N b <? 128)%N.

(** A connection that opens and delivers the given segments. *)
Definition delivers (segments : list bytes) : transport :=
  {| connect_error := None; incoming := stream_of segments |}.

End ClientSpec.

(** ** Specification-side definitions for the server *)

Module ServerSpec.
Import Server.

(** The lines [send_headers] writes. *)
Definition response_head (status_code : Z) (content_type : bytes)
    (cache : bool) : list bytes :=
  [B "HTTP/1.1 " ++ Py.str_of_Z status_code ++ CRLF;
   B "Content-Type: " ++ content_type ++ CRLF]
  ++ (if cache
      then [B "Cache-Control: max-age=31536000" ++ CRLF]
      else [B "Cache-Control: no-cache, no-store, must-revalidate" ++ CRLF;
            B "Pragma: no-cache" ++ CRLF;
            B "Expires: 0" ++ CRLF])
  ++ [B "Access-Control-Allow-Origin: *" ++ CRLF;
      B "Access-Control-Allow-Methods: GET, POST, OPTIONS" ++ CRLF;
      B "Access-Control-Allow-Headers: Content-Type, Authorization" ++ CRLFCRLF].

(** A file cut every 512 bytes. *)
Fixpoint file_chunks (fuel : nat) (content : bytes) : list bytes :=
  match fuel with
  | O => []
  | S f =>
      match take 512 content with
      | [] => []
      | chunk => chunk :: file_chunks f (drop 512 content)
      end
  end.

Definition is_read (ev : event) : bool :=
  match ev with
  | EvReadline _ | EvRead _ => true
  | _ => false
  end.

(** Body bytes read by [reader.read], in order. *)
Definition reads (l : list event) : list bytes :=
  omap (fun ev => match ev with EvRead d => Some d | _ => None end) l.

(** Status lines written on the connection. *)
Definition status_lines (l : list event) : list bytes :=
  omap (fun ev => match ev with
                  | EvWrite d =>
                      if Py.startswith (B "HTTP/1.1 ") d then Some d else None
                  | _ => None
                  end) l.

(** Status codes handed to the after-hooks, in order. *)
Definition after_codes (l : list event) : list (nat * Z) :=
  omap (fun ev => match ev with
                  | EvAfterHook i code => Some (i, code)
                  | _ => None
                  end) l.

(** Everything written on the connection. *)
Definition sent (l : list event) : bytes :=
  concat (omap (fun ev => match ev with EvWrite d => Some d | _ => None end) l).

(** A connection on which nothing fails. *)
Definition peer (id : Z) (data : bytes) : conn :=
  {| conn_id := id; peer_input := data; peer_end := None;
     awrite_error := None; aclose_error := None |}.

(** A server as [HttpServer.__init__] leaves it, with the given routes and
    hooks registered. *)
Definition new_server {JSON} (routes : gmap str (@handler JSON * list str))
    (after : list (@after_hook JSON)) (max_connections : Z)
  : @HttpServer JSON :=
  {| routes := routes; _before_hooks := []; _after_hooks := after;
     _error_hooks := []; _connections := ∅;
     max_connections := max_connections |}.

Definition not_found_body : bytes := B "<h1>404 Not Found</h1>".

(** A computation that only writes on the connection. *)
Definition writes_only {JSON A} (m : @M JSON A) : Prop :=
  ∀ s r s', m s = (r, s') → ∃ ws, s' = logged s (map EvWrite ws).

Definition is_after (ev : event) : bool :=
  match ev with EvAfterHook _ _ => true | _ => false end.

(** A computation that calls no after-hook and leaves [status_code] as it
    is or sets it to 204. *)
Definition quiet {JSON A} (m : @M JSON A) : Prop :=
  ∀ s r s', m s = (r, s') →
    ∃ evs, log s' = log s ++ evs ∧
           Forall (λ ev, is_after ev = false) evs ∧
           (status_code s' = status_code s ∨ status_code s' = 204).

(** *** Concrete servers and requests *)

(** Decoded JSON values are kept as their text in the examples. *)
Definition loads (body : bytes) : option bytes := Some body.
Definition dumps (v : bytes) : str := v.

(** A static root that holds [index.html] only. *)
Definition site (path : str) : option file :=
  if bool_decide (path = B "./html/index.html")
  then Some (File (B "<html></html>")) else None.

Definition http_get (path : str) : bytes :=
  B "GET " ++ path ++ B " HTTP/1.1" ++ CRLFCRLF.

Definition http_post (path header body : bytes) : bytes :=
  B "POST " ++ path ++ B " HTTP/1.1" ++ CRLF ++ header ++ CRLFCRLF ++ body.

(** An after-hook that does nothing; the log records what it is given. *)
Definition seen : @after_hook bytes := fun _ _ => None.

(** A handler that writes nothing and ends as given. *)
Definition answers (r : result (@handler_result bytes)) : @handler bytes :=
  fun _ => {| h_writes := []; h_outcome := r |}.

(** The log of one connection sending [data] to a fresh server with the
    given routes and one after-hook. *)
Definition run (routes : gmap str (@handler bytes * list str)) (data : bytes)
  : list event :=
  (handle loads dumps site (new_server routes [seen] 10) (peer 1 data) 16).2.

Definition one_slot : @HttpServer bytes := new_server ∅ [] 1.

Definition page (u : str) : @Request bytes :=
  {| method := B "GET"; url := u; headers := ∅; args := ∅; json := None |}.

Definition led_routes : gmap str (@handler bytes * list str) :=
  <[B "/led" := (answers (Ok (HText (B "on"))), [B "POST"])]>
    (<[B "*" := (answers (Ok (HText (B "fallback"))), [B "GET"])]> ∅).

(** *** Further notions *)

(** The lines of the head [send_headers] writes, without their line ends. *)
Definition head_lines (status_code : Z) (content_type : bytes) (cache : bool)
  : list bytes :=
  [B "HTTP/1.1 " ++ Py.str_of_Z status_code;
   B "Content-Type: " ++ content_type]
  ++ (if cache
      then [B "Cache-Control: max-age=31536000"]
      else [B "Cache-Control: no-cache, no-store, must-revalidate";
            B "Pragma: no-cache";
            B "Expires: 0"])
  ++ [B "Access-Control-Allow-Origin: *";
      B "Access-Control-Allow-Methods: GET, POST, OPTIONS";
      B "Access-Control-Allow-Headers: Content-Type, Authorization"].

(** Paths of the route handlers called, in order. *)
Definition handler_calls (l : list event) : list str :=
  omap (fun ev => match ev with EvHandler p => Some p | _ => None end) l.

(** Calls of the error hooks, in order. *)
Definition error_calls (l : list event) : list (nat * Z * str) :=
  omap (fun ev => match ev with
                  | EvErrorHook i code msg => Some (i, code, msg)
                  | _ => None
                  end) l.

(** Calls of the before-hooks, in order. *)
Definition before_calls (l : list event) : list nat :=
  omap (fun ev => match ev with EvBeforeHook i => Some i | _ => None end) l.

(** Chunks written on the connection, in order. *)
Definition writes (l : list event) : list bytes :=
  omap (fun ev => match ev with EvWrite d => Some d | _ => None end) l.

(** What only the hooks of the [finally] block and the close leave in the
    log. *)
Definition closing_event (ev : event) : bool :=
  match ev with
  | EvAfterHook _ _ | EvPrint _ | EvClose => true
  | _ => false
  end.

(** The errors that the second [except] clause takes for network errors. *)
Definition is_transport (e : exn) : bool :=
  match e with OSError _ _ | TimeoutError _ => true | _ => false end.

(** The [errno] values the write helper swallows. *)
Definition swallowed (errno : Z) : bool :=
  bool_decide (errno = ECONNRESET) || bool_decide (errno = ENOTCONN).

(** A computation that raises nothing but exceptions in [P]. *)
Definition raises_within {JSON A} (P : exn → Prop) (m : @M JSON A) : Prop :=
  ∀ s e s', m s = (Raise e, s') → P e.

(** The only failure of a write that the helper lets through. *)
Definition write_failure (c : conn) (e : exn) : Prop :=
  ∃ errno, awrite_error c = Some errno ∧ swallowed errno = false ∧
           e = OSError errno [].

(** What [readline] returns first on a connection that stays open: the
    bytes up to and including the first LF, or all of them. *)
Definition first_line (data : bytes) : bytes :=
  match Py.find [LF] data with
  | Some p => take (S p) data
  | None => data
  end.

(** A request head as a client writes it. *)
Definition request_line (m target version : str) : bytes :=
  m ++ B " " ++ target ++ B " " ++ version ++ CRLF.

Definition header_line (h : str * str) : bytes :=
  h.1 ++ B ":" ++ h.2 ++ CRLF.

Definition header_block (hs : list (str * str)) : bytes :=
  concat (map header_line hs).

(** A field of the request line: not empty, no white space. *)
Definition token (t : str) : Prop :=
  t ≠ [] ∧ Forall (λ b, Py.isspace b = false) t.

(** A header line the server takes apart into name and value. *)
Definition wellformed_header (h : str * str) : Prop :=
  Py.contains (B ":") h.1 = false ∧ (LF ∉ h.1) ∧ (LF ∉ h.2) ∧
  Py.utf8_valid (header_line h) = true.

(** The request the head [m target version], followed by the header lines
    [hs], is parsed into. *)
Definition parsed_request {JSON} (m target : str) (hs : list (str * str))
  : @Request JSON :=
  {| method := m; url := (parse_target target).1;
     headers := foldl (λ hd h, <[Py.strip h.1 := Py.strip h.2]> hd) ∅ hs;
     args := (parse_target target).2; json := None |}.

(** The request as the before-hooks leave it. *)
Definition hooked {JSON} (hooks : list (@before_hook JSON)) (r : @Request JSON)
  : @Request JSON :=
  foldl (λ r h, (h r).1) r hooks.

(** The state of the task when the request line and the header lines [hs]
    have been read, [rest] being what the peer sent after the blank line. *)
Definition after_head {JSON} (m target version : str) (hs : list (str * str))
    (rest : bytes) : @st JSON :=
  {| input := rest; request := parsed_request m target hs; status_code := 200;
     log := map EvReadline (request_line m target version
                            :: map header_line hs ++ [CRLF]) |}.

(** The POST block of lines 168-177. *)
Definition post_block {JSON} (json_loads : bytes → option JSON) (c : conn)
    (fuel : nat) (m : str) : @M JSON unit :=
  if bool_decide (m = B "POST") then read_json json_loads c fuel else mret tt.

(** A query string [k1=v1&k2=v2...]. *)
Definition query_pair (kv : str * str) : str := kv.1 ++ B "=" ++ kv.2.

Definition query_string (kvs : list (str * str)) : str :=
  Py.join (B "&") (map query_pair kvs).

(** A connection whose peer has gone: writes fail with the given [errno]. *)
Definition broken_pipe (id : Z) (data : bytes) (errno : Z) : conn :=
  {| conn_id := id; peer_input := data; peer_end := None;
     awrite_error := Some errno; aclose_error := None |}.

(** A connection on which the read after [data] fails with [e]. *)
Definition stalled (id : Z) (data : bytes) (e : exn) : conn :=
  {| conn_id := id; peer_input := data; peer_end := Some e;
     awrite_error := None; aclose_error := None |}.

End ServerSpec.

(** ** Registration of routes and hooks *)

Module Registration.
Import Server.

(** *** Registration (lines 90-108) *)

Definition before {JSON} (srv : @HttpServer JSON) (func : @before_hook JSON)
  : @HttpServer JSON :=
  {| routes := routes srv; _before_hooks := _before_hooks srv ++ [func];
     _after_hooks := _after_hooks srv; _error_hooks := _error_hooks srv;
     _connections := _connections srv; max_connections := max_connections srv |}.

Definition after {JSON} (srv : @HttpServer JSON) (func : @after_hook JSON)
  : @HttpServer JSON :=
  {| routes := routes srv; _before_hooks := _before_hooks srv;
     _after_hooks := _after_hooks srv ++ [func]; _error_hooks := _error_hooks srv;
     _connections := _connections srv; max_connections := max_connections srv |}.

Definition on_error {JSON} (srv : @HttpServer JSON) (func : @error_hook JSON)
  : @HttpServer JSON :=
  {| routes := routes srv; _before_hooks := _before_hooks srv;
     _after_hooks := _after_hooks srv; _error_hooks := _error_hooks srv ++ [func];
     _connections := _connections srv; max_connections := max_connections srv |}.

(** [@server.route(path, methods)]; [methods] defaults to [['GET']]. *)
Definition route {JSON} (srv : @HttpServer JSON) (path : str)
    (methods : list str) (func : @handler JSON) : @HttpServer JSON :=
  {| routes := <[path := (func, methods)]> (routes srv);
     _before_hooks := _before_hooks srv;
     _after_hooks := _after_hooks srv; _error_hooks := _error_hooks srv;
     _connections := _connections srv; max_connections := max_connections srv |}.

End Registration.

(** ** Client and server together *)

Module ExchangeSpec.

(** The network as a client of the server sees it: every connection is
    handled by [handle] on the server as it stands, and what the server
    writes comes back, cut into segments by [cut], before the connection
    ends. *)
Definition served_by {JSON} (json_loads : bytes → option JSON)
    (json_dumps : JSON → str) (fs : str → option Server.file)
    (srv : @Server.HttpServer JSON) (fuel : nat) (cut : bytes → list bytes)
  : Client.network :=
  fun i _ _ _ request =>
    ClientSpec.delivers
      (cut (ServerSpec.sent
              (Server.handle json_loads json_dumps fs srv
                 (ServerSpec.peer (Z.of_nat i) request) fuel).2)).

(** Segments of at most [n + 1] bytes. *)
Fixpoint pieces (fuel n : nat) (data : bytes) : list bytes :=
  match fuel with
  | O => [data]
  | S f =>
      match data with
      | [] => []
      | _ => take (S n) data :: pieces f n (drop (S n) data)
      end
  end.

End ExchangeSpec.

(** ** A caller of the client: [src/modules/openmeteo.py] *)

Module OpenMeteo.

Section Update.

(** The decoded forecast, and lines 59-70 of [update] as a function of the
    response body: [json.loads], [_process_weather] and the removal of the
    hourly data give the outcome and the new [weather_data]. *)
Context {JSON : Type}.
Variable process_body : str → result bool * option JSON.

Inductive event :=
| EvHttp (ev : Client.event)
| EvPrintFetchFailed (e : exn)
| EvPrintStatus (status_code : Z).

(** The URL of lines 39-47; the numbers are given by their renderings. *)
Definition forecast_url (latitude longitude tilt azimuth : str) : str :=
  B "http://api.open-meteo.com/v1/forecast?"
  ++ B "latitude=" ++ latitude ++ B "&longitude=" ++ longitude
  ++ B "&hourly=temperature_2m,global_tilted_irradiance,cloud_cover"
  ++ B "&current=global_tilted_irradiance_instant,temperature_2m,cloud_cover"
  ++ B "&daily=precipitation_hours,sunrise,sunset,daylight_duration,wind_speed_10m_max"
  ++ B "&timezone=Europe%2FRome&forecast_days=3&tilt=" ++ tilt
  ++ B "&azimuth=" ++ azimuth
  ++ B "&past_days=0&models=best_match".

(** [update] (lines 37-70): the outcome, [self.weather_data] after the
    call and what was printed.  [response.status_code] on [None] raises
    [AttributeError]. *)
Definition update (net : Client.network) (fuel : nat) (url : str)
    (weather_data : option JSON)
  : result bool * option JSON * list event :=
  let '(r, log) := Client.http_client net fuel url 1 None in
  match r with
  | Raise e => (Ok false, weather_data, map EvHttp log ++ [EvPrintFetchFailed e])
  | Spin => (Spin, weather_data, map EvHttp log)
  | Ok None =>
      (Raise (Exception (B "AttributeError")), weather_data, map EvHttp log)
  | Ok (Some response) =>
      if bool_decide (Client.status_code response ≠ 200)
      then (Ok false, weather_data,
            map EvHttp log ++ [EvPrintStatus (Client.status_code response)])
      else
        let '(outcome, weather_data) := process_body (Client.body response) in
        (outcome, weather_data, map EvHttp log)
  end.

End Update.

End OpenMeteo.

(** ** Concrete peers and servers for the further properties *)

Module Fixtures.
Import Server ServerSpec.

(** A static root with a page and a directory whose name has a dot. *)
Definition site_with_dir (path : str) : option file :=
  if bool_decide (path = B "./html/index.html")
  then Some (File (B "<html></html>"))
  else if bool_decide (path = B "./html/v1.2") then Some Dir
  else None.

(** A server with two after-hooks and an error hook, and a route whose
    handler raises the typed 404. *)
Definition guarded : @HttpServer bytes :=
  {| routes := <[B "/data" := (answers (Raise (HttpError 404 (B "File Not Found"))),
                               [B "GET"])]> ∅;
     _before_hooks := []; _after_hooks := [seen; seen];
     _error_hooks := [fun _ _ _ => None];
     _connections := ∅; max_connections := 10 |}.

(** A before-hook that turns every request into an OPTIONS request and
    raises. *)
Definition force_options : @before_hook bytes := fun r =>
  ({| method := B "OPTIONS"; url := url r; headers := headers r;
      args := args r; json := json r |}, Some (Exception (B "hook"))).

Definition with_before (hooks : list (@before_hook bytes)) : @HttpServer bytes :=
  {| routes := ∅; _before_hooks := hooks; _after_hooks := [seen];
     _error_hooks := []; _connections := ∅; max_connections := 10 |}.

(** The state of a task that has read the head of a POST announcing
    [length_] body bytes, with [data] still unread. *)
Definition awaiting_body (length_ : str) (data : bytes) : @st bytes :=
  {| input := data;
     request := {| method := B "POST"; url := B "/api";
                   headers := <[B "Content-Length" := length_]> ∅;
                   args := ∅; json := None |};
     status_code := 200; log := [] |}.

End Fixtures.

(** ** Facts about the string and integer builtins *)

Module PyFacts.
Import ClientSpec.

Lemma startswith_app sep a b :
  Py.startswith sep a = true → Py.startswith sep (a ++ b) = true.
Proof.
  revert a. induction sep as [|x sep IH]; intros [|y a]; simpl; auto; try discriminate.
  intros [-> H]%andb_prop. rewrite (IH _ H). now rewrite andb_true_r.
Qed.

Lemma startswith_length sep a :
  Py.startswith sep a = true → (length sep ≤ length a)%nat.
Proof.
  revert a. induction sep as [|x sep IH]; intros [|y a]; simpl; try lia; try discriminate.
  intros [_ H]%andb_prop. apply IH in H. lia.
Qed.

Lemma startswith_false_app sep a b :
  Py.startswith sep a = false → (length sep ≤ length a)%nat →
  Py.startswith sep (a ++ b) = false.
Proof.
  revert a. induction sep as [|x sep IH]; intros [|y a]; simpl; try lia; try discriminate.
  intros H Hl. destruct (bool_decide (x = y)); simpl in *; auto. apply IH; auto. lia.
Qed.

Lemma find_bound sep a p :
  Py.find sep a = Some p → (p + length sep ≤ length a)%nat.
Proof.
  revert p. induction a as [|y a IH]; intros p; simpl.
  - destruct (Py.startswith sep []) eqn:E; [|discriminate].
    intros [= <-]. apply startswith_length in E. simpl in *. lia.
  - destruct (Py.startswith sep (y :: a)) eqn:E.
    + intros [= <-]. apply startswith_length in E. simpl in *. lia.
    + destruct (Py.find sep a) as [q|]; [|discriminate].
      intros [= <-]. specialize (IH q eq_refl). lia.
Qed.

Lemma find_app_l sep a b p :
  Py.find sep a = Some p → Py.find sep (a ++ b) = Some p.
Proof.
  revert p. induction a as [|y a IH]; intros p.
  - simpl. destruct (Py.startswith sep []) eqn:E; [|discriminate].
    intros [= <-]. destruct sep; [|discriminate]. now destruct b.
  - intros H. pose proof (find_bound _ _ _ H) as Hb. simpl in H |- *.
    destruct (Py.startswith sep (y :: a)) eqn:E.
    + apply (startswith_app _ _ b) in E. simpl in E. now rewrite E.
    + destruct (Py.find sep a) as [q|] eqn:F; [|discriminate].
      injection H as <-.
      change (y :: a ++ b) with ((y :: a) ++ b).
      rewrite (startswith_false_app _ _ b E) by (simpl in *; lia).
      now rewrite (IH q eq_refl).
Qed.

(** The first CRLF of [line ++ CRLF ++ rest] when [line] holds no CR. *)
Lemma find_crlf_line line rest :
  CR ∉ line → Py.find CRLF (line ++ CRLF ++ rest) = Some (length line).
Proof.
  induction line as [|b line IH]; intros Hcr; [reflexivity|].
  apply not_elem_of_cons in Hcr as [Hb Hl].
  cbn [app length Py.find]. unfold CRLF at 1. cbn [Py.startswith].
  rewrite bool_decide_eq_false_2 by congruence. simpl andb. cbv iota.
  now rewrite (IH Hl).
Qed.

(** A buffer that is a prefix of [line ++ CRLF ++ rest] and already holds a
    CRLF splits at the end of [line]. *)
Lemma split_line buffer tl line rest :
  CR ∉ line → Py.contains CRLF buffer = true →
  buffer ++ tl = line ++ CRLF ++ rest →
  ∃ p, Py.find CRLF buffer = Some p ∧ take p buffer = line ∧
       drop (p + 2) buffer ++ tl = rest.
Proof.
  intros Hcr Hc Heq. unfold Py.contains in Hc.
  destruct (Py.find CRLF buffer) as [p|] eqn:F; [|discriminate].
  pose proof (find_bound _ _ _ F) as Hb. simpl in Hb.
  pose proof (find_app_l _ _ tl _ F) as F'.
  rewrite Heq, find_crlf_line in F' by done. injection F' as <-.
  exists (length line). split; [done|]. split.
  - rewrite <- (take_app_le _ tl) by lia. rewrite Heq. apply take_app_length.
  - rewrite <- drop_app_le by lia. rewrite Heq.
    rewrite drop_app_ge, drop_app_ge by (simpl; lia).
    replace (length line + 2 - length line - length CRLF)%nat with 0%nat by (simpl; lia).
    reflexivity.
Qed.

(** *** Hexadecimal sizes *)

Lemma hexdigit_val b :
  hexdigit b → ∃ d, (d < 16)%nat ∧ Py.digit_val b = Some (Z.of_nat d) ∧
                    Py.isspace b = false ∧ b ≠ CR ∧
                    b ≠ x2d ∧ b ≠ x2b ∧ b ≠ x78 ∧ b ≠ x58.
Proof.
  intros (d & Hd & ->). exists d. split; [done|].
  do 16 (destruct d as [|d]; [vm_compute; repeat split; congruence|]).
  exfalso; lia.
Qed.

Lemma digits_fuel_hexdigit fuel n :
  Forall hexdigit (Py.digits_fuel fuel 16 n).
Proof.
  revert n. induction fuel as [|fuel IH]; intros n; cbn [Py.digits_fuel]; [constructor|].
  apply Forall_app. split.
  - destruct (n / 16 =? 0)%nat; [constructor|apply IH].
  - constructor; [|constructor]. exists (n mod 16)%nat. split; [|done].
    apply Nat.mod_upper_bound. lia.
Qed.

Lemma parse_digits_snoc base acc ds b :
  Py.parse_digits base acc (ds ++ [b]) =
  v ← Py.parse_digits base acc ds; Py.parse_digits base v [b].
Proof.
  revert acc. induction ds as [|d ds IH]; intros acc; [reflexivity|].
  simpl. destruct (Py.digit_val d) as [v|]; [|reflexivity].
  destruct (v <? base); [apply IH|reflexivity].
Qed.

Lemma digit_val_digit_char d :
  (d < 16)%nat → Py.digit_val (Py.digit_char d) = Some (Z.of_nat d).
Proof.
  intros Hd. do 16 (destruct d as [|d]; [reflexivity|]). exfalso; lia.
Qed.

Lemma parse_digits_fuel fuel : ∀ n,
  (n < fuel)%nat →
  Py.parse_digits 16 0 (Py.digits_fuel fuel 16 n) = Some (Z.of_nat n).
Proof.
  induction fuel as [|fuel IH]; intros n Hn; [lia|].
  cbn [Py.digits_fuel]. rewrite parse_digits_snoc.
  assert (n mod 16 < 16)%nat as Hm by (apply Nat.mod_upper_bound; lia).
  pose proof (digit_val_digit_char _ Hm) as Hv.
  pose proof (Nat.div_mod_eq n 16) as Hdm.
  destruct (Nat.eqb_spec (n / 16) 0) as [Hz|Hz].
  - cbn [app Py.parse_digits mbind option_bind]. rewrite Hv.
    destruct (Z.ltb_spec (Z.of_nat (n mod 16)) 16); [|lia]. f_equal. lia.
  - rewrite IH.
    + cbn [app Py.parse_digits mbind option_bind]. rewrite Hv.
      destruct (Z.ltb_spec (Z.of_nat (n mod 16)) 16); [|lia]. f_equal. lia.
    + assert (n / 16 < n)%nat by (apply Nat.div_lt; lia). lia.
Qed.

Lemma lstrip_head b s : Py.isspace b = false → Py.lstrip (b :: s) = b :: s.
Proof. intros H. simpl. now rewrite H. Qed.

Lemma strip_hexdigits s : Forall hexdigit s → Py.strip s = s.
Proof.
  intros Hs. unfold Py.strip, Py.rstrip.
  assert (Hl : ∀ t, Forall hexdigit t → Py.lstrip t = t).
  { intros [|b t] Ht; [reflexivity|]. apply lstrip_head.
    apply Forall_cons in Ht as [Hb _]. now destruct (hexdigit_val _ Hb) as (? & ? & ? & ? & _). }
  rewrite (Hl s Hs), Hl; [apply rev_involutive|].
  now apply Forall_rev.
Qed.

Lemma int_of_hex n : Py.int_of 16 (Py.hex n) = Some (Z.of_nat n).
Proof.
  unfold Py.int_of, Py.hex, Py.digits.
  pose proof (digits_fuel_hexdigit (S n) n) as Hh.
  pose proof (parse_digits_fuel (S n) n ltac:(lia)) as Hp.
  rewrite strip_hexdigits by done.
  destruct (Py.digits_fuel (S n) 16 n) as [|b0 s] eqn:E.
  { cbn [Py.digits_fuel] in E. apply app_eq_nil in E as [_ E]. discriminate. }
  apply Forall_cons in Hh as [Hb0 Hs].
  destruct (hexdigit_val _ Hb0) as (_ & _ & _ & _ & _ & Hm & Hp' & _).
  rewrite !bool_decide_eq_false_2 by done.
  assert (Py.strip_radix_prefix 16 (b0 :: s) = b0 :: s) as ->.
  { destruct s as [|b1 s]; [reflexivity|]. simpl.
    apply Forall_cons in Hs as [Hb1 _].
    destruct (hexdigit_val _ Hb1) as (_ & _ & _ & _ & _ & _ & _ & Hx & HX).
    rewrite (bool_decide_eq_false_2 (b1 = x78)), (bool_decide_eq_false_2 (b1 = x58)) by done.
    now rewrite andb_false_r. }
  now rewrite Hp.
Qed.

Lemma py_int_hex n : py_int 16 (Py.hex n) = Ok (Z.of_nat n).
Proof. unfold py_int. now rewrite int_of_hex. Qed.

Lemma hex_no_cr n : CR ∉ Py.hex n.
Proof.
  intros Hin. pose proof (digits_fuel_hexdigit (S n) n) as Hh.
  rewrite Forall_forall in Hh. apply Hh in Hin.
  now destruct (hexdigit_val _ Hin) as (_ & _ & _ & _ & Hcr & _).
Qed.

(** *** UTF-8 *)

Lemma utf8_scan_done lo hi lo' hi' p :
  Py.utf8_scan 0 lo hi p = Py.utf8_scan 0 lo' hi' p.
Proof. destruct p; reflexivity. Qed.

Lemma utf8_scan_app q : ∀ p need lo hi,
  Py.utf8_scan need lo hi p = true → Py.utf8_valid q = true →
  Py.utf8_scan need lo hi (p ++ q) = true.
Proof.
  induction p as [|b p IH]; intros need lo hi Hp Hq.
  - simpl in *. apply bool_decide_eq_true in Hp as ->.
    now rewrite (utf8_scan_done lo hi 128 191).
  - cbn [app Py.utf8_scan] in *.
    destruct need;
      repeat match type of Hp with
             | (if ?c then _ else _) = true => destruct c
             end; try discriminate; now apply IH.
Qed.

Lemma utf8_valid_app p q :
  Py.utf8_valid p = true → Py.utf8_valid q = true → Py.utf8_valid (p ++ q) = true.
Proof. apply utf8_scan_app. Qed.

Lemma utf8_valid_zeros n : Py.utf8_valid (Py.zeros n) = true.
Proof. induction n; [reflexivity|exact IHn]. Qed.

(** Bytes that are not UTF-8 are not made UTF-8 by NUL bytes after them. *)
Lemma utf8_scan_zeros n : ∀ p need lo hi,
  (0 < lo)%N → (0 < n)%nat →
  Py.utf8_scan need lo hi p = false →
  Py.utf8_scan need lo hi (p ++ Py.zeros n) = false.
Proof.
  induction p as [|b p IH]; intros need lo hi Hlo Hn Hp.
  - destruct n as [|n]; [lia|]. destruct need as [|need]; [discriminate|].
    cbn [app Py.zeros repeat Py.utf8_scan].
    change (Byte.to_N NUL) with 0%N.
    destruct (N.leb_spec lo 0); [lia|reflexivity].
  - cbn [app Py.utf8_scan] in *.
    destruct need;
      repeat match type of Hp with
             | (if ?c then _ else _) = false => destruct c
             end; try reflexivity; now apply IH.
Qed.

Lemma utf8_invalid_padded p n :
  (0 < n)%nat → Py.utf8_valid p = false → Py.utf8_valid (p ++ Py.zeros n) = false.
Proof. intros Hn. now apply utf8_scan_zeros. Qed.

End PyFacts.

(** ** Facts about the client transport *)

Module StreamFacts.
Import Client ClientSpec.

Lemma skip_empty_concat l : concat (skip_empty l) = concat l.
Proof. induction l as [|[|b seg] l IH]; simpl; auto. Qed.

Lemma skip_empty_head l seg rest : skip_empty l = seg :: rest → seg ≠ [].
Proof.
  induction l as [|[|b seg'] l IH]; simpl; intros H; try discriminate; auto.
  injection H as <- _. discriminate.
Qed.

Lemma read_data n s :
  pending s ≠ [] → (0 < n)%nat →
  ∃ chunk s', read n s = Ok (chunk, s') ∧ chunk ≠ [] ∧
              (length chunk ≤ n)%nat ∧ chunk ++ pending s' = pending s ∧
              at_end s' = at_end s.
Proof.
  intros Hp Hn. unfold read, pending in *.
  rewrite <- skip_empty_concat in Hp |- *.
  destruct (skip_empty (segs s)) as [|seg rest] eqn:E; [done|].
  apply skip_empty_head in E.
  eexists _, _. split; [reflexivity|]. simpl. repeat split.
  - destruct seg; [done|]. destruct n; [lia|]. discriminate.
  - rewrite length_take. lia.
  - destruct (Nat.leb_spec (length seg) n).
    + now rewrite take_ge by lia.
    + simpl. now rewrite app_assoc, take_drop.
Qed.

Lemma read_eof n s :
  pending s = [] → at_end s = None →
  ∃ s', read n s = Ok ([], s') ∧ pending s' = [] ∧ at_end s' = None.
Proof.
  intros Hp He. unfold read, pending in *.
  rewrite <- skip_empty_concat in Hp.
  destruct (skip_empty (segs s)) as [|seg rest] eqn:E.
  - rewrite He. eauto.
  - apply skip_empty_head in E. destruct seg; [done|discriminate].
Qed.

Lemma read_empty_inv n s s' :
  read n s = Ok ([], s') → (0 < n)%nat → pending s = [].
Proof.
  intros H Hn. destruct (decide (pending s = [])) as [|Hp]; [done|].
  destruct (read_data n s Hp Hn) as (c & s'' & Hr & Hc & _). congruence.
Qed.

End StreamFacts.

(** ** The fixed-length and bounded strategies *)

Module BodyFacts.
Import Client ClientSpec StreamFacts.

Lemma zeros_length n : length (Py.zeros n) = n.
Proof. apply repeat_length. Qed.

Lemma drop_zeros k n : drop k (Py.zeros n) = Py.zeros (n - k).
Proof.
  unfold Py.zeros. revert k. induction n; intros [|k]; simpl; auto.
Qed.

(** Writing [chunk] at [idx] into a buffer that holds [got] followed by
    zero padding. *)
Lemma slice_assign_padded (got chunk : bytes) N :
  (length got + length chunk ≤ N)%nat →
  Py.slice_assign (length got) (length got + length chunk) chunk
    (got ++ Py.zeros (N - length got))
  = (got ++ chunk) ++ Py.zeros (N - length (got ++ chunk)).
Proof.
  intros H. unfold Py.slice_assign.
  rewrite take_app_length, Nat.max_r by lia.
  rewrite drop_app_ge by lia.
  rewrite drop_zeros, length_app, <- app_assoc.
  do 3 f_equal. lia.
Qed.

Lemma fill_fixed_spec N : ∀ fuel got s,
  (length got ≤ N)%nat → (N - length got < fuel)%nat →
  (N ≤ length (got ++ pending s))%nat ∨ at_end s = None →
  fill_fixed fuel N (got ++ Py.zeros (N - length got)) (length got) s
  = Ok (take N (got ++ pending s) ++ Py.zeros (N - length (got ++ pending s))).
Proof.
  induction fuel as [|fuel IH]; intros got s Hl Hf He; [lia|].
  simpl. destruct (Nat.ltb_spec (length got) N) as [Hlt|Hge].
  - destruct (decide (pending s = [])) as [Hp|Hp].
    + destruct He as [He|He]; [rewrite Hp, app_nil_r in He; lia|].
      destruct (read_eof (N - length got) s Hp He) as (s' & -> & _).
      simpl. rewrite Hp, app_nil_r, take_ge by lia. reflexivity.
    + destruct (read_data (N - length got) s Hp) as (c & s' & -> & Hc & Hn & Hcat & Hend);
        [lia|].
      simpl. destruct c as [|b c]; [done|].
      rewrite slice_assign_padded by lia.
      rewrite <- length_app. rewrite IH.
      * rewrite <- Hcat. now rewrite <- !app_assoc.
      * rewrite length_app. lia.
      * rewrite length_app. simpl in *. lia.
      * rewrite <- app_assoc, Hcat, Hend. exact He.
  - assert (length got = N) as HN by lia.
    rewrite take_app_le, take_ge by lia.
    rewrite length_app.
    replace (N - length got)%nat with 0%nat by lia.
    replace (N - (length got + length (pending s)))%nat with 0%nat by lia.
    reflexivity.
Qed.

Lemma body_fixed_spec fuel cl N remaining s :
  py_int 10 cl = Ok (Z.of_nat N) →
  (length remaining ≤ N)%nat → (N < fuel)%nat →
  (N ≤ length (remaining ++ pending s))%nat ∨ at_end s = None →
  body_fixed fuel cl remaining s
  = decode (take N (remaining ++ pending s)
            ++ Py.zeros (N - length (remaining ++ pending s))).
Proof.
  intros Hcl Hl Hf He. unfold body_fixed. rewrite Hcl. simpl.
  unfold bytearray. destruct (Z.ltb_spec (Z.of_nat N) 0); [lia|]. simpl.
  rewrite Nat2Z.id.
  pose proof (fill_fixed_spec N fuel remaining s Hl ltac:(lia) He) as Hs.
  destruct remaining as [|b r].
  - simpl in *. rewrite Nat.sub_0_r in Hs. rewrite Hs. reflexivity.
  - replace (Py.slice_assign 0 (length (b :: r)) (b :: r) (Py.zeros N))
      with ((b :: r) ++ Py.zeros (N - length (b :: r))).
    + rewrite Hs. reflexivity.
    + unfold Py.slice_assign. rewrite take_0, Nat.max_r by lia.
      now rewrite drop_zeros.
Qed.

(** When more bytes were read past the delimiter than the header declares,
    the seeding assignment replaces the whole buffer by them. *)
Lemma body_fixed_overlong fuel cl N remaining s :
  py_int 10 cl = Ok (Z.of_nat N) →
  (N < length remaining)%nat →
  body_fixed fuel cl remaining s = decode remaining.
Proof.
  intros Hcl Hl. unfold body_fixed. rewrite Hcl. simpl.
  unfold bytearray. destruct (Z.ltb_spec (Z.of_nat N) 0); [lia|]. simpl.
  rewrite Nat2Z.id.
  destruct remaining as [|b r]; [simpl in Hl; lia|].
  unfold Py.slice_assign. rewrite take_0, Nat.max_r by lia.
  rewrite drop_ge by (rewrite zeros_length; lia).
  rewrite app_nil_r. simpl app.
  simpl in Hl.
  destruct fuel; simpl; destruct (Nat.ltb_spec (S (length r)) N); try lia; reflexivity.
Qed.

Lemma fill_fallback_ok F : ∀ fuel got s,
  (length (got ++ pending s) ≤ F)%nat → at_end s = None →
  (length (pending s) < fuel)%nat →
  fill_fallback fuel F (got ++ Py.zeros (F - length got)) (length got) s
  = Ok ((got ++ pending s) ++ Py.zeros (F - length (got ++ pending s)),
        length (got ++ pending s)).
Proof.
  induction fuel as [|fuel IH]; intros got s Hl He Hf; [lia|].
  simpl. destruct (decide (pending s = [])) as [Hp|Hp].
  - destruct (read_eof READ_SIZE s Hp He) as (s' & -> & _).
    simpl. now rewrite Hp, app_nil_r.
  - destruct (read_data READ_SIZE s Hp) as (c & s' & -> & Hc & Hn & Hcat & Hend);
      [unfold READ_SIZE; lia|].
    simpl. destruct c as [|b c]; [done|].
    rewrite <- Hcat in Hl, Hf. rewrite !length_app in Hl. rewrite length_app in Hf.
    destruct (Nat.ltb_spec F (length got + length (b :: c))); [lia|].
    rewrite slice_assign_padded by lia.
    rewrite <- length_app, IH.
    + rewrite <- Hcat. now rewrite <- !app_assoc.
    + rewrite !length_app. lia.
    + congruence.
    + simpl in Hf. lia.
Qed.

Lemma fill_fallback_too_large F : ∀ fuel got s,
  (length got ≤ F)%nat → (F < length (got ++ pending s))%nat →
  (length (pending s) ≤ fuel)%nat →
  fill_fallback fuel F (got ++ Py.zeros (F - length got)) (length got) s
  = Raise (ValueError (B "Body too large")).
Proof.
  induction fuel as [|fuel IH]; intros got s Hg Hl Hf.
  - rewrite length_app in Hl. lia.
  - simpl. destruct (decide (pending s = [])) as [Hp|Hp].
    { rewrite Hp, app_nil_r in Hl. lia. }
    destruct (read_data READ_SIZE s Hp) as (c & s' & -> & Hc & Hn & Hcat & Hend);
      [unfold READ_SIZE; lia|].
    simpl. destruct c as [|b c]; [done|].
    destruct (Nat.ltb_spec F (length got + length (b :: c))); [reflexivity|].
    rewrite slice_assign_padded by lia.
    rewrite <- length_app. apply IH.
    + rewrite length_app. lia.
    + now rewrite <- app_assoc, Hcat.
    + rewrite <- Hcat, length_app in Hf. simpl in *. lia.
Qed.

Lemma fill_fallback_inv F : ∀ fuel got s body idx,
  (length got ≤ F)%nat →
  fill_fallback fuel F (got ++ Py.zeros (F - length got)) (length got) s
  = Ok (body, idx) →
  take idx body = got ++ pending s.
Proof.
  induction fuel as [|fuel IH]; intros got s body idx Hg; [discriminate|].
  simpl. destruct (read READ_SIZE s) as [[c s']| |] eqn:Hr; try discriminate.
  simpl. destruct c as [|b c].
  - intros [= <- <-]. apply read_empty_inv in Hr; [|unfold READ_SIZE; lia].
    now rewrite Hr, app_nil_r, take_app_length.
  - destruct (Nat.ltb_spec F (length got + length (b :: c))); [discriminate|].
    assert (pending s ≠ []) as Hp.
    { intros Hp. unfold read, pending in *. rewrite <- skip_empty_concat in Hp.
      destruct (skip_empty (segs s)) as [|seg rest] eqn:E.
      - destruct (at_end s); discriminate.
      - apply skip_empty_head in E. destruct seg; [done|discriminate]. }
    destruct (read_data READ_SIZE s Hp) as (c' & s'' & Hr' & _ & _ & Hcat & _);
      [unfold READ_SIZE; lia|].
    rewrite Hr in Hr'. injection Hr' as <- <-.
    rewrite slice_assign_padded by lia.
    rewrite <- length_app. intros Hi%IH.
    + now rewrite Hi, <- app_assoc, Hcat.
    + rewrite length_app. lia.
Qed.

End BodyFacts.

(** ** The chunked strategy *)

Module ChunkedFacts.
Import Client ClientSpec StreamFacts BodyFacts PyFacts.

Lemma contains_app_l sep a b :
  Py.contains sep a = true → Py.contains sep (a ++ b) = true.
Proof.
  unfold Py.contains. destruct (Py.find sep a) eqn:F; [|discriminate].
  now rewrite (find_app_l _ _ b _ F).
Qed.

Lemma fill_line_spec : ∀ fuel buffer s,
  Py.contains CRLF (buffer ++ pending s) = true →
  (length (pending s) ≤ fuel)%nat →
  ∃ buffer' s',
    fill_line fuel buffer s = Ok (buffer', s') ∧
    buffer' ++ pending s' = buffer ++ pending s ∧
    Py.contains CRLF buffer' = true ∧
    (length (pending s') ≤ length (pending s))%nat.
Proof.
  induction fuel as [|fuel IH]; intros buffer s Hc Hf.
  - assert (pending s = []) as Hp by (destruct (pending s); [done|simpl in Hf; lia]).
    rewrite Hp, app_nil_r in Hc. simpl. rewrite Hc.
    exists buffer, s. now rewrite Hp.
  - simpl. destruct (Py.contains CRLF buffer) eqn:E.
    { exists buffer, s. auto. }
    destruct (decide (pending s = [])) as [Hp|Hp].
    { rewrite Hp, app_nil_r in Hc. congruence. }
    destruct (read_data 64 s Hp) as (c & s' & -> & Hne & Hn & Hcat & Hend); [lia|].
    simpl.
    assert (0 < length c)%nat by (destruct c; [done|simpl; lia]).
    assert (length (pending s) = length c + length (pending s'))%nat as Hlen
      by now rewrite <- Hcat, length_app.
    destruct (IH (buffer ++ c) s') as (b' & s'' & -> & Hcat' & Hc' & Hl').
    + now rewrite <- app_assoc, Hcat.
    + lia.
    + exists b', s''. rewrite Hcat', <- app_assoc, Hcat. repeat split; auto. lia.
Qed.

Lemma fill_size_spec (need : nat) : ∀ fuel buffer s,
  (need ≤ length (buffer ++ pending s))%nat →
  (length (pending s) ≤ fuel)%nat →
  ∃ buffer' s',
    fill_size fuel (Z.of_nat need) buffer s = Ok (buffer', s') ∧
    buffer' ++ pending s' = buffer ++ pending s ∧
    (need ≤ length buffer')%nat ∧
    (length (pending s') ≤ length (pending s))%nat.
Proof.
  induction fuel as [|fuel IH]; intros buffer s Hc Hf.
  - assert (pending s = []) as Hp by (destruct (pending s); [done|simpl in Hf; lia]).
    rewrite Hp, app_nil_r in Hc. simpl.
    destruct (Z.ltb_spec (Z.of_nat (length buffer)) (Z.of_nat need)); [lia|].
    exists buffer, s. now rewrite Hp.
  - simpl. destruct (Z.ltb_spec (Z.of_nat (length buffer)) (Z.of_nat need)).
    2:{ exists buffer, s. repeat split; auto. lia. }
    rewrite length_app in Hc.
    destruct (decide (pending s = [])) as [Hp|Hp].
    { rewrite Hp in Hc. simpl in Hc. lia. }
    destruct (read_data (Z.to_nat (Z.of_nat need - Z.of_nat (length buffer))) s Hp)
      as (c & s' & -> & Hne & Hn & Hcat & Hend); [lia|].
    simpl.
    assert (0 < length c)%nat by (destruct c; [done|simpl; lia]).
    assert (length (pending s) = length c + length (pending s'))%nat as Hlen
      by (rewrite <- Hcat; rewrite length_app; reflexivity).
    destruct (IH (buffer ++ c) s') as (b' & s'' & -> & Hcat' & Hc' & Hl').
    + rewrite !length_app. lia.
    + lia.
    + exists b', s''. rewrite Hcat', <- app_assoc, Hcat. repeat split; auto. lia.
Qed.

Lemma encode_chunked_cons c chunks :
  encode_chunked (c :: chunks) =
  Py.hex (length c) ++ CRLF ++ (c ++ CRLF ++ encode_chunked chunks).
Proof.
  unfold encode_chunked, encode_chunk. cbn [map concat]. now rewrite <- !app_assoc.
Qed.

Lemma read_chunks_spec fuel0 : ∀ chunks fuel body_parts buffer s,
  Forall (λ c, c ≠ []) chunks →
  buffer ++ pending s = encode_chunked chunks →
  (length (pending s) ≤ fuel0)%nat →
  (length chunks < fuel)%nat →
  read_chunks fuel0 fuel body_parts buffer s = Ok (body_parts ++ chunks).
Proof.
  induction chunks as [|c chunks IH]; intros fuel parts buffer s Hne Heq Hf0 Hf;
    (destruct fuel as [|fuel]; [simpl in Hf; lia|]); cbn [read_chunks].
  - change (encode_chunked []) with (B "0" ++ CRLF ++ CRLF) in Heq.
    destruct (fill_line_spec fuel0 buffer s) as (b' & s' & -> & Hcat & Hc & Hl);
      [now rewrite Heq|done|].
    rewrite Heq in Hcat. cbn [mbind result_bind].
    destruct (split_line b' (pending s') (B "0") CRLF) as (p & -> & Hline & _);
      [change (B "0") with [x30];
       apply not_elem_of_cons; split; [discriminate|apply not_elem_of_nil]
      |done|done|].
    cbn [default from_option id]. rewrite Hline.
    now rewrite app_nil_r.
  - apply Forall_cons in Hne as [Hc0 Hne].
    rewrite encode_chunked_cons in Heq.
    destruct (fill_line_spec fuel0 buffer s) as (b' & s' & -> & Hcat & Hc & Hl).
    { rewrite Heq. unfold Py.contains.
      now rewrite find_crlf_line by apply hex_no_cr. }
    { done. }
    rewrite Heq in Hcat. cbn [mbind result_bind].
    destruct (split_line b' (pending s') _ _ (hex_no_cr _) Hc Hcat)
      as (p & -> & Hline & Hrest).
    cbn [default from_option id]. rewrite Hline, py_int_hex.
    cbn [mbind result_bind].
    destruct (Z.eqb_spec (Z.of_nat (length c)) 0) as [Hz|Hz].
    { destruct c; [done|simpl in Hz; lia]. }
    replace (Z.of_nat (length c) + 2) with (Z.of_nat (length c + 2)) by lia.
    destruct (fill_size_spec (length c + 2) fuel0 (drop (p + 2) b') s')
      as (b'' & s'' & -> & Hcat' & Hlen & Hl').
    { rewrite Hrest, !length_app. simpl. lia. }
    { lia. }
    cbn [mbind result_bind]. rewrite Hrest in Hcat'.
    unfold Py.slice_to, Py.slice_from.
    destruct (Z.ltb_spec (Z.of_nat (length c)) 0); [lia|].
    destruct (Z.ltb_spec (Z.of_nat (length c + 2)) 0); [lia|].
    rewrite !Nat2Z.id.
    assert (take (length c) b'' = c) as ->.
    { rewrite <- (take_app_le _ (pending s'')) by lia.
      rewrite Hcat'. apply take_app_length. }
    rewrite IH; [now rewrite <- app_assoc|done| |lia|simpl in Hf; lia].
    rewrite <- drop_app_le by lia. rewrite Hcat'.
    rewrite drop_app_ge by lia.
    replace (length c + 2 - length c)%nat with 2%nat by lia.
    reflexivity.
Qed.

Lemma encode_chunked_length chunks :
  (length chunks < length (encode_chunked chunks))%nat.
Proof.
  induction chunks as [|c chunks IH]; [vm_compute; lia|].
  rewrite encode_chunked_cons, !length_app. simpl. lia.
Qed.

Lemma body_chunked_spec fuel chunks remaining s :
  Forall (λ c, c ≠ []) chunks →
  remaining ++ pending s = encode_chunked chunks →
  (length (encode_chunked chunks) ≤ fuel)%nat →
  body_chunked fuel remaining s = decode (concat chunks).
Proof.
  intros Hne Heq Hf. unfold body_chunked.
  pose proof (encode_chunked_length chunks).
  rewrite (read_chunks_spec fuel chunks fuel [] remaining s); auto; [|lia].
  rewrite <- Heq, length_app in Hf. lia.
Qed.

End ChunkedFacts.

(** ** The client claims *)

Module ClientClaims.
Import Client ClientSpec StreamFacts BodyFacts PyFacts ChunkedFacts.

(** *** The retry loop *)

Lemma wait_for_ms_not_spin {A} (r : result A) : wait_for_ms r ≠ Spin.
Proof. destruct r; discriminate. Qed.

Lemma retry_loop_spec (att : nat → result HttpResponse) (retries : Z) :
  ∀ n i, (0 < n)%nat → Z.of_nat i + Z.of_nat n = retries →
  ∃ resp errs last,
    Z.of_nat (i + length errs) < retries ∧
    (∀ j e, errs !! j = Some e → wait_for_ms (att (i + j)%nat) = Raise e) ∧
    ((wait_for_ms (att (i + length errs)%nat) = Ok resp ∧ last = []) ∨
     (∃ e, wait_for_ms (att (i + length errs)%nat) = Raise e ∧
           Z.of_nat (i + length errs) = retries - 1 ∧
           resp = synthetic e ∧ last = [EvPrint e])) ∧
    retry_loop att retries i n =
      (Ok (Some resp), failed_log i errs ++ EvAttempt (i + length errs) :: last).
Proof.
  induction n as [|n IH]; intros i Hn Hr; [lia|].
  simpl. destruct (wait_for_ms (att i)) as [r|e|] eqn:E.
  - exists r, [], []. simpl. rewrite Nat.add_0_r. repeat split; try lia; auto.
    intros j e' H; discriminate.
  - destruct (Z.eqb_spec (Z.of_nat i) (retries - 1)) as [Hl|Hl].
    + exists (synthetic e), [], [EvPrint e]. simpl. rewrite Nat.add_0_r.
      repeat split; try lia; [intros j e' H; discriminate|].
      right. exists e. auto.
    + destruct (IH (S i)) as (resp & errs & last & Hk & Herr & Hlast & Heq); [lia|lia|].
      exists resp, (e :: errs), last. simpl.
      replace (i + S (length errs))%nat with (S i + length errs)%nat by lia.
      repeat split; auto.
      * intros [|j] e' H; simpl in H.
        -- injection H as <-. now rewrite Nat.add_0_r.
        -- replace (i + S j)%nat with (S i + j)%nat by lia. eauto.
      * rewrite Heq. reflexivity.
  - now apply wait_for_ms_not_spin in E.
Qed.

(** C1.  For every url and every [retries >= 1], [http_client] returns a
    response and never raises: there are [k < retries] failed attempts
    [0 .. k-1], each followed by the 1000 ms backoff, and then either
    attempt [k] succeeds and its response is returned, or [k] is the last
    of the [retries] attempts, it fails too, and the response is the
    synthetic one with status 500 and the message of that last error.
    The log shows exactly these attempts and sleeps. *)
Theorem http_client_never_raises (net : network) (fuel : nat) (url : str)
    (retries : Z) (fallback_buffer_size : option Z) :
  1 ≤ retries →
  ∃ resp errs last,
    let k := length errs in
    let att := attempt net fuel url fallback_buffer_size in
    Z.of_nat k < retries ∧
    (∀ j e, errs !! j = Some e → att j = Raise e) ∧
    ((att k = Ok resp ∧ last = []) ∨
     (∃ e, att k = Raise e ∧ Z.of_nat k = retries - 1 ∧
           resp = synthetic e ∧ last = [EvPrint e])) ∧
    http_client net fuel url retries fallback_buffer_size =
      (Ok (Some resp), failed_log 0 errs ++ EvAttempt k :: last).
Proof.
  intros Hr. unfold http_client, attempt.
  destruct (parse_url url) as [[[use_ssl host] port] path].
  destruct (retry_loop_spec
              (fun i => single_request fuel fallback_buffer_size
                          (net i use_ssl host port (request_bytes host path)))
              retries (Z.to_nat retries) 0)
    as (resp & errs & last & H); [lia|lia|].
  exists resp, errs, last. simpl in *. exact H.
Qed.

(** *** Body strategies *)

Lemma select_chunked headers fb :
  chunked headers = true → select_strategy headers fb = Chunked.
Proof. unfold chunked, select_strategy. now intros ->. Qed.

Lemma select_fixed headers fb N :
  chunked headers = false → declares_length headers N →
  ∃ cl, select_strategy headers fb = FixedLength cl ∧
        py_int 10 cl = Ok (Z.of_nat N).
Proof.
  unfold chunked, select_strategy. intros -> (cl & -> & Hne & Hint).
  exists cl. destruct cl; [done|]. split; [done|].
  unfold py_int. now rewrite Hint.
Qed.

Lemma select_fallback headers F :
  chunked headers = false → headers !! B "content-length" = None → 0 < F →
  select_strategy headers (Some F) = Fallback F.
Proof.
  unfold chunked, select_strategy. intros -> -> HF.
  destruct (Z.eqb_spec F 0); [lia|done].
Qed.

Lemma decode_valid p : Py.utf8_valid p = true → decode p = Ok p.
Proof. unfold decode. now intros ->. Qed.

Lemma decode_invalid p :
  Py.utf8_valid p = false → decode p = Raise (UnicodeError (B "invalid utf-8")).
Proof. unfold decode. now intros ->. Qed.

(** C4 (amended).  For every body, cut by the encoder into any non-empty
    chunks, the chunked reader reads the whole body back, however the
    encoded stream is split between the bytes already read with the header
    block and the later partial reads, and whatever [Content-Length] and
    [fallback_buffer_size] say -- provided the timeout leaves room for one
    read per encoded byte.  A body that is valid UTF-8 is returned; on a
    body that is not, the reader raises the decoding error. *)
Theorem chunked_roundtrip fuel headers fallback_buffer_size chunks remaining s :
  chunked headers = true →
  Forall (λ c, c ≠ []) chunks →
  remaining ++ pending s = encode_chunked chunks →
  (length (encode_chunked chunks) ≤ fuel)%nat →
  let run := read_body fuel headers fallback_buffer_size remaining s in
  (Py.utf8_valid (concat chunks) = true → run = Ok (concat chunks)) ∧
  (Py.utf8_valid (concat chunks) = false →
   run = Raise (UnicodeError (B "invalid utf-8"))).
Proof.
  intros Hc Hne Heq Hf run. unfold run, read_body. rewrite select_chunked by done.
  rewrite (body_chunked_spec fuel chunks) by done.
  split; [apply decode_valid|apply decode_invalid].
Qed.

(** C5 (amended).  For a response with [Content-Length: N], not chunked,
    of which at most [N] body bytes were read with the header block, whose
    stream delivers at least [N] body bytes in any partial reads and whose
    first [N] body bytes are valid UTF-8, the client returns exactly these
    [N] bytes (the timeout leaving room for more than [N] reads). *)
Theorem fixed_length_body fuel headers fallback_buffer_size N remaining s :
  chunked headers = false → declares_length headers N →
  (length remaining ≤ N)%nat →
  (N ≤ length (remaining ++ pending s))%nat →
  (N < fuel)%nat →
  Py.utf8_valid (take N (remaining ++ pending s)) = true →
  ∃ body,
    read_body fuel headers fallback_buffer_size remaining s = Ok body ∧
    body = take N (remaining ++ pending s) ∧ length body = N.
Proof.
  intros Hc Hd Hr Hn Hf Hv. unfold read_body.
  destruct (select_fixed headers fallback_buffer_size N Hc Hd) as (cl & -> & Hcl).
  rewrite (body_fixed_spec fuel cl N) by auto.
  replace (N - length (remaining ++ pending s))%nat with 0%nat by lia.
  rewrite app_nil_r, decode_valid by done.
  eexists. split; [reflexivity|]. split; [reflexivity|].
  rewrite length_take. lia.
Qed.

(** C9 (amended).  When the response declares [Content-Length: N] and the
    stream ends after [k < N] body bytes (the timeout leaving room for more
    than [N] reads): if these bytes are valid UTF-8, the attempt does not
    raise and returns a body of [N] bytes, the bytes received followed by
    [N - k] NUL bytes; if they are not, the attempt fails with the decoding
    error. *)
Theorem truncated_body_zero_padded fuel headers fallback_buffer_size N remaining s :
  chunked headers = false → declares_length headers N →
  at_end s = None →
  (length (remaining ++ pending s) < N)%nat →
  (N < fuel)%nat →
  let received := remaining ++ pending s in
  let run := read_body fuel headers fallback_buffer_size remaining s in
  (Py.utf8_valid received = true →
   ∃ body, run = Ok body ∧ length body = N ∧
           body = received ++ Py.zeros (N - length received)) ∧
  (Py.utf8_valid received = false →
   run = Raise (UnicodeError (B "invalid utf-8"))).
Proof.
  intros Hc Hd He Hk Hf received run. unfold run, read_body.
  destruct (select_fixed headers fallback_buffer_size N Hc Hd) as (cl & -> & Hcl).
  rewrite (body_fixed_spec fuel cl N); auto.
  2:{ rewrite length_app in Hk. lia. }
  rewrite take_ge by lia. fold received. split; intros Hv.
  - rewrite decode_valid by (apply utf8_valid_app; [done|apply utf8_valid_zeros]).
    eexists. split; [reflexivity|]. split; [|reflexivity].
    rewrite length_app, zeros_length. unfold received. lia.
  - apply decode_invalid, utf8_invalid_padded; [unfold received; lia|done].
Qed.

Lemma slice_assign_seed n (remaining : bytes) :
  (length remaining ≤ n)%nat →
  Py.slice_assign 0 (length remaining) remaining (Py.zeros n)
  = remaining ++ Py.zeros (n - length remaining).
Proof.
  intros Hl. unfold Py.slice_assign. rewrite take_0, Nat.max_r by lia.
  now rewrite drop_zeros.
Qed.

Lemma body_fallback_unfold fuel F remaining s :
  0 < F → (length remaining ≤ Z.to_nat F)%nat →
  body_fallback fuel F remaining s =
  '(body, idx) ← fill_fallback fuel (Z.to_nat F)
                   (remaining ++ Py.zeros (Z.to_nat F - length remaining))
                   (length remaining) s;
  decode (take idx body).
Proof.
  intros HF Hl. unfold body_fallback, bytearray.
  destruct (Z.ltb_spec F 0); [lia|]. cbn [mbind result_bind].
  rewrite (slice_assign_seed _ _ Hl).
  destruct (Nat.ltb_spec (Z.to_nat F) (length remaining)); [lia|].
  destruct remaining as [|b r]; [|reflexivity].
  cbn [mbind result_bind length app]. now rewrite Nat.sub_0_r.
Qed.

(** C6 (amended).  With neither chunked framing nor a [Content-Length]
    header and a positive [fallback_buffer_size]: a body within the bound
    that is valid UTF-8 is returned in full; a body within the bound that
    is not valid UTF-8 fails the attempt with the decoding error; a body
    beyond the bound fails the attempt with "Body too large"; and whatever
    the attempt returns is the full body, never a prefix of it.  A supplied
    size of 0 reads as no size supplied, whatever the headers. *)
Theorem fallback_bounded fuel headers F remaining s :
  chunked headers = false → headers !! B "content-length" = None → 0 < F →
  let total := remaining ++ pending s in
  let run := read_body fuel headers (Some F) remaining s in
  (Z.of_nat (length total) ≤ F → at_end s = None →
   (length total < fuel)%nat → Py.utf8_valid total = true →
   run = Ok total) ∧
  (Z.of_nat (length total) ≤ F → at_end s = None →
   (length total < fuel)%nat → Py.utf8_valid total = false →
   run = Raise (UnicodeError (B "invalid utf-8"))) ∧
  (F < Z.of_nat (length total) → (length total ≤ fuel)%nat →
   run = Raise (ValueError (B "Body too large"))) ∧
  (∀ body, run = Ok body → body = total) ∧
  (∀ headers', read_body fuel headers' (Some 0) remaining s
               = read_body fuel headers' None remaining s).
Proof.
  intros Hc Hn HF total run.
  assert (∀ headers', read_body fuel headers' (Some 0) remaining s
                      = read_body fuel headers' None remaining s) as Hzero
    by reflexivity.
  unfold run, read_body.
  rewrite select_fallback by done. subst total.
  assert (Z.of_nat (length (remaining ++ pending s)) ≤ F → at_end s = None →
          (length (remaining ++ pending s) < fuel)%nat →
          body_fallback fuel F remaining s = decode (remaining ++ pending s))
    as Hwithin.
  { intros Hl He Hf. rewrite length_app in Hl, Hf.
    rewrite body_fallback_unfold by (try done; lia).
    rewrite fill_fallback_ok; [|rewrite length_app; lia|done|lia].
    cbn [mbind result_bind]. now rewrite take_app_length. }
  split; [|split; [|split; [|split; [|exact Hzero]]]].
  - intros Hl He Hf Hv. rewrite Hwithin by done. now apply decode_valid.
  - intros Hl He Hf Hv. rewrite Hwithin by done. now apply decode_invalid.
  - intros Hl Hf. rewrite length_app in Hl, Hf.
    destruct (Nat.leb_spec (length remaining) (Z.to_nat F)) as [Hr|Hr].
    + rewrite body_fallback_unfold by done.
      rewrite fill_fallback_too_large; [done|done|rewrite length_app; lia|lia].
    + unfold body_fallback, bytearray.
      destruct (Z.ltb_spec F 0); [lia|]. cbn [mbind result_bind].
      destruct remaining as [|b r]; [simpl in Hr; lia|].
      destruct (Nat.ltb_spec (Z.to_nat F) (length (b :: r))); [done|lia].
  - intros body.
    destruct (Nat.leb_spec (length remaining) (Z.to_nat F)) as [Hr|Hr].
    + rewrite body_fallback_unfold by done.
      destruct (fill_fallback _ _ _ _ _) as [[b idx]| |] eqn:E; try discriminate.
      apply fill_fallback_inv in E; [|done].
      cbn [mbind result_bind]. rewrite E. unfold decode.
      destruct (Py.utf8_valid _); [|discriminate]. now intros [= <-].
    + unfold body_fallback, bytearray.
      destruct (Z.ltb_spec F 0); [lia|]. cbn [mbind result_bind].
      destruct remaining as [|b r]; [simpl in Hr; lia|].
      destruct (Nat.ltb_spec (Z.to_nat F) (length (b :: r))); [discriminate|lia].
Qed.

(** *** Header names *)

Lemma add_header_case (h : gmap str str) (l l' : str) :
  same_header_line l l' → add_header h l = add_header h l'.
Proof.
  unfold same_header_line, add_header.
  destruct (Py.split_once (B ":") l) as [[k v]|],
           (Py.split_once (B ":") l') as [[k' v']|]; try done.
  now intros [-> ->].
Qed.

Lemma foldl_add_header_case (ls ls' : list str) :
  Forall2 same_header_line ls ls' →
  ∀ h, foldl add_header h ls = foldl add_header h ls'.
Proof.
  induction 1 as [|l l' ls ls' Hl _ IH]; intros h; [done|].
  simpl. rewrite (add_header_case h l l' Hl). apply IH.
Qed.

(** The client side of C3: header lines that differ only in the case of
    their names give the same header map, hence the same strategy. *)
Lemma client_headers_case_insensitive (l0 l0' : str) (ls ls' : list str)
    (fallback_buffer_size : option Z) :
  Forall2 same_header_line ls ls' →
  parse_headers (l0 :: ls) = parse_headers (l0' :: ls') ∧
  select_strategy (parse_headers (l0 :: ls)) fallback_buffer_size
  = select_strategy (parse_headers (l0' :: ls')) fallback_buffer_size.
Proof.
  intros H. unfold parse_headers. simpl.
  now rewrite (foldl_add_header_case ls ls' H).
Qed.

Example content_length_spellings :
  let strategy name :=
    select_strategy
      (parse_headers [B "HTTP/1.1 200 OK"; name ++ B ": 5"]) None in
  strategy (B "Content-Length") = FixedLength (B "5") ∧
  strategy (B "content-length") = FixedLength (B "5") ∧
  strategy (B "CONTENT-LENGTH") = FixedLength (B "5").
Proof. repeat split; vm_compute; reflexivity. Qed.

(** *** Concrete runs *)

(** C1 at a server that resets every attempt, with [retries = 3]. *)
Lemma http_client_never_raises_witness :
  ∃ resp, (http_client net_reset 8 (B "http://device.local/status") 3 None).1
          = Ok (Some resp).
Proof.
  destruct (http_client_never_raises net_reset 8 (B "http://device.local/status")
              3 None ltac:(lia)) as (resp & errs & last & _ & _ & _ & H).
  exists resp. now rewrite H.
Defined.

(** Scenario of the specification: three attempts, two backoff sleeps, then
    the synthetic 500. *)
Example retries_exhausted :
  let e := OSError 104 (B "ECONNRESET") in
  http_client net_reset 8 (B "http://device.local/status") 3 None
  = (Ok (Some {| status_code := 500; headers := None; body := B "[Errno 104] ECONNRESET" |}),
     [EvAttempt 0; EvPrint e; EvSleep 1000;
      EvAttempt 1; EvPrint e; EvSleep 1000;
      EvAttempt 2; EvPrint e]).
Proof. vm_compute. reflexivity. Qed.

(** With [retries = 0] the loop body never runs and the call returns
    [None]. *)
Example zero_retries :
  http_client net_reset 8 (B "http://device.local/status") 0 None = (Ok None, []).
Proof. reflexivity. Qed.

(** C4 at the stream [5 CRLF hello CRLF 0 CRLF CRLF], of which [5 CRLF he]
    came with the header block and the rest in three reads; and at the
    encoding of the two one-byte chunks [0xC3] and [0x28], read in one
    piece. *)
Lemma chunked_roundtrip_witness :
  read_body 32 chunked_headers None (B "5" ++ CRLF ++ B "he")
    (stream_of [B "l"; B "lo" ++ CRLF ++ B "0"; CRLF ++ CRLF])
  = Ok (B "hello") ∧
  read_body 32 chunked_headers None [] (stream_of [encode_chunked [[xc3]; B "("]])
  = Raise (UnicodeError (B "invalid utf-8")).
Proof.
  split.
  - apply (chunked_roundtrip 32 chunked_headers None [B "hello"]).
    + vm_compute. reflexivity.
    + repeat constructor. discriminate.
    + vm_compute. reflexivity.
    + vm_compute. lia.
    + vm_compute. reflexivity.
  - apply (chunked_roundtrip 32 chunked_headers None [[xc3]; B "("] []
             (stream_of [encode_chunked [[xc3]; B "("]])).
    + vm_compute. reflexivity.
    + repeat constructor; discriminate.
    + vm_compute. reflexivity.
    + vm_compute. lia.
    + vm_compute. reflexivity.
Defined.

(** The scenario of the specification, through the whole client. *)
Example chunked_hello :
  body_of (single_request 32 None
     {| connect_error := None;
        incoming := stream_of
          [B "HTTP/1.1 200 OK" ++ CRLF ++ B "Transfer-Encoding: chunked"
           ++ CRLFCRLF ++ B "5" ++ CRLF ++ B "hello" ++ CRLF ++ B "0" ++ CRLFCRLF] |})
  = Ok (B "hello").
Proof. vm_compute. reflexivity. Qed.

(** C4 as stated fails on the one-byte body [b"\xff"]: its encoding is
    read back chunk by chunk, and decoding the result raises. *)
Lemma chunked_invalid_utf8_raises :
  encode_chunked [[xff]] = B "1" ++ CRLF ++ [xff] ++ CRLF ++ B "0" ++ CRLFCRLF ∧
  read_body 32 chunked_headers None [] (stream_of [encode_chunked [[xff]]])
  = Raise (UnicodeError (B "invalid utf-8")) ∧
  body_of (single_request 32 None
     {| connect_error := None;
        incoming := stream_of
          [B "HTTP/1.1 200 OK" ++ CRLF ++ B "Transfer-Encoding: chunked"
           ++ CRLFCRLF ++ encode_chunked [[xff]]] |})
  = Raise (UnicodeError (B "invalid utf-8")).
Proof. repeat split; vm_compute; reflexivity. Qed.

(** C5 at [Content-Length: 5], two bytes read with the header block and
    more than five delivered in all. *)
Lemma fixed_length_body_witness :
  ∃ body, read_body 8 (length_headers (B "5")) None (B "he")
            (stream_of [B "l"; B "lo, world"]) = Ok body ∧
          body = B "hello" ∧ length body = 5%nat.
Proof.
  apply (fixed_length_body 8 (length_headers (B "5")) None 5 (B "he")
           (stream_of [B "l"; B "lo, world"])).
  - vm_compute. reflexivity.
  - exists (B "5").
    split; [vm_compute; reflexivity|].
    split; [discriminate|vm_compute; reflexivity].
  - vm_compute. lia.
  - vm_compute. lia.
  - lia.
  - vm_compute. reflexivity.
Defined.

(** C5 as stated fails twice: on bytes that are not UTF-8 the attempt
    raises, and when more than [N] bytes came with the header block all of
    them are returned. *)
Lemma fixed_length_counterexample :
  read_body 8 (length_headers (B "1")) None [] (stream_of [[xff]])
  = Raise (UnicodeError (B "invalid utf-8")) ∧
  body_of (single_request 8 None
     {| connect_error := None;
        incoming := stream_of
          [B "HTTP/1.1 200 OK" ++ CRLF ++ B "Content-Length: 2"
           ++ CRLFCRLF ++ B "hello"] |})
  = Ok (B "hello").
Proof. split; vm_compute; reflexivity. Qed.

(** C9 at [Content-Length: 5] with three bytes delivered, and with the
    three bytes [h], [e], [0xC3] delivered. *)
Lemma truncated_body_zero_padded_witness :
  (∃ body, read_body 8 (length_headers (B "5")) None (B "he") (stream_of [B "l"])
           = Ok body ∧ length body = 5%nat ∧
           body = B "hel" ++ [NUL; NUL]) ∧
  read_body 8 (length_headers (B "5")) None (B "he") (stream_of [[xc3]])
  = Raise (UnicodeError (B "invalid utf-8")).
Proof.
  assert (declares_length (length_headers (B "5")) 5) as Hd.
  { exists (B "5").
    split; [vm_compute; reflexivity|].
    split; [discriminate|vm_compute; reflexivity]. }
  split.
  - apply (truncated_body_zero_padded 8 (length_headers (B "5")) None 5 (B "he")
             (stream_of [B "l"])).
    + vm_compute. reflexivity.
    + exact Hd.
    + reflexivity.
    + vm_compute. lia.
    + lia.
    + vm_compute. reflexivity.
  - apply (truncated_body_zero_padded 8 (length_headers (B "5")) None 5 (B "he")
             (stream_of [[xc3]])).
    + vm_compute. reflexivity.
    + exact Hd.
    + reflexivity.
    + vm_compute. lia.
    + lia.
    + vm_compute. reflexivity.
Defined.

(** C9 as stated fails on a body cut in the middle of a two-byte
    character: the padded buffer [C3 00] is not UTF-8 and the attempt
    raises. *)
Lemma truncated_body_counterexample :
  declares_length (length_headers (B "2")) 2 ∧
  read_body 8 (length_headers (B "2")) None [xc3] (stream_of [])
  = Raise (UnicodeError (B "invalid utf-8")) ∧
  body_of (single_request 8 None
     {| connect_error := None;
        incoming := stream_of
          [B "HTTP/1.1 200 OK" ++ CRLF ++ B "Content-Length: 2"
           ++ CRLFCRLF ++ [xc3]] |})
  = Raise (UnicodeError (B "invalid utf-8")).
Proof.
  split; [|split; vm_compute; reflexivity].
  exists (B "2").
  split; [vm_compute; reflexivity|].
  split; [discriminate|vm_compute; reflexivity].
Qed.

(** C6 at a five-byte body, with a bound of 5 and with a bound of 4, and
    at five bytes that are not UTF-8 with a bound of 5. *)
Lemma fallback_bounded_witness :
  read_body 8 ∅ (Some 5) (B "he") (stream_of [B "llo"]) = Ok (B "hello") ∧
  read_body 8 ∅ (Some 5) (B "he") (stream_of [B "ll" ++ [xff]])
  = Raise (UnicodeError (B "invalid utf-8")) ∧
  read_body 8 ∅ (Some 4) (B "he") (stream_of [B "llo"])
  = Raise (ValueError (B "Body too large")).
Proof.
  split; [|split].
  - destruct (fallback_bounded 8 ∅ 5 (B "he") (stream_of [B "llo"]))
      as (Hok & _ & _ & _); [reflexivity|reflexivity|lia|].
    apply Hok; [vm_compute; discriminate|reflexivity|vm_compute; lia|reflexivity].
  - destruct (fallback_bounded 8 ∅ 5 (B "he") (stream_of [B "ll" ++ [xff]]))
      as (_ & Hbad & _ & _); [reflexivity|reflexivity|lia|].
    apply Hbad; [vm_compute; discriminate|reflexivity|vm_compute; lia|reflexivity].
  - destruct (fallback_bounded 8 ∅ 4 (B "he") (stream_of [B "llo"]))
      as (_ & _ & Hlarge & _); [reflexivity|reflexivity|lia|].
    apply Hlarge; [vm_compute; reflexivity|vm_compute; lia].
Defined.

(** C6 as stated fails twice: a body within the bound that is not UTF-8 is
    not returned, and a supplied size of 0 selects the unbounded strategy. *)
Lemma fallback_counterexample :
  read_body 8 ∅ (Some 10) [] (stream_of [[xff]])
  = Raise (UnicodeError (B "invalid utf-8")) ∧
  read_body 8 ∅ (Some 0) [] (stream_of [B "hello"]) = Ok (B "hello").
Proof. split; vm_compute; reflexivity. Qed.

End ClientClaims.

(** ** Facts about the server transport *)

Module ServerFacts.
Import Server ServerSpec.

Section Facts.
Context {JSON : Type}.
Variable json_loads : bytes → option JSON.
Variable json_dumps : JSON → str.
Variable fs : str → option file.

Implicit Types (s : @st JSON) (c : conn).

#[local] Abbreviation writes_only := (ServerSpec.writes_only (JSON:=JSON)).

Lemma logged_nil s : logged s [] = s.
Proof. destruct s. unfold logged. simpl. now rewrite app_nil_r. Qed.

Lemma logged_app s a b : logged (logged s a) b = logged s (a ++ b).
Proof. unfold logged. simpl. now rewrite app_assoc. Qed.

(** *** Computations that only write *)

Lemma writes_only_pure {A} (r : result A) : writes_only (fun s => (r, s)).
Proof. intros s r' s' [= <- <-]. exists []. now rewrite logged_nil. Qed.

Lemma writes_only_bind {A B'} (m : @M JSON A) (f : A → @M JSON B') :
  writes_only m → (∀ a, writes_only (f a)) → writes_only (m ≫= f).
Proof.
  intros Hm Hf s r s'. unfold mbind, M_bind.
  destruct (m s) as [[a|e|] s1] eqn:E; apply Hm in E as [ws ->].
  - intros [ws' ->]%Hf. exists (ws ++ ws'). now rewrite logged_app, map_app.
  - intros [= <- <-]. eauto.
  - intros [= <- <-]. eauto.
Qed.

Lemma writes_only_try {A} (m : @M JSON A) (h : exn → @M JSON A) :
  writes_only m → (∀ e, writes_only (h e)) → writes_only (try_except m h).
Proof.
  intros Hm Hh s r s'. unfold try_except.
  destruct (m s) as [[a|e|] s1] eqn:E; apply Hm in E as [ws ->].
  - intros [= <- <-]. eauto.
  - intros [ws' ->]%Hh. exists (ws ++ ws'). now rewrite logged_app, map_app.
  - intros [= <- <-]. eauto.
Qed.

Lemma writes_only_awrite c data : writes_only (awrite c data).
Proof.
  unfold awrite. destruct (awrite_error c).
  - apply (writes_only_pure (Raise _)).
  - intros s r s' [= <- <-]. now exists [data].
Qed.

Lemma writes_only_write c data : writes_only (write c data).
Proof.
  apply writes_only_try; [apply writes_only_awrite|].
  intros [errno m| | | | | |]; try apply (writes_only_pure (Raise _)).
  destruct (_ || _); [apply (writes_only_pure (Ok tt))|apply (writes_only_pure (Raise _))].
Qed.

Lemma writes_only_write_chunks c fuel : ∀ content,
  writes_only (write_chunks c fuel content).
Proof.
  induction fuel as [|fuel IH]; intros content; simpl.
  - apply (writes_only_pure (Ok tt)).
  - destruct (take 512 content); [apply (writes_only_pure (Ok tt))|].
    apply writes_only_bind; [apply writes_only_write|auto].
Qed.

Lemma writes_only_send_headers c code ct cache :
  writes_only (send_headers c code ct cache).
Proof.
  unfold send_headers.
  repeat (apply writes_only_bind; [|intros _]);
    try apply writes_only_write.
  destruct cache; repeat (apply writes_only_bind; [|intros _]);
    apply writes_only_write.
Qed.

Lemma writes_only_send_file c filename binary :
  writes_only (send_file fs c filename binary).
Proof.
  apply writes_only_try.
  - apply writes_only_bind; [apply writes_only_pure|].
    intros content. apply writes_only_write_chunks.
  - intros [errno m| | | | | |]; try apply (writes_only_pure (Raise _)).
    destruct (bool_decide _); apply (writes_only_pure (Raise _)).
Qed.

Lemma writes_only_serve_static c req : writes_only (serve_static fs c req).
Proof.
  unfold serve_static. destruct (static_target (url req)) as [[path ct] binary].
  apply writes_only_try.
  - apply writes_only_bind; [apply writes_only_pure|intros _].
    apply writes_only_bind; [apply writes_only_send_headers|intros _].
    apply writes_only_send_file.
  - intros e. destruct (is_OSError e); [|apply (writes_only_pure (Raise _))].
    apply writes_only_bind; [apply writes_only_send_headers|intros _].
    apply writes_only_write.
Qed.

(** *** What is written when the transport does not fail *)

Lemma write_ok c data s :
  awrite_error c = None → write c data s = (Ok tt, logged s [EvWrite data]).
Proof. intros H. unfold write, try_except, awrite. now rewrite H. Qed.

Lemma bind_ok {A B'} (m : @M JSON A) (f : A → @M JSON B') s a s1 :
  m s = (Ok a, s1) → (m ≫= f) s = f a s1.
Proof. intros H. unfold mbind, M_bind. now rewrite H. Qed.

Lemma send_headers_ok c code ct cache s :
  awrite_error c = None →
  send_headers c code ct cache s
  = (Ok tt, logged s (map EvWrite (response_head code ct cache))).
Proof.
  intros H. unfold response_head.
  cbv [send_headers write try_except awrite mbind M_bind emit].
  rewrite H. destruct cache; cbv beta iota; rewrite ?logged_app; reflexivity.
Qed.

Lemma write_chunks_ok c fuel : ∀ content s,
  awrite_error c = None →
  write_chunks c fuel content s
  = (Ok tt, logged s (map EvWrite (file_chunks fuel content))).
Proof.
  induction fuel as [|fuel IH]; intros content s H; simpl.
  - now rewrite logged_nil.
  - destruct (take 512 content) as [|b chunk]; [now rewrite logged_nil|].
    erewrite bind_ok by (apply write_ok; exact H).
    rewrite IH by done. now rewrite logged_app.
Qed.

Lemma file_chunks_concat fuel : ∀ content,
  (length content < fuel)%nat → concat (file_chunks fuel content) = content.
Proof.
  induction fuel as [|fuel IH]; intros content Hl; [lia|].
  simpl. destruct (take 512 content) as [|b chunk] eqn:E.
  - destruct content; [done|discriminate].
  - simpl. rewrite IH.
    + rewrite app_comm_cons, <- E. apply take_drop.
    + rewrite length_drop. destruct content; [discriminate|simpl in *; lia].
Qed.

End Facts.

End ServerFacts.

(** ** The hook pipeline *)

Module HookFacts.
Import Server ServerSpec ServerFacts.

Section Hooks.
Context {JSON : Type}.
Variable json_loads : bytes → option JSON.
Variable json_dumps : JSON → str.
Variable fs : str → option file.

Implicit Types (s : @st JSON) (c : conn) (srv : @HttpServer JSON).
#[local] Abbreviation quiet := (ServerSpec.quiet (JSON:=JSON)).

Lemma quiet_pure {A} (r : result A) : quiet (fun s => (r, s)).
Proof.
  intros s r' s' [= <- <-]. exists []. rewrite app_nil_r. auto.
Qed.

Lemma quiet_bind {A B'} (m : @M JSON A) (f : A → @M JSON B') :
  quiet m → (∀ a, quiet (f a)) → quiet (m ≫= f).
Proof.
  intros Hm Hf s r s'. unfold mbind, M_bind.
  destruct (m s) as [[a|e|] s1] eqn:E; apply Hm in E as (ev1 & Hl1 & Hq1 & Hc1).
  - intros (ev2 & Hl2 & Hq2 & Hc2)%Hf. exists (ev1 ++ ev2).
    rewrite Hl2, Hl1, app_assoc. split; [done|]. split; [now apply Forall_app|].
    destruct Hc2 as [->|]; auto.
  - intros [= <- <-]. eauto.
  - intros [= <- <-]. eauto.
Qed.

Lemma quiet_try {A} (m : @M JSON A) (h : exn → @M JSON A) :
  quiet m → (∀ e, quiet (h e)) → quiet (try_except m h).
Proof.
  intros Hm Hh s r s'. unfold try_except.
  destruct (m s) as [[a|e|] s1] eqn:E; apply Hm in E as (ev1 & Hl1 & Hq1 & Hc1).
  - intros [= <- <-]. eauto.
  - intros (ev2 & Hl2 & Hq2 & Hc2)%Hh. exists (ev1 ++ ev2).
    rewrite Hl2, Hl1, app_assoc. split; [done|]. split; [now apply Forall_app|].
    destruct Hc2 as [->|]; auto.
  - intros [= <- <-]. eauto.
Qed.

Lemma quiet_emit ev : is_after ev = false → quiet (emit ev).
Proof.
  intros H s r s' [= <- <-]. exists [ev]. simpl. repeat split; auto.
Qed.

Lemma quiet_get : quiet get.
Proof. intros s r s' [= <- <-]. exists []. rewrite app_nil_r. auto. Qed.

Lemma quiet_set_input i : quiet (set_input i).
Proof. intros s r s' [= <- <-]. exists []. simpl. rewrite app_nil_r. auto. Qed.

Lemma quiet_set_request q : quiet (set_request q).
Proof. intros s r s' [= <- <-]. exists []. simpl. rewrite app_nil_r. auto. Qed.

Lemma quiet_set_status_code : quiet (set_status_code 204).
Proof. intros s r s' [= <- <-]. exists []. simpl. rewrite app_nil_r. auto. Qed.

(** One step of the proof that a computation is quiet: split binds and
    handlers, case on what a branch depends on, close the leaves. *)
Ltac quiet_step :=
  first
    [ assumption
    | apply quiet_bind; [|intros ?]
    | apply quiet_try; [|intros ?]
    | apply (quiet_pure (Ok _))
    | apply (quiet_pure (Raise _))
    | apply (quiet_pure Spin)
    | apply quiet_pure
    | apply quiet_get
    | apply quiet_set_input
    | apply quiet_set_request
    | apply quiet_set_status_code
    | apply quiet_emit; reflexivity
    | match goal with
      | |- ServerSpec.quiet (match ?x with _ => _ end) => destruct x
      | |- ServerSpec.quiet (if ?b then _ else _) => destruct b
      end ].

Ltac quiet_auto := repeat quiet_step.

Lemma quiet_readline c : quiet (readline c).
Proof. unfold readline, at_peer_end, raise, mret, M_ret. quiet_auto. Qed.

Lemma quiet_read c n : quiet (read c n).
Proof. unfold read, at_peer_end, raise, mret, M_ret. quiet_auto. Qed.

Lemma quiet_awrite c data : quiet (awrite c data).
Proof. unfold awrite, raise. quiet_auto. Qed.

Lemma quiet_aclose c : quiet (aclose c).
Proof. unfold aclose, raise. quiet_auto. Qed.

Lemma quiet_write c data : quiet (write c data).
Proof.
  unfold write, raise, mret, M_ret. pose proof (quiet_awrite c data). quiet_auto.
Qed.

Lemma quiet_write_chunks c fuel : ∀ content, quiet (write_chunks c fuel content).
Proof.
  induction fuel as [|fuel IH]; intros content; simpl; unfold mret, M_ret.
  - quiet_auto.
  - destruct (take 512 content); [quiet_auto|].
    apply quiet_bind; [apply quiet_write|intros _; apply IH].
Qed.

Lemma quiet_send_headers c code ct cache : quiet (send_headers c code ct cache).
Proof.
  unfold send_headers. destruct cache;
    repeat (apply quiet_bind; [|intros _]); apply quiet_write.
Qed.

Lemma quiet_send_file c filename binary : quiet (send_file fs c filename binary).
Proof.
  unfold send_file, lift, raise. apply quiet_try.
  - apply quiet_bind; [apply quiet_pure|intros ?; apply quiet_write_chunks].
  - intros e. quiet_auto.
Qed.

Lemma quiet_serve_static c (req : @Request JSON) : quiet (serve_static fs c req).
Proof.
  unfold serve_static, lift, raise.
  destruct (static_target (url req)) as [[path ct] binary].
  apply quiet_try.
  - apply quiet_bind; [apply quiet_pure|intros _].
    apply quiet_bind; [apply quiet_send_headers|intros _; apply quiet_send_file].
  - intros e. destruct (is_OSError e); [|apply quiet_pure].
    apply quiet_bind; [apply quiet_send_headers|intros _; apply quiet_write].
Qed.

Lemma quiet_read_headers c fuel : quiet (read_headers c fuel).
Proof.
  induction fuel as [|fuel IH]; simpl; unfold spin, lift, mret, M_ret.
  - quiet_auto.
  - pose proof (quiet_readline c). quiet_auto.
Qed.

Lemma quiet_read_post_body c fuel : ∀ length_ body,
  quiet (read_post_body c fuel length_ body).
Proof.
  induction fuel as [|fuel IH]; intros length_ body; simpl;
    unfold spin, mret, M_ret.
  - quiet_auto.
  - destruct (_ <? _); [|quiet_auto].
    apply quiet_bind; [apply quiet_read|intros data; apply IH].
Qed.

Lemma quiet_read_json c fuel : quiet (read_json json_loads c fuel).
Proof.
  unfold read_json, lift, mret, M_ret.
  apply quiet_bind; [apply quiet_get|intros s].
  apply quiet_bind; [quiet_auto|intros length_].
  apply quiet_bind; [apply quiet_read_post_body|intros body].
  quiet_auto.
Qed.

Lemma quiet_run_before hooks : ∀ i, quiet (run_before i hooks).
Proof.
  induction hooks as [|h hooks IH]; intros i; simpl; unfold mret, M_ret.
  - quiet_auto.
  - apply quiet_bind; [apply quiet_get|intros s].
    apply quiet_bind; [quiet_auto|intros _].
    destruct (h (request s)) as [q e].
    apply quiet_bind; [quiet_auto|intros _].
    apply quiet_bind; [quiet_auto|intros _]. apply IH.
Qed.

Lemma quiet_run_error hooks code msg : ∀ i, quiet (run_error i hooks code msg).
Proof.
  induction hooks as [|h hooks IH]; intros i; simpl; unfold mret, M_ret.
  - quiet_auto.
  - apply quiet_bind; [quiet_auto|intros _; apply IH].
Qed.

Lemma quiet_emit_writes c ws : quiet (emit_writes c ws).
Proof.
  induction ws as [|w ws IH]; simpl; unfold mret, M_ret; [quiet_auto|].
  apply quiet_bind; [apply quiet_awrite|intros _; apply IH].
Qed.

Lemma quiet_dispatch srv c (req : @Request JSON) :
  quiet (dispatch json_dumps fs srv c req).
Proof.
  unfold dispatch, call_handler, lift, mret, M_ret.
  pose proof (quiet_serve_static c req).
  destruct (routes srv !! url req) as [[h methods]|];
    [|destruct (routes srv !! B "*") as [[h methods]|]]; try assumption;
    (destruct (bool_decide _); [|assumption]);
    (apply quiet_bind;
     [apply quiet_bind; [quiet_auto|intros _];
      apply quiet_bind; [apply quiet_emit_writes|intros _; apply quiet_pure]
     |intros [v|text|]]);
    try (apply quiet_bind; [apply quiet_send_headers|intros _; apply quiet_write]);
    apply quiet_pure.
Qed.

Lemma quiet_process srv c fuel : quiet (process json_loads json_dumps fs srv c fuel).
Proof.
  unfold process, lift, mret, M_ret.
  apply quiet_bind; [apply quiet_readline|intros line].
  destruct line as [|b line]; [apply quiet_pure|].
  apply quiet_bind; [apply quiet_pure|intros text].
  destruct (Py.split_ws text) as [|m [|full_url [|v [|]]]]; try apply quiet_pure.
  apply quiet_bind; [apply quiet_get|intros s].
  destruct (parse_target full_url) as [u a].
  apply quiet_bind; [apply quiet_set_request|intros _].
  apply quiet_bind; [apply quiet_read_headers|intros _].
  apply quiet_bind;
    [destruct (bool_decide _); [apply quiet_read_json|apply quiet_pure]|intros _].
  apply quiet_bind; [apply quiet_run_before|intros _].
  apply quiet_bind; [apply quiet_get|intros s1].
  destruct (bool_decide _); [|apply quiet_dispatch].
  apply quiet_bind; [apply quiet_set_status_code|intros _; apply quiet_send_headers].
Qed.

Lemma quiet_on_exception srv c e : quiet (on_exception srv c e).
Proof.
  unfold on_exception.
  destruct e;
    try (apply quiet_emit; reflexivity);
    try (apply (quiet_pure (Raise _)));
    (apply quiet_bind; [apply quiet_run_error|intros _]);
    (apply quiet_bind; [apply quiet_send_headers|intros _; apply quiet_write]).
Qed.

Lemma after_codes_app (a b : list event) :
  after_codes (a ++ b) = after_codes a ++ after_codes b.
Proof. unfold after_codes. apply omap_app. Qed.

(** The after-hooks all run, in order, each with the [status_code] at
    hand, and nothing else changes but the log. *)
Lemma run_after_spec hooks : ∀ i s,
  ∃ evs, run_after i hooks s = (Ok tt, logged s evs) ∧
         after_codes evs = imap (λ j _, ((i + j)%nat, status_code s)) hooks.
Proof.
  induction hooks as [|h hooks IH]; intros i s; simpl.
  - exists []. now rewrite logged_nil.
  - set (called := EvAfterHook i (status_code s) ::
                   match h (request s) (status_code s) with
                   | Some e => [EvPrint e]
                   | None => []
                   end).
    destruct (IH (S i) (logged s called)) as (evs & Hrun & Hcodes).
    exists (called ++ evs). split.
    + unfold mbind, M_bind, get, emit, mret, M_ret. subst called.
      destruct (h (request s) (status_code s)); rewrite ?logged_app;
        simpl in *; rewrite Hrun, logged_app; reflexivity.
    + assert (after_codes (called ++ evs)
              = (i, status_code s) :: after_codes evs) as ->
        by (subst called; destruct (h _ _); reflexivity).
      rewrite Hcodes, Nat.add_0_r. f_equal.
      apply imap_ext. intros j x _. simpl. f_equal. lia.
Qed.

Lemma after_codes_quiet evs :
  Forall (λ ev, is_after ev = false) evs → after_codes evs = [].
Proof.
  unfold after_codes. induction 1 as [|ev evs Hev _ IH]; [done|].
  simpl. destruct ev; try discriminate; exact IH.
Qed.

(** X8.  On every exit path of an admitted connection each after-hook is called
    exactly once, in registration order, and the status it is given is 200
    or 204 -- never the 404 or 500 that an error path has written. *)
Theorem after_hooks_run_once srv c fuel srv' r l :
  full srv = false →
  handle json_loads json_dumps fs srv c fuel = (srv', r, l) → r ≠ Spin →
  ∃ code, (code = 200 ∨ code = 204) ∧
          after_codes l = imap (λ i _, (i, code)) (_after_hooks srv) ∧
          conn_id c ∉ _connections srv'.
Proof.
  intros Hf. unfold handle. rewrite Hf.
  assert (_after_hooks (enter srv c) = _after_hooks srv) as Hh
    by (unfold enter; now rewrite Hf).
  unfold serve, try_finally.
  destruct (try_except _ _ (initial c)) as [r1 s1] eqn:Hbody.
  apply (quiet_try _ _ (quiet_process _ _ _) (quiet_on_exception _ _)) in Hbody
    as (evs & Hl & Hq & Hc).
  simpl in Hl, Hc.
  destruct (run_after_spec (_after_hooks (enter srv c)) 0 s1)
    as (tl & Hrun & Hcodes).
  rewrite Hh in Hcodes.
  assert (∃ s2 tl', teardown (enter srv c) c s1 = (Ok tt, s2) ∧
                    log s2 = log s1 ++ tl' ∧
                    after_codes tl' = after_codes tl)
    as (s2 & tl' & Htear & Hlog & Htl).
  { unfold teardown, mbind, M_bind. rewrite Hrun.
    unfold try_except, aclose, emit, raise.
    destruct (aclose_error c); simpl.
    - exists (logged s1 tl), tl. auto.
    - exists (logged (logged s1 tl) [EvClose]), (tl ++ [EvClose]). simpl.
      rewrite app_assoc, after_codes_app. simpl. rewrite app_nil_r. auto. }
  rewrite Htear. intros Heq Hspin.
  exists (status_code s1). split; [destruct Hc as [->| ->]; auto|].
  destruct r1 as [[]|e|]; injection Heq as <- <- <-; try done;
    (split;
     [rewrite Hlog, after_codes_app, Hl, (after_codes_quiet _ Hq), Htl, Hcodes;
      reflexivity
     |unfold release; simpl; apply not_elem_of_difference; right;
      now apply elem_of_singleton]).
Qed.

End Hooks.

End HookFacts.

(** ** The server claims *)

Module ServerClaims.
Import Server ServerSpec ServerFacts PyFacts.

Section Claims.
Context {JSON : Type}.
Variable json_loads : bytes → option JSON.
Variable json_dumps : JSON → str.
Variable fs : str → option file.

Implicit Types (s : @st JSON) (c : conn) (srv : @HttpServer JSON).

(** *** Admission *)

Lemma step_max_connections srv srv' :
  step srv srv' → max_connections srv' = max_connections srv.
Proof. intros [srv1 c|srv1 c H]; [unfold enter; destruct (full srv1)|]; reflexivity. Qed.

Lemma enter_size srv c :
  Z.of_nat (size (_connections srv)) ≤ max_connections srv →
  Z.of_nat (size (_connections (enter srv c))) ≤ max_connections (enter srv c).
Proof.
  intros H. unfold enter. destruct (full srv) eqn:F; [done|].
  unfold full in F. apply Z.leb_gt in F. simpl.
  destruct (decide (conn_id c ∈ _connections srv)) as [Hin|Hin].
  - rewrite subseteq_union_1_L by now apply singleton_subseteq_l. done.
  - rewrite size_union by now apply disjoint_singleton_l.
    rewrite size_singleton. lia.
Qed.

Lemma release_out srv c : conn_id c ∉ _connections (release srv c).
Proof.
  unfold release. simpl. apply not_elem_of_difference. right.
  now apply elem_of_singleton.
Qed.

Lemma release_size srv c :
  (size (_connections (release srv c)) ≤ size (_connections srv))%nat.
Proof.
  unfold release. simpl. apply subseteq_size. now apply subseteq_difference_l.
Qed.

Lemma reachable_bounded srv0 srv :
  Z.of_nat (size (_connections srv0)) ≤ max_connections srv0 →
  reachable srv0 srv →
  Z.of_nat (size (_connections srv)) ≤ max_connections srv.
Proof.
  intros H0. induction 1 as [|srv1 srv2 Hr IH Hs]; [done|].
  destruct Hs as [srv1 c|srv1 c Hin].
  - now apply enter_size.
  - pose proof (release_size srv1 c). simpl in *. lia.
Qed.

Lemma reject_log c :
  ∃ l, reject c (initial c) = (Ok tt, logged (JSON:=JSON) (initial c) l) ∧
       Forall (λ ev, is_read ev = false) l ∧
       (awrite_error c = None → aclose_error c = None →
        l = [EvWrite response_503; EvClose]).
Proof.
  unfold reject, try_except, mbind, M_bind, awrite, aclose, emit, raise.
  destruct (awrite_error c) as [e1|], (aclose_error c) as [e2|]; simpl.
  - exists []. rewrite logged_nil. repeat split; [constructor|discriminate].
  - exists []. rewrite logged_nil. repeat split; [constructor|discriminate].
  - exists [EvWrite response_503]. repeat split; [repeat constructor|discriminate].
  - exists [EvWrite response_503; EvClose]. rewrite logged_app.
    repeat split; repeat constructor.
Qed.

(** C2.  A server starts with an empty admission set and a non-negative
    [max_connections].  In every state reached by admissions and releases
    the set holds at most [max_connections] identifiers.  A connection that
    arrives while the set is full leaves the server unchanged (it is never
    added), reads nothing, and on a working transport is written the 503
    response and then closed.  An admitted connection that is torn down is
    no longer in the set. *)
Theorem admission_bounded srv0 srv :
  _connections srv0 = ∅ → 0 ≤ max_connections srv0 →
  reachable srv0 srv →
  Z.of_nat (size (_connections srv)) ≤ max_connections srv ∧
  (∀ c fuel, full srv = true →
     ∃ l, handle json_loads json_dumps fs srv c fuel = (srv, Ok tt, l) ∧
          Forall (λ ev, is_read ev = false) l ∧
          (awrite_error c = None → aclose_error c = None →
           l = [EvWrite response_503; EvClose])) ∧
  (∀ c fuel srv' r l, full srv = false →
     handle json_loads json_dumps fs srv c fuel = (srv', r, l) → r ≠ Spin →
     conn_id c ∉ _connections srv') ∧
  (∀ c, conn_id c ∉ _connections (release srv c)).
Proof.
  intros He Hm Hr. split; [|split; [|split]].
  - apply (reachable_bounded srv0); [|done]. rewrite He, size_empty. lia.
  - intros c fuel Hf. unfold handle. rewrite Hf.
    destruct (reject_log c) as (l & -> & Hl & Hok).
    exists l. simpl. auto.
  - intros c fuel srv' r l Hf. unfold handle. rewrite Hf.
    destruct (serve _ _ _ _ _ _ _) as [[[]|e|] s1]; intros [= <- <- <-] Hs;
      try done; apply release_out.
  - intros c. apply release_out.
Qed.

(** *** Static files *)

Lemma find_byte_app (x : byte) (u rest : bytes) :
  Py.find [x] u = None → Py.find [x] (u ++ x :: rest) = Some (length u).
Proof.
  induction u as [|b u IH]; simpl.
  - intros _. now rewrite bool_decide_eq_true_2.
  - destruct (bool_decide (x = b)); simpl; [discriminate|].
    destruct (Py.find [x] u); [discriminate|]. intros _. now rewrite IH.
Qed.

Lemma split_default_extension (u : str) :
  Py.contains (B ".") u = false →
  Py.split (B ".") (u ++ B ".html") = [u; B "html"].
Proof.
  unfold Py.contains. destruct (Py.find (B ".") u) eqn:F; [discriminate|]. intros _.
  unfold Py.split. cbn [Py.split_fuel].
  change (B ".html") with (x2e :: B "html"). change (B ".") with [x2e] in *.
  rewrite (find_byte_app _ _ _ F).
  rewrite take_app_length.
  rewrite drop_app_ge by (simpl; lia).
  replace (length u + length [x2e] - length u)%nat with 1%nat by (simpl; lia).
  rewrite length_app. rewrite Nat.add_comm. reflexivity.
Qed.

Lemma static_target_default (u : str) :
  Py.contains (B ".") u = false →
  static_target u =
  (STATIC_DIR ++ B "/" ++ drop 1 (u ++ B ".html"), B "text/html", false).
Proof.
  intros H. unfold static_target, last_field. rewrite H.
  rewrite (split_default_extension u H). reflexivity.
Qed.

Lemma send_file_ok c s path binary content :
  awrite_error c = None → fs path = Some (File content) →
  send_file fs c path binary s =
  (Ok tt, logged s (map EvWrite (file_chunks (S (length content)) content))).
Proof.
  intros Hw Hf. unfold send_file, try_except, mbind, M_bind, lift, open_file.
  rewrite Hf. now rewrite write_chunks_ok.
Qed.

Lemma find_byte_bound (x : byte) (s : bytes) p :
  Py.find [x] s = Some p → (p < length s)%nat.
Proof.
  revert p. induction s as [|b s IH]; intros p; simpl.
  - discriminate.
  - destruct (bool_decide (x = b)); simpl; [intros [= <-]; lia|].
    destruct (Py.find [x] s) as [q|]; [|discriminate].
    intros [= <-]. specialize (IH q eq_refl). lia.
Qed.

Lemma split_fuel_last (x : byte) (ext : bytes) : ∀ fuel stem,
  Py.find [x] ext = None → (length stem < fuel)%nat →
  List.last (Py.split_fuel fuel [x] (stem ++ x :: ext)) [] = ext.
Proof.
  induction fuel as [|fuel IH]; intros stem He Hf; [lia|].
  cbn [Py.split_fuel].
  destruct (Py.find [x] stem) as [p|] eqn:Fs.
  - rewrite (find_app_l _ _ (x :: ext) _ Fs).
    pose proof (find_byte_bound _ _ _ Fs) as Hp.
    rewrite drop_app_le by (simpl; lia).
    assert (∀ (a : bytes) l, l ≠ [] → List.last (a :: l) [] = List.last l []) as Hl
      by (intros a [|? ?] Hne; [now destruct Hne|reflexivity]).
    rewrite Hl.
    + apply IH; [done|]. rewrite length_drop. simpl. lia.
    + destruct fuel; cbn [Py.split_fuel]; [discriminate|].
      destruct (Py.find [x] (drop _ stem ++ _)); discriminate.
  - rewrite (find_byte_app _ _ _ Fs).
    rewrite drop_app_ge by (simpl; lia).
    replace (length stem + length [x] - length stem)%nat with 1%nat by (simpl; lia).
    change (drop 1 (x :: ext)) with ext.
    destruct fuel; cbn [Py.split_fuel]; [reflexivity|]. now rewrite He.
Qed.

Lemma last_field_ext (stem ext : str) :
  Py.contains (B ".") ext = false → last_field (stem ++ B "." ++ ext) = ext.
Proof.
  unfold Py.contains. destruct (Py.find (B ".") ext) eqn:F; [discriminate|]. intros _.
  unfold last_field, Py.split. change (B ".") with [x2e] in *.
  apply split_fuel_last; [done|]. rewrite length_app. simpl. lia.
Qed.

Lemma contains_dot_app (stem ext : str) :
  Py.contains (B ".") (stem ++ B "." ++ ext) = true.
Proof.
  unfold Py.contains. change (B "." ++ ext) with (x2e :: ext). change (B ".") with [x2e].
  destruct (Py.find [x2e] stem) as [p|] eqn:F.
  - now rewrite (find_app_l _ _ _ _ F).
  - now rewrite (find_byte_app _ _ _ F).
Qed.

Lemma static_target_ext (stem ext : str) :
  Py.contains (B ".") ext = false →
  static_target (stem ++ B "." ++ ext) =
  (STATIC_DIR ++ B "/" ++ drop 1 (stem ++ B "." ++ ext),
   default (B "application/octet-stream") (_MIME !! (B "." ++ ext)),
   bool_decide (B "." ++ ext ∈ [B ".ico"; B ".png"; B ".jpg"])).
Proof.
  intros H. unfold static_target. rewrite contains_dot_app.
  now rewrite (last_field_ext stem ext H).
Qed.

Lemma last_dot (u : str) :
  Py.contains (B ".") u = true →
  ∃ stem ext, u = stem ++ B "." ++ ext ∧ Py.contains (B ".") ext = false.
Proof.
  unfold Py.contains. change (B ".") with [x2e].
  induction u as [|b u IH]; [discriminate|].
  destruct (Py.find [x2e] u) as [p|] eqn:F.
  - intros _. destruct IH as (stem & ext & -> & He); [done|].
    now exists (b :: stem), ext.
  - cbn [Py.find Py.startswith]. destruct (bool_decide (x2e = b)) eqn:Eb.
    + intros _. apply bool_decide_eq_true in Eb as <-.
      exists [], u. now rewrite F.
    + rewrite F. discriminate.
Qed.

(** C8 (amended).  For every request URL that contains no dot at all the
    static responder appends [.html], resolves the file under [./html] and
    serves it as [text/html]: a present file is answered with status 200,
    [Content-Type: text/html], the one-year cache header and its content;
    an absent one with 404.  Every other URL ends in a dot followed by an
    extension without dot: it is resolved under [./html] as it is, and its
    content type is the entry of the table for this extension,
    [application/octet-stream] when the table has none.  Whatever the URL,
    the 200 head carries the content type so chosen. *)
Theorem static_default_extension c (req : @Request JSON) s :
  Py.contains (B ".") (url req) = false → awrite_error c = None →
  let path := STATIC_DIR ++ B "/" ++ drop 1 (url req ++ B ".html") in
  static_target (url req) = (path, B "text/html", false) ∧
  (∀ content, fs path = Some (File content) →
     serve_static fs c req s =
       (Ok tt, logged s (map EvWrite
                 (response_head 200 (B "text/html") true
                  ++ file_chunks (S (length content)) content))) ∧
     concat (file_chunks (S (length content)) content) = content) ∧
  (fs path = None →
     serve_static fs c req s =
       (Ok tt, logged s (map EvWrite
                 (response_head 404 (B "text/html") false
                  ++ [not_found_body])))) ∧
  (∀ u, Py.contains (B ".") u = true →
     ∃ stem ext, u = stem ++ B "." ++ ext ∧ Py.contains (B ".") ext = false) ∧
  (∀ stem ext, Py.contains (B ".") ext = false →
     let u := stem ++ B "." ++ ext in
     static_target u =
       (STATIC_DIR ++ B "/" ++ drop 1 u,
        default (B "application/octet-stream") (_MIME !! (B "." ++ ext)),
        bool_decide (B "." ++ ext ∈ [B ".ico"; B ".png"; B ".jpg"]))) ∧
  (∀ (req' : @Request JSON) path' ct binary,
     static_target (url req') = (path', ct, binary) →
     (∀ content, fs path' = Some (File content) →
        serve_static fs c req' s =
          (Ok tt, logged s (map EvWrite
                    (response_head 200 ct true
                     ++ file_chunks (S (length content)) content)))) ∧
     (fs path' = None →
        serve_static fs c req' s =
          (Ok tt, logged s (map EvWrite
                    (response_head 404 (B "text/html") false
                     ++ [not_found_body]))))).
Proof.
  intros Hd Hw path.
  assert (∀ (req' : @Request JSON) path' ct binary,
     static_target (url req') = (path', ct, binary) →
     (∀ content, fs path' = Some (File content) →
        serve_static fs c req' s =
          (Ok tt, logged s (map EvWrite
                    (response_head 200 ct true
                     ++ file_chunks (S (length content)) content)))) ∧
     (fs path' = None →
        serve_static fs c req' s =
          (Ok tt, logged s (map EvWrite
                    (response_head 404 (B "text/html") false
                     ++ [not_found_body]))))) as Hany.
  { intros req' path' ct binary Ht. split.
    - intros content Hf. unfold serve_static. rewrite Ht.
      unfold try_except, mbind, M_bind, lift, os_stat. rewrite Hf.
      rewrite send_headers_ok by done.
      rewrite (send_file_ok _ _ _ _ content) by done.
      now rewrite logged_app, map_app.
    - intros Hf. unfold serve_static. rewrite Ht.
      unfold try_except, mbind, M_bind, lift, os_stat. rewrite Hf.
      cbn [is_OSError]. rewrite send_headers_ok by done.
      rewrite write_ok by done.
      now rewrite logged_app, map_app. }
  pose proof (static_target_default (url req) Hd) as Ht. fold path in Ht.
  destruct (Hany req path (B "text/html") false Ht) as [Hfound Hmissing].
  split; [exact Ht|]. split; [|split; [exact Hmissing|]].
  - intros content Hf. split; [now apply Hfound|apply file_chunks_concat; lia].
  - split; [exact last_dot|]. split; [|exact Hany].
    intros stem ext He. now apply static_target_ext.
Qed.

(** *** Route dispatch *)

(** Route dispatch on a path whose route does not take the method is the
    static responder: the wildcard route is not looked up. *)
Lemma dispatch_method_mismatch srv c (req : @Request JSON)
    (h : handler) (methods : list str) :
  routes srv !! url req = Some (h, methods) →
  method req ∉ methods →
  dispatch json_dumps fs srv c req = serve_static fs c req.
Proof.
  intros Hr Hm. unfold dispatch. rewrite Hr. now rewrite bool_decide_eq_false_2.
Qed.

End Claims.

(** *** Concrete runs *)

(** C2 at a server with one slot, taken by connection 1 when connection
    2 arrives. *)
Lemma admission_bounded_witness :
  let busy := enter one_slot (peer 1 []) in
  Z.of_nat (size (_connections busy)) ≤ 1 ∧
  handle loads dumps site busy (peer 2 (http_get (B "/"))) 16
  = (busy, Ok tt, [EvWrite response_503; EvClose]).
Proof.
  destruct (admission_bounded loads dumps site one_slot
              (enter one_slot (peer 1 [])))
    as (Hsize & Hreject & _).
  - reflexivity.
  - simpl. lia.
  - eapply reach_step; [apply reach_init|apply step_arrive].
  - split; [exact Hsize|].
    destruct (Hreject (peer 2 (http_get (B "/"))) 16%nat) as (l & Hh & _ & Hl);
      [reflexivity|].
    rewrite Hh, Hl; reflexivity.
Defined.

(** C3.  The server looks the header up under the exact spelling
    [Content-Length]: of three POST requests that differ only in the case
    of that header name, one has its five body bytes read and the other
    two have none read. *)
Theorem server_content_length_case_sensitive :
  let api := <[B "/api" := (answers (Ok HNone), [B "POST"])]> ∅ in
  reads (run api (http_post (B "/api") (B "Content-Length: 5") (B "hello")))
  = [B "hello"] ∧
  reads (run api (http_post (B "/api") (B "content-length: 5") (B "hello"))) = [] ∧
  reads (run api (http_post (B "/api") (B "CONTENT-LENGTH: 5") (B "hello"))) = [].
Proof. repeat split; vm_compute; reflexivity. Qed.

(** C7.  The after-hook runs once on each of these paths, but the status
    it is given is the local [status_code], which only the OPTIONS branch
    updates: after a typed 404, after an unexpected exception answered
    with 500 and after the static responder's 404 it is given 200; after
    OPTIONS it is given 204. *)
Theorem after_hooks_miss_error_status :
  let typed := <[B "/data" := (answers (Raise (HttpError 404 (B "File Not Found"))),
                               [B "GET"])]> ∅ in
  let broken := <[B "/data" := (answers (Raise (Exception (B "boom"))),
                                [B "GET"])]> ∅ in
  (status_lines (run typed (http_get (B "/data"))) = [B "HTTP/1.1 404" ++ CRLF] ∧
   after_codes (run typed (http_get (B "/data"))) = [(0%nat, 200)]) ∧
  (status_lines (run broken (http_get (B "/data"))) = [B "HTTP/1.1 500" ++ CRLF] ∧
   after_codes (run broken (http_get (B "/data"))) = [(0%nat, 200)]) ∧
  (status_lines (run ∅ (http_get (B "/missing"))) = [B "HTTP/1.1 404" ++ CRLF] ∧
   after_codes (run ∅ (http_get (B "/missing"))) = [(0%nat, 200)]) ∧
  (status_lines (run ∅ (B "OPTIONS /data HTTP/1.1" ++ CRLFCRLF))
   = [B "HTTP/1.1 204" ++ CRLF] ∧
   after_codes (run ∅ (B "OPTIONS /data HTTP/1.1" ++ CRLFCRLF)) = [(0%nat, 204)]).
Proof. repeat split; vm_compute; reflexivity. Qed.

(** C8 at [GET /index] on a static root that holds [index.html]: what is
    sent is the 200 head for [text/html] with the one-year cache header,
    then the file. *)
Lemma static_default_extension_witness :
  sent (log (serve_static site (peer 1 []) (page (B "/index"))
               (initial (peer 1 []))).2)
  = concat (response_head 200 (B "text/html") true) ++ B "<html></html>".
Proof.
  destruct (static_default_extension site (peer 1 []) (page (B "/index"))
              (initial (peer 1 [])))
    as (_ & Hfile & _); [reflexivity|reflexivity|].
  destruct (Hfile (B "<html></html>")) as [-> _]; [reflexivity|].
  vm_compute. reflexivity.
Defined.

(** Content types chosen for some URLs. *)
Example static_content_types :
  (static_target (B "/logo.png")).1.2 = B "image/png" ∧
  (static_target (B "/app.min.js")).1.2 = B "application/javascript" ∧
  (static_target (B "/data.json")).1.2 = B "application/json" ∧
  (static_target (B "/x.unknown")).1.2 = B "application/octet-stream" ∧
  (static_target (B "/index")).1.2 = B "text/html".
Proof. repeat split; vm_compute; reflexivity. Qed.

(** C8 as stated fails twice: a dot in an earlier segment suppresses the
    default extension, and [/] resolves to [./html/.html], not to
    [index.html]. *)
Lemma static_counterexample :
  static_target (B "/v1.2/status")
  = (B "./html/v1.2/status", B "application/octet-stream", false) ∧
  static_target (B "/") = (B "./html/.html", B "text/html", false) ∧
  site (B "./html/index.html") = Some (File (B "<html></html>")) ∧
  status_lines (run ∅ (http_get (B "/"))) = [B "HTTP/1.1 404" ++ CRLF].
Proof. repeat split; vm_compute; reflexivity. Qed.

(** [GET /led] where [/led] accepts POST only and the wildcard route
    accepts GET: a 404 from the static responder; the wildcard answers a
    path that has no route of its own. *)
Example method_mismatch_404 :
  status_lines (run led_routes (http_get (B "/led"))) = [B "HTTP/1.1 404" ++ CRLF] ∧
  status_lines (run led_routes (http_get (B "/other"))) = [B "HTTP/1.1 200" ++ CRLF].
Proof. split; vm_compute; reflexivity. Qed.

End ServerClaims.

(** ** The header loop of the client *)

Module HeaderLoop.
Import Client ClientSpec PyFacts StreamFacts ChunkedFacts.

Lemma startswith_take sep s n :
  Py.startswith sep s = true → (length sep ≤ n)%nat →
  Py.startswith sep (take n s) = true.
Proof.
  revert s n. induction sep as [|x sep IH]; intros [|y s] [|n]; simpl; auto; try lia.
  intros [-> H]%andb_prop Hl. simpl. apply IH; [done|lia].
Qed.

Lemma find_take sep : ∀ s p n,
  Py.find sep s = Some p → (p + length sep ≤ n)%nat →
  Py.find sep (take n s) = Some p.
Proof.
  induction s as [|y s IH]; intros p n.
  - simpl. destruct (Py.startswith sep []) eqn:E; [|discriminate].
    intros [= <-] _. rewrite take_nil. simpl. now rewrite E.
  - cbn [Py.find]. destruct (Py.startswith sep (y :: s)) eqn:E.
    + intros [= <-] Hl. destruct (take n (y :: s)) as [|z t] eqn:T.
      * destruct n; [|discriminate]. destruct sep; [reflexivity|simpl in Hl; lia].
      * rewrite <- T. cbn [Py.find].
        assert (Py.startswith sep (take n (y :: s)) = true) as Hs
          by (apply startswith_take; [done|lia]).
        rewrite T in *. cbn [Py.find]. now rewrite Hs.
    + destruct (Py.find sep s) as [q|] eqn:F; [|discriminate].
      intros [= <-] Hl. destruct n as [|n]; [lia|].
      cbn [take Py.find].
      destruct (Py.startswith sep (y :: take n s)) eqn:E'.
      * apply (startswith_app _ _ (drop n s)) in E'.
        simpl in E'. rewrite take_drop in E'. simpl in E. congruence.
      * rewrite (IH q n eq_refl) by lia. reflexivity.
Qed.

Lemma contains_prefix_false sep a b :
  Py.contains sep (a ++ b) = false → Py.contains sep a = false.
Proof.
  intros H. destruct (Py.contains sep a) eqn:E; [|done].
  apply (contains_app_l _ _ b) in E. congruence.
Qed.

(** Every read hands over a prefix of what is pending. *)
Lemma read_conserves n s chunk s' :
  read n s = Ok (chunk, s') →
  chunk ++ pending s' = pending s ∧ (length chunk ≤ n)%nat ∧
  (chunk = [] → (0 < n)%nat → pending s' = []).
Proof.
  unfold read, pending. rewrite <- (skip_empty_concat (segs s)).
  destruct (skip_empty (segs s)) as [|seg rest] eqn:E.
  - destruct (at_end s); [discriminate|]. intros [= <- <-]. simpl. split; [done|split; [lia|done]].
  - apply skip_empty_head in E. intros [= <- <-]. simpl. split; [|split].
    + destruct (Nat.leb_spec (length seg) n).
      * now rewrite take_ge by lia.
      * simpl. now rewrite app_assoc, take_drop.
    + rewrite length_take. lia.
    + intros Ht Hn. destruct seg; [done|]. destruct n; [lia|discriminate].
Qed.

Lemma read_header_bytes_inv : ∀ fuel hb s hb' s',
  read_header_bytes fuel hb s = Ok (hb', s') →
  hb' ++ pending s' = hb ++ pending s ∧
  (length hb' ≤ Nat.max (length hb) MAX_HEADER)%nat ∧
  (Py.contains CRLFCRLF hb' = true ∨ pending s' = []).
Proof.
  induction fuel as [|fuel IH]; intros hb s hb' s'; cbn [read_header_bytes].
  - destruct (Py.contains CRLFCRLF hb) eqn:E; [|discriminate].
    intros [= <- <-]. split; [done|]. split; [lia|auto].
  - destruct (Py.contains CRLFCRLF hb) eqn:E.
    { intros [= <- <-]. split; [done|]. split; [lia|auto]. }
    destruct (read 64 s) as [[chunk s1]| |] eqn:R; try discriminate.
    apply read_conserves in R as (Hcat & Hlen & Hnil).
    cbn [mbind result_bind]. destruct chunk as [|b chunk].
    + intros [= <- <-]. rewrite <- Hcat. split; [now rewrite Hnil by (done || lia)|].
      split; [lia|right; apply Hnil; [done|lia]].
    + destruct (Nat.ltb_spec MAX_HEADER (length (hb ++ b :: chunk))) as [Hbig|Hok];
        [discriminate|].
      intros H. apply IH in H as (Hc & Hl & Hd).
      rewrite <- app_assoc, Hcat in Hc. split; [done|]. split; [lia|done].
Qed.

Lemma read_header_bytes_found (all : bytes) p : ∀ fuel hb s,
  Py.find CRLFCRLF all = Some p →
  (p + 67 ≤ MAX_HEADER)%nat →
  hb ++ pending s = all →
  (length (pending s) < fuel)%nat →
  ∃ hb' s', read_header_bytes fuel hb s = Ok (hb', s') ∧
            hb' ++ pending s' = all ∧ at_end s' = at_end s ∧
            Py.find CRLFCRLF hb' = Some p.
Proof.
  intros fuel hb s Hfind Hp. revert hb s.
  pose proof (find_bound _ _ _ Hfind) as Hb. change (length CRLFCRLF) with 4%nat in Hb.
  induction fuel as [|fuel IH]; intros hb s Hall Hf; [lia|].
  cbn [read_header_bytes]. unfold Py.contains.
  destruct (Py.find CRLFCRLF hb) as [q|] eqn:F.
  - exists hb, s. repeat split; auto.
    pose proof (find_app_l _ _ (pending s) _ F) as F'. rewrite Hall in F'. congruence.
  - assert (length hb < p + 4)%nat as Hshort.
    { destruct (Nat.ltb_spec (length hb) (p + 4)); [done|].
      pose proof (find_take CRLFCRLF all p (length hb) Hfind) as Ht.
      rewrite <- Hall, take_app_length in Ht.
      rewrite Ht in F by (change (length CRLFCRLF) with 4%nat; lia). discriminate. }
    assert (pending s ≠ []) as Hne.
    { intros Hn. rewrite Hn, app_nil_r in Hall. subst all. lia. }
    destruct (read_data 64 s Hne) as (c & s1 & -> & Hc & Hn & Hcat & Hend); [lia|].
    cbn [mbind result_bind]. destruct c as [|b c]; [done|].
    destruct (Nat.ltb_spec MAX_HEADER (length (hb ++ b :: c))) as [Hbig|Hok].
    { rewrite length_app in Hbig. lia. }
    destruct (IH (hb ++ b :: c) s1) as (hb' & s' & -> & H1 & H2 & H3).
    + now rewrite <- app_assoc, Hcat.
    + rewrite <- Hcat, length_app in Hf. simpl in Hf. lia.
    + exists hb', s'. repeat split; auto. congruence.
Qed.

Lemma read_header_bytes_too_large (all : bytes) : ∀ fuel hb s,
  Py.contains CRLFCRLF (take MAX_HEADER all) = false →
  (MAX_HEADER < length all)%nat →
  hb ++ pending s = all →
  (length hb ≤ MAX_HEADER)%nat →
  (MAX_HEADER - length hb < fuel)%nat →
  read_header_bytes fuel hb s = Raise (ValueError (B "Header too large")).
Proof.
  induction fuel as [|fuel IH]; intros hb s Hc Hl Hall Hhb Hf; [lia|].
  cbn [read_header_bytes].
  assert (Py.contains CRLFCRLF hb = false) as ->.
  { apply (contains_prefix_false _ _ (take (MAX_HEADER - length hb) (pending s))).
    rewrite <- Hall in Hc. rewrite take_app in Hc.
    now rewrite take_ge in Hc by lia. }
  assert (pending s ≠ []) as Hne.
  { intros Hn. rewrite Hn, app_nil_r in Hall. subst all. lia. }
  destruct (read_data 64 s Hne) as (c & s1 & -> & Hcn & Hn & Hcat & Hend); [lia|].
  cbn [mbind result_bind]. destruct c as [|b c]; [done|].
  destruct (Nat.ltb_spec MAX_HEADER (length (hb ++ b :: c))) as [Hbig|Hok]; [done|].
  apply IH; auto.
  - now rewrite <- app_assoc, Hcat.
  - rewrite length_app in *. simpl in *. lia.
Qed.

End HeaderLoop.

(** ** The URL *)

Module ClientMore.
Import Client ClientSpec PyFacts StreamFacts ChunkedFacts HeaderLoop.

(** *** URL parse *)

Lemma find_byte_take_none (x : byte) : ∀ s p,
  Py.find [x] s = Some p → Py.find [x] (take p s) = None.
Proof.
  induction s as [|y s IH]; intros p; simpl; [discriminate|].
  destruct (bool_decide (x = y)) eqn:E; simpl.
  - now intros [= <-].
  - destruct (Py.find [x] s) as [q|] eqn:F; [|discriminate].
    intros [= <-]. simpl. rewrite E. simpl. now rewrite (IH q).
Qed.

Lemma find_byte_drop (x : byte) : ∀ s p,
  Py.find [x] s = Some p → drop p s = x :: drop (S p) s.
Proof.
  induction s as [|y s IH]; intros p; simpl; [discriminate|].
  destruct (bool_decide (x = y)) eqn:E; simpl.
  - intros [= <-]. apply bool_decide_eq_true in E as ->. reflexivity.
  - destruct (Py.find [x] s) as [q|] eqn:F; [|discriminate].
    intros [= <-]. simpl. now apply IH.
Qed.

Lemma split_once_shape (x : byte) (s : bytes) :
  match Py.split_once [x] s with
  | Some (a, b) => Py.contains [x] a = false ∧ s = a ++ x :: b
  | None => Py.contains [x] s = false
  end.
Proof.
  unfold Py.split_once, Py.contains.
  destruct (Py.find [x] s) as [p|] eqn:F; [|done].
  rewrite (find_byte_take_none _ _ _ F). split; [done|].
  rewrite <- (take_drop p s) at 1. f_equal.
  rewrite (find_byte_drop _ _ _ F). simpl. do 2 f_equal. lia.
Qed.

Lemma split_once_join (x : byte) (a b : bytes) :
  Py.contains [x] a = false → Py.split_once [x] (a ++ x :: b) = Some (a, b).
Proof.
  unfold Py.contains, Py.split_once.
  destruct (Py.find [x] a) eqn:F; [discriminate|]. intros _.
  rewrite (ServerClaims.find_byte_app _ _ _ F).
  rewrite take_app_length, drop_app_ge by (simpl; lia).
  replace (length a + length [x] - length a)%nat with 1%nat by (simpl; lia).
  reflexivity.
Qed.

Lemma split_once_none (x : byte) (a : bytes) :
  Py.contains [x] a = false → Py.split_once [x] a = None.
Proof.
  unfold Py.contains, Py.split_once. now destruct (Py.find [x] a).
Qed.

(** X1.  Whatever the URL, the path sent starts with a slash, the host holds
    none, and the port is 443 exactly when the URL starts with [https://],
    80 otherwise; host and path together are the URL without its scheme
    (with the slash added when the URL has no path). *)
Theorem parse_url_shape (url : str) :
  let '(use_ssl, host, port, path) := parse_url url in
  Py.startswith (B "/") path = true ∧
  Py.contains (B "/") host = false ∧
  use_ssl = Py.startswith (B "https://") url ∧
  port = (if use_ssl then 443 else 80) ∧
  ∃ scheme, scheme ∈ [B "https://"; B "http://"; []] ∧
            (scheme ++ host ++ path = url ∨ scheme ++ host ++ path = url ++ B "/").
Proof.
  unfold parse_url.
  assert (∀ u, let r := match Py.split_once (B "/") u with
                        | Some (host, path) => (host, B "/" ++ path)
                        | None => (u, B "/")
                        end in
               Py.startswith (B "/") r.2 = true ∧ Py.contains (B "/") r.1 = false ∧
               (r.1 ++ r.2 = u ∨ r.1 ++ r.2 = u ++ B "/")) as Hsplit.
  { intros u. pose proof (split_once_shape x2f u) as H.
    change (B "/") with [x2f].
    destruct (Py.split_once [x2f] u) as [[a b]|]; cbn [fst snd].
    - destruct H as [H ->]. auto.
    - auto. }
  assert (∀ pre u, Py.startswith pre u = true → pre ++ drop (length pre) u = u) as Hpre.
  { induction pre as [|a pre IH]; intros [|b u]; simpl; try done.
    intros [->%bool_decide_eq_true H]%andb_prop. f_equal. now apply IH. }
  destruct (Py.startswith (B "https://") url) eqn:E1;
    [|destruct (Py.startswith (B "http://") url) eqn:E2].
  - specialize (Hsplit (drop 8 url)). apply Hpre in E1. change (length _) with 8%nat in E1.
    destruct (Py.split_once (B "/") (drop 8 url)) as [[host path]|];
      cbn [fst snd] in Hsplit; destruct Hsplit as (H1 & H2 & H3);
      (repeat split; auto; exists (B "https://"); split; [rewrite !elem_of_cons; auto|]).
    + destruct H3 as [H3|H3]; [left|right].
      * etransitivity; [|exact E1]. f_equal; exact H3.
      * etransitivity; [|exact (f_equal (λ u, u ++ B "/") E1)].
        cbv beta. rewrite <- app_assoc. f_equal; exact H3.
    + destruct H3 as [H3|H3]; [left|right].
      * etransitivity; [|exact E1]. f_equal; exact H3.
      * etransitivity; [|exact (f_equal (λ u, u ++ B "/") E1)].
        cbv beta. rewrite <- app_assoc. f_equal; exact H3.
  - specialize (Hsplit (drop 7 url)). apply Hpre in E2. change (length _) with 7%nat in E2.
    destruct (Py.split_once (B "/") (drop 7 url)) as [[host path]|];
      cbn [fst snd] in Hsplit; destruct Hsplit as (H1 & H2 & H3);
      (repeat split; auto; exists (B "http://"); split; [rewrite !elem_of_cons; auto|]).
    + destruct H3 as [H3|H3]; [left|right].
      * etransitivity; [|exact E2]. f_equal; exact H3.
      * etransitivity; [|exact (f_equal (λ u, u ++ B "/") E2)].
        cbv beta. rewrite <- app_assoc. f_equal; exact H3.
    + destruct H3 as [H3|H3]; [left|right].
      * etransitivity; [|exact E2]. f_equal; exact H3.
      * etransitivity; [|exact (f_equal (λ u, u ++ B "/") E2)].
        cbv beta. rewrite <- app_assoc. f_equal; exact H3.
  - specialize (Hsplit url).
    destruct (Py.split_once (B "/") url) as [[host path]|];
      cbn [fst snd] in Hsplit; destruct Hsplit as (H1 & H2 & H3);
      (repeat split; auto; exists []; split; [rewrite !elem_of_cons; auto|]); exact H3.
Qed.

Lemma parse_url_http (host rest : str) :
  Py.contains (B "/") host = false →
  parse_url (B "http://" ++ host ++ B "/" ++ rest) = (false, host, 80, B "/" ++ rest).
Proof.
  intros H. change (B "/") with [x2f] in *. unfold parse_url.
  change (Py.startswith (B "https://") (B "http://" ++ ?u)) with false.
  change (Py.startswith (B "http://") (B "http://" ++ ?u)) with true.
  change (drop 7 (B "http://" ++ ?u)) with u.
  cbv iota. change ([x2f] ++ rest) with (x2f :: rest). change (B "/") with [x2f].
  now rewrite (split_once_join _ _ _ H).
Qed.

(** X2.  A URL built from a scheme, a host without slash and a path is taken
    apart into exactly these; without a path the path is [/]. *)
Theorem parse_url_roundtrip (host rest : str) :
  Py.contains (B "/") host = false →
  parse_url (B "http://" ++ host ++ B "/" ++ rest) = (false, host, 80, B "/" ++ rest) ∧
  parse_url (B "https://" ++ host ++ B "/" ++ rest) = (true, host, 443, B "/" ++ rest) ∧
  parse_url (B "http://" ++ host) = (false, host, 80, B "/") ∧
  parse_url (B "https://" ++ host) = (true, host, 443, B "/").
Proof.
  intros H. change (B "/") with [x2f] in *.
  unfold parse_url.
  change (Py.startswith (B "https://") (B "http://" ++ ?u)) with false.
  change (Py.startswith (B "http://") (B "http://" ++ ?u)) with true.
  change (Py.startswith (B "https://") (B "https://" ++ ?u)) with true.
  change (drop 7 (B "http://" ++ ?u)) with u.
  change (drop 8 (B "https://" ++ ?u)) with u.
  cbv iota. change ([x2f] ++ rest) with (x2f :: rest).
  change (B "/") with [x2f].
  rewrite (split_once_join _ _ _ H), (split_once_none _ _ H). done.
Qed.

Lemma parse_url_roundtrip_witness :
  parse_url (B "http://api.open-meteo.com/v1/forecast?latitude=45.0395")
  = (false, B "api.open-meteo.com", 80, B "/v1/forecast?latitude=45.0395").
Proof.
  destruct (parse_url_roundtrip (B "api.open-meteo.com")
              (B "v1/forecast?latitude=45.0395")) as (H & _); [reflexivity|].
  exact H.
Defined.

(** *** No attempt at all *)

(** X26.  With [retries] zero or negative no connection is opened and the call
    returns [None] instead of a response. *)
Theorem no_retries_returns_none (net : network) (fuel : nat) (url : str)
    (retries : Z) (fallback_buffer_size : option Z) :
  retries ≤ 0 →
  http_client net fuel url retries fallback_buffer_size = (Ok None, []).
Proof.
  intros Hr. unfold http_client.
  destruct (parse_url url) as [[[use_ssl host] port] path].
  replace (Z.to_nat retries) with 0%nat by lia. reflexivity.
Qed.

Lemma no_retries_returns_none_witness :
  http_client net_reset 8 (B "http://device.local/status") (-1) None = (Ok None, []).
Proof. apply no_retries_returns_none. lia. Defined.

End ClientMore.

(** ** The header block and the unbounded strategy *)

Module ClientHeader.
Import Client ClientSpec PyFacts StreamFacts ChunkedFacts HeaderLoop
       ClientMore.

(** *** The header block *)

(** X3.  Whenever the header loop hands over a block, the block is at most
    [MAX_HEADER] bytes long, it is a prefix of what the peer sent (nothing
    is lost or reordered), and the loop stopped either on the blank line or
    at the end of the stream. *)
Theorem header_block_bounded fuel s header_bytes s' :
  read_header_bytes fuel [] s = Ok (header_bytes, s') →
  (length header_bytes ≤ MAX_HEADER)%nat ∧
  header_bytes ++ pending s' = pending s ∧
  (Py.contains CRLFCRLF header_bytes = true ∨ pending s' = []).
Proof.
  intros H. apply read_header_bytes_inv in H as (Hc & Hl & Hd).
  simpl in Hl. auto.
Qed.

Lemma header_block_bounded_witness :
  let s := stream_of [B "HTTP/1.1 200 OK" ++ CRLF; CRLF ++ B "hi"; B "!"] in
  let s' := stream_of [B "!"] in
  let header_bytes := B "HTTP/1.1 200 OK" ++ CRLFCRLF ++ B "hi" in
  (length header_bytes ≤ MAX_HEADER)%nat ∧
  header_bytes ++ pending s' = pending s ∧
  (Py.contains CRLFCRLF header_bytes = true ∨ pending s' = []).
Proof.
  apply (header_block_bounded 8). vm_compute. reflexivity.
Defined.

(** X4.  When the first [MAX_HEADER] bytes that arrive hold no blank line and
    more bytes follow, the attempt fails with "Header too large", however
    the bytes are spread over the reads. *)
Theorem header_too_large fuel fallback_buffer_size t :
  connect_error t = None →
  Py.contains CRLFCRLF (take MAX_HEADER (pending (incoming t))) = false →
  (MAX_HEADER < length (pending (incoming t)))%nat →
  (MAX_HEADER < fuel)%nat →
  single_request fuel fallback_buffer_size t
  = Raise (ValueError (B "Header too large")).
Proof.
  intros Hc Hn Hl Hf. unfold single_request. rewrite Hc.
  rewrite (read_header_bytes_too_large (pending (incoming t))); auto; simpl; lia.
Qed.

Lemma header_too_large_witness :
  single_request 2049 None (delivers [repeat x41 2000; repeat x41 49])
  = Raise (ValueError (B "Header too large")).
Proof.
  apply header_too_large.
  - reflexivity.
  - vm_compute. reflexivity.
  - apply Nat.ltb_lt. vm_compute. reflexivity.
  - unfold MAX_HEADER. lia.
Defined.

(** X5.  When the blank line ends within the first [MAX_HEADER - 63] bytes, the
    status and the headers are read from the bytes before it and the body
    reader is given exactly the bytes after it -- some already read, the
    others still pending -- however the response is spread over the
    reads. *)
Theorem header_split fuel fallback_buffer_size t p :
  connect_error t = None →
  Py.find CRLFCRLF (pending (incoming t)) = Some p →
  (p + 67 ≤ MAX_HEADER)%nat →
  (length (pending (incoming t)) < fuel)%nat →
  Py.utf8_valid (take p (pending (incoming t))) = true →
  ∃ remaining s',
    remaining ++ pending s' = drop (p + 4) (pending (incoming t)) ∧
    at_end s' = at_end (incoming t) ∧
    let lines := Py.split CRLF (take p (pending (incoming t))) in
    single_request fuel fallback_buffer_size t =
      body ← read_body fuel (parse_headers lines) fallback_buffer_size remaining s';
      Ok {| status_code := parse_status lines;
            headers := Some (parse_headers lines);
            body := body |}.
Proof.
  intros Hc Hfind Hp Hf Hv.
  destruct (read_header_bytes_found (pending (incoming t)) p fuel [] (incoming t))
    as (hb & s' & Hr & Hcat & Hend & Hfb); auto.
  pose proof (find_bound _ _ _ Hfb) as Hb. change (length CRLFCRLF) with 4%nat in Hb.
  exists (drop (p + 4) hb), s'. split; [|split; [done|]].
  - rewrite <- Hcat. now rewrite drop_app_le by lia.
  - cbv zeta. unfold single_request. rewrite Hc, Hr. cbn [mbind result_bind].
    unfold Py.partition. rewrite Hfb.
    assert (take p hb = take p (pending (incoming t))) as ->
      by (rewrite <- Hcat; now rewrite take_app_le by lia).
    change (length CRLFCRLF) with 4%nat.
    unfold decode at 1. rewrite Hv. reflexivity.
Qed.

Lemma header_split_witness :
  ∃ remaining s',
    remaining ++ pending s' = B "hello" ∧ at_end s' = None ∧
    single_request 64 None
      (delivers [B "HTTP/1.1 200 OK" ++ CRLF ++ B "X: y" ++ CRLF; CRLF ++ B "he"; B "llo"])
    = body ← read_body 64 (parse_headers [B "HTTP/1.1 200 OK"; B "X: y"]) None
               remaining s';
      Ok {| status_code := 200;
            headers := Some (parse_headers [B "HTTP/1.1 200 OK"; B "X: y"]);
            body := body |}.
Proof.
  destruct (header_split 64 None
    (delivers [B "HTTP/1.1 200 OK" ++ CRLF ++ B "X: y" ++ CRLF; CRLF ++ B "he"; B "llo"])
    21) as (remaining & s' & H1 & H2 & H3).
  - reflexivity.
  - vm_compute. reflexivity.
  - vm_compute. lia.
  - vm_compute. lia.
  - vm_compute. reflexivity.
  - exists remaining, s'. split; [exact H1|]. split; [exact H2|exact H3].
Defined.

(** *** The unbounded strategy *)

Lemma utf8_valid_ascii p : forallb is_ascii p = true → Py.utf8_valid p = true.
Proof.
  unfold Py.utf8_valid. induction p as [|b p IH]; [done|].
  cbn [forallb Py.utf8_scan]. unfold is_ascii at 1.
  intros [-> H]%andb_prop. auto.
Qed.

Lemma forallb_app_inv {A} (f : A → bool) (a b : list A) :
  forallb f (a ++ b) = true → forallb f a = true ∧ forallb f b = true.
Proof. rewrite forallb_app. apply andb_prop. Qed.

Lemma decode_inv p text : decode p = Ok text → text = p.
Proof. unfold decode. destruct (Py.utf8_valid p); [|discriminate]. now intros [= <-]. Qed.

Lemma fill_dynamic_inv : ∀ fuel parts s parts',
  fill_dynamic fuel parts s = Ok parts' →
  concat parts' = concat parts ++ pending s.
Proof.
  induction fuel as [|fuel IH]; intros parts s parts'; [discriminate|].
  cbn [fill_dynamic].
  destruct (read READ_SIZE s) as [[chunk s1]| |] eqn:R; try discriminate.
  apply read_conserves in R as (Hcat & _ & Hnil).
  cbn [mbind result_bind]. destruct chunk as [|b chunk].
  - intros [= <-]. rewrite <- Hcat, Hnil; [now rewrite !app_nil_r|done|unfold READ_SIZE; lia].
  - destruct (decode (b :: chunk)) as [text| |] eqn:D; try discriminate.
    apply decode_inv in D as ->. cbn [mbind result_bind].
    intros H%IH. rewrite H, concat_app. simpl. rewrite app_nil_r, <- app_assoc.
    now rewrite <- Hcat.
Qed.

Lemma fill_dynamic_ascii : ∀ fuel parts s,
  at_end s = None → forallb is_ascii (pending s) = true →
  (length (pending s) < fuel)%nat →
  ∃ parts', fill_dynamic fuel parts s = Ok parts'.
Proof.
  induction fuel as [|fuel IH]; intros parts s He Ha Hf; [lia|].
  cbn [fill_dynamic]. destruct (decide (pending s = [])) as [Hp|Hp].
  - destruct (read_eof READ_SIZE s Hp He) as (s' & -> & _). simpl. eauto.
  - destruct (read_data READ_SIZE s Hp) as (c & s' & -> & Hc & Hn & Hcat & Hend);
      [unfold READ_SIZE; lia|].
    cbn [mbind result_bind]. destruct c as [|b c]; [done|].
    rewrite <- Hcat in Ha, Hf. apply forallb_app_inv in Ha as [Ha1 Ha2].
    unfold decode. rewrite (utf8_valid_ascii _ Ha1). cbn [mbind result_bind].
    apply IH; [congruence|done|]. rewrite length_app in Hf. simpl in Hf. lia.
Qed.

Lemma body_dynamic_inv fuel remaining s body :
  body_dynamic fuel remaining s = Ok body → body = remaining ++ pending s.
Proof.
  unfold body_dynamic. destruct remaining as [|b r].
  - cbn [mbind result_bind].
    destruct (fill_dynamic fuel [] s) as [parts| |] eqn:F; try discriminate.
    apply fill_dynamic_inv in F. simpl in *. now intros [= <-].
  - destruct (decode (b :: r)) as [text| |] eqn:D; try discriminate.
    apply decode_inv in D as ->. cbn [mbind result_bind].
    destruct (fill_dynamic fuel _ s) as [parts| |] eqn:F; try discriminate.
    apply fill_dynamic_inv in F. cbn [mbind result_bind].
    intros [= <-]. rewrite F. simpl. now rewrite app_nil_r.
Qed.

Lemma body_dynamic_ascii fuel remaining s :
  at_end s = None → (length (pending s) < fuel)%nat →
  forallb is_ascii (remaining ++ pending s) = true →
  body_dynamic fuel remaining s = Ok (remaining ++ pending s).
Proof.
  intros He Hf Ha. apply forallb_app_inv in Ha as [Ha1 Ha2].
  assert (∃ body, body_dynamic fuel remaining s = Ok body) as [body Hb].
  { unfold body_dynamic. destruct remaining as [|b r].
    - cbn [mbind result_bind].
      destruct (fill_dynamic_ascii fuel [] s) as [parts ->]; auto. simpl. eauto.
    - unfold decode. rewrite (utf8_valid_ascii _ Ha1). cbn [mbind result_bind].
      destruct (fill_dynamic_ascii fuel [b :: r] s) as [parts ->]; auto. simpl. eauto. }
  rewrite Hb. f_equal. now apply body_dynamic_inv in Hb.
Qed.

Lemma select_dynamic headers fallback_buffer_size :
  chunked headers = false →
  headers !! B "content-length" = None ∨ headers !! B "content-length" = Some [] →
  fallback_buffer_size = None ∨ fallback_buffer_size = Some 0 →
  select_strategy headers fallback_buffer_size = Dynamic.
Proof.
  intros Hc Hl Hfb. unfold select_strategy. unfold chunked in Hc. rewrite Hc.
  destruct Hl as [-> | ->], Hfb as [-> | ->]; reflexivity.
Qed.

(** X6.  With neither chunked framing nor a usable [Content-Length] and no
    positive [fallback_buffer_size], the body is read to the end of the
    stream: an ASCII body is returned in full, and whatever the attempt
    returns is the whole body, whatever the reads were. *)
Theorem dynamic_body fuel headers fallback_buffer_size remaining s :
  chunked headers = false →
  headers !! B "content-length" = None ∨ headers !! B "content-length" = Some [] →
  fallback_buffer_size = None ∨ fallback_buffer_size = Some 0 →
  let total := remaining ++ pending s in
  let run := read_body fuel headers fallback_buffer_size remaining s in
  (at_end s = None → (length (pending s) < fuel)%nat →
   forallb is_ascii total = true → run = Ok total) ∧
  (∀ body, run = Ok body → body = total).
Proof.
  intros Hc Hl Hfb total run. unfold run, read_body.
  rewrite select_dynamic by done. split.
  - apply body_dynamic_ascii.
  - apply body_dynamic_inv.
Qed.

Lemma dynamic_body_witness :
  read_body 8 ∅ None (B "he") (stream_of [B "l"; B "lo"]) = Ok (B "hello").
Proof.
  destruct (dynamic_body 8 ∅ None (B "he") (stream_of [B "l"; B "lo"]))
    as [Hok _]; [reflexivity|left; reflexivity|left; reflexivity|].
  apply Hok; [reflexivity|vm_compute; lia|reflexivity].
Defined.

(** *** Repeated headers *)

(** X7.  Of several header lines with the same name, whatever its letter case,
    the last one is the one the client keeps. *)
Theorem header_last_wins (l0 : str) (ls : list str) (k v : str) :
  Py.contains (B ":") k = false →
  parse_headers (l0 :: ls ++ [k ++ B ":" ++ v]) !! Py.strip (Py.lower k)
  = Some (Py.strip v).
Proof.
  intros H. unfold parse_headers. cbn [tail]. rewrite foldl_app. cbn [foldl].
  unfold add_header at 1. change (B ":") with [x3a] in *.
  change ([x3a] ++ v) with (x3a :: v).
  rewrite (split_once_join _ _ _ H). apply lookup_insert_eq.
Qed.

Lemma header_last_wins_witness :
  parse_headers [B "HTTP/1.1 200 OK"; B "Content-Length: 5"; B "content-length: 7"]
    !! B "content-length" = Some (B "7").
Proof.
  apply (header_last_wins (B "HTTP/1.1 200 OK") [B "Content-Length: 5"]
           (B "content-length") (B " 7")).
  reflexivity.
Defined.

End ClientHeader.

(** ** Further facts about the builtins *)

Module PyMore.
Import ClientSpec PyFacts.

(** *** Decimal numerals *)

Lemma digits_fuel_digit (b : nat) fuel n :
  (0 < b ≤ 16)%nat → Forall hexdigit (Py.digits_fuel fuel b n).
Proof.
  intros Hb. revert n. induction fuel as [|fuel IH]; intros n;
    cbn [Py.digits_fuel]; [constructor|].
  apply Forall_app. split.
  - destruct (n / b =? 0)%nat; [constructor|apply IH].
  - constructor; [|constructor]. exists (n mod b)%nat. split; [|done].
    assert (n mod b < b)%nat by (apply Nat.mod_upper_bound; lia). lia.
Qed.

Lemma parse_digits_fuel_base (b : nat) fuel :
  (2 ≤ b ≤ 16)%nat → ∀ n, (n < fuel)%nat →
  Py.parse_digits (Z.of_nat b) 0 (Py.digits_fuel fuel b n) = Some (Z.of_nat n).
Proof.
  intros Hb. induction fuel as [|fuel IH]; intros n Hn; [lia|].
  cbn [Py.digits_fuel]. rewrite parse_digits_snoc.
  assert (n mod b < b)%nat as Hm by (apply Nat.mod_upper_bound; lia).
  pose proof (digit_val_digit_char (n mod b) ltac:(lia)) as Hv.
  pose proof (Nat.div_mod_eq n b) as Hdm.
  destruct (Nat.eqb_spec (n / b) 0) as [Hz|Hz].
  - cbn [app Py.parse_digits mbind option_bind]. rewrite Hv.
    destruct (Z.ltb_spec (Z.of_nat (n mod b)) (Z.of_nat b)); [|lia].
    f_equal. rewrite Hz in Hdm. lia.
  - rewrite IH.
    + cbn [app Py.parse_digits mbind option_bind]. rewrite Hv.
      destruct (Z.ltb_spec (Z.of_nat (n mod b)) (Z.of_nat b)); [|lia].
      f_equal. rewrite Hdm at 3. lia.
    + assert (n / b < n)%nat by (apply Nat.div_lt; lia). lia.
Qed.

Lemma digits_nonempty b n : Py.digits b n ≠ [].
Proof.
  unfold Py.digits. cbn [Py.digits_fuel]. intros E.
  apply app_eq_nil in E as [_ E]. discriminate.
Qed.

Lemma hexdigit_nospace b : hexdigit b → Py.isspace b = false.
Proof. intros H. now destruct (hexdigit_val _ H) as (? & ? & ? & ? & _). Qed.

Lemma strip_nospace (s : bytes) :
  Forall (λ b, Py.isspace b = false) s → Py.strip s = s.
Proof.
  intros Hs. unfold Py.strip, Py.rstrip.
  assert (Hl : ∀ t, Forall (λ b, Py.isspace b = false) t → Py.lstrip t = t).
  { intros [|b t] Ht; [reflexivity|]. apply lstrip_head.
    now apply Forall_cons in Ht as [Hb _]. }
  rewrite (Hl s Hs), Hl; [apply rev_involutive|].
  now apply Forall_rev.
Qed.

Lemma strip_radix_10 (s : bytes) : Py.strip_radix_prefix 10 s = s.
Proof.
  destruct s as [|b0 [|b1 s]]; try reflexivity.
  simpl. now rewrite andb_false_r.
Qed.

Lemma str_of_Z_chars n :
  Forall (λ b, hexdigit b ∨ b = x2d) (Py.str_of_Z n) ∧ Py.str_of_Z n ≠ [].
Proof.
  unfold Py.str_of_Z. destruct (n <? 0).
  - split; [|discriminate]. constructor; [now right|].
    eapply Forall_impl; [apply (digits_fuel_digit 10); lia|]. now left.
  - split; [|apply digits_nonempty].
    eapply Forall_impl; [apply (digits_fuel_digit 10); lia|]. now left.
Qed.

Lemma str_of_Z_nospace n : Forall (λ b, Py.isspace b = false) (Py.str_of_Z n).
Proof.
  eapply Forall_impl; [apply str_of_Z_chars|].
  intros b [H| ->]; [now apply hexdigit_nospace|reflexivity].
Qed.

Lemma str_of_Z_no_cr n : CR ∉ Py.str_of_Z n.
Proof.
  intros Hin. destruct (str_of_Z_chars n) as [H _].
  rewrite Forall_forall in H. destruct (H _ Hin) as [Hh|]; [|discriminate].
  now destruct (hexdigit_val _ Hh) as (_ & _ & _ & _ & Hcr & _).
Qed.

Lemma str_of_Z_ascii n : forallb is_ascii (Py.str_of_Z n) = true.
Proof.
  apply forallb_forall. intros b Hin%list_elem_of_In.
  destruct (str_of_Z_chars n) as [H _].
  rewrite Forall_forall in H. destruct (H _ Hin) as [(d & Hd & ->)| ->]; [|reflexivity].
  do 16 (destruct d as [|d]; [reflexivity|]). lia.
Qed.

(** [int(str(n))] is [n]. *)
Lemma int_of_str_of_Z n : Py.int_of 10 (Py.str_of_Z n) = Some n.
Proof.
  unfold Py.int_of. rewrite strip_nospace by apply str_of_Z_nospace.
  unfold Py.str_of_Z, Py.digits.
  destruct (Z.ltb_spec n 0) as [Hneg|Hpos].
  - rewrite bool_decide_eq_true_2 by done. rewrite strip_radix_10.
    pose proof (digits_nonempty 10 (Z.to_nat (- n))) as Hne. unfold Py.digits in Hne.
    pose proof (parse_digits_fuel_base 10 (S (Z.to_nat (- n))) ltac:(lia)
                  (Z.to_nat (- n)) ltac:(lia)) as Hp.
    change (Z.of_nat 10) with 10 in Hp.
    destruct (Py.digits_fuel _ 10 _) as [|b0 s]; [done|].
    rewrite Hp. simpl. f_equal. lia.
  - pose proof (digits_nonempty 10 (Z.to_nat n)) as Hne. unfold Py.digits in Hne.
    pose proof (parse_digits_fuel_base 10 (S (Z.to_nat n)) ltac:(lia)
                  (Z.to_nat n) ltac:(lia)) as Hp.
    change (Z.of_nat 10) with 10 in Hp.
    pose proof (digits_fuel_digit 10 (S (Z.to_nat n)) (Z.to_nat n) ltac:(lia)) as Hh.
    destruct (Py.digits_fuel _ 10 _) as [|b0 s]; [done|].
    apply Forall_cons in Hh as [Hb0 _].
    destruct (hexdigit_val _ Hb0) as (_ & _ & _ & _ & _ & Hm & Hpl & _).
    rewrite !bool_decide_eq_false_2 by done.
    rewrite strip_radix_10, Hp. simpl. f_equal. lia.
Qed.

(** *** Splitting and joining *)

Lemma startswith_self_app (sep rest : bytes) : Py.startswith sep (sep ++ rest) = true.
Proof.
  induction sep as [|x sep IH]; [done|]. simpl.
  now rewrite bool_decide_eq_true_2, IH.
Qed.

Lemma find_sep_line (x : byte) (sep' line rest : bytes) :
  x ∉ line →
  Py.find (x :: sep') (line ++ (x :: sep') ++ rest) = Some (length line).
Proof.
  induction line as [|b line IH]; intros Hx.
  - cbn [app length Py.find Py.startswith].
    rewrite bool_decide_eq_true_2 by done. now rewrite startswith_self_app.
  - apply not_elem_of_cons in Hx as [Hb Hl].
    specialize (IH Hl). cbn [app] in IH.
    cbn [app length Py.find Py.startswith].
    rewrite bool_decide_eq_false_2 by congruence. cbn [andb].
    now rewrite IH.
Qed.

Lemma find_sep_none (x : byte) (sep' line : bytes) :
  x ∉ line → Py.find (x :: sep') line = None.
Proof.
  induction line as [|b line IH]; intros Hx; [reflexivity|].
  apply not_elem_of_cons in Hx as [Hb Hl].
  cbn [Py.find Py.startswith].
  rewrite bool_decide_eq_false_2 by congruence. cbn [andb].
  now rewrite (IH Hl).
Qed.

Lemma join_cons2 sep p q ps : Py.join sep (p :: q :: ps) = p ++ sep ++ Py.join sep (q :: ps).
Proof. reflexivity. Qed.

Lemma split_fuel_join (x : byte) (sep' : bytes) : ∀ parts fuel,
  parts ≠ [] → Forall (λ p, x ∉ p) parts → (length parts ≤ fuel)%nat →
  Py.split_fuel fuel (x :: sep') (Py.join (x :: sep') parts) = parts.
Proof.
  induction parts as [|p [|q ps] IH]; intros fuel Hne Hall Hf; [done| |].
  - destruct fuel; [simpl in Hf; lia|]. cbn [Py.join Py.split_fuel].
    apply Forall_cons in Hall as [Hp _]. now rewrite find_sep_none.
  - destruct fuel; [simpl in Hf; lia|]. rewrite join_cons2. cbn [Py.split_fuel].
    apply Forall_cons in Hall as [Hp Hall].
    rewrite find_sep_line by done.
    rewrite take_app_length, drop_app_ge by lia.
    rewrite drop_app_ge by lia.
    replace (length p + length (x :: sep') - length p - length (x :: sep'))%nat
      with 0%nat by lia.
    rewrite drop_0, IH; [done|done|done|simpl in *; lia].
Qed.

Lemma join_length (sep : bytes) (parts : list bytes) :
  sep ≠ [] → (length parts ≤ S (length (Py.join sep parts)))%nat.
Proof.
  intros Hs. induction parts as [|p [|q ps] IH]; [simpl; lia|simpl; lia|].
  rewrite join_cons2, !length_app.
  assert (0 < length sep)%nat by (destruct sep; [done|simpl; lia]).
  simpl in *. lia.
Qed.

(** [sep.join(parts).split(sep)] gives the parts back when none of them
    holds the first byte of the separator. *)
Lemma split_join (x : byte) (sep' : bytes) (parts : list bytes) :
  parts ≠ [] → Forall (λ p, x ∉ p) parts →
  Py.split (x :: sep') (Py.join (x :: sep') parts) = parts.
Proof.
  intros Hne Hall. unfold Py.split. apply split_fuel_join; auto.
  apply join_length. discriminate.
Qed.

(** *** White space *)

Lemma split_ws_aux_token (tok : bytes) : ∀ cur,
  Forall (λ b, Py.isspace b = false) tok →
  Py.split_ws_aux cur tok = match cur ++ tok with [] => [] | t => [t] end.
Proof.
  induction tok as [|b tok IH]; intros cur Hs.
  - simpl. rewrite app_nil_r. now destruct cur.
  - apply Forall_cons in Hs as [Hb Hs]. cbn [Py.split_ws_aux]. rewrite Hb.
    rewrite IH by done. now rewrite <- app_assoc.
Qed.

Lemma split_ws_aux_space (tok rest : bytes) (w : byte) : ∀ cur,
  Forall (λ b, Py.isspace b = false) tok → Py.isspace w = true →
  Py.split_ws_aux cur (tok ++ w :: rest)
  = match cur ++ tok with
    | [] => Py.split_ws_aux [] rest
    | t => t :: Py.split_ws_aux [] rest
    end.
Proof.
  induction tok as [|b tok IH]; intros cur Hs Hw.
  - cbn [app Py.split_ws_aux]. rewrite Hw, app_nil_r. now destruct cur.
  - apply Forall_cons in Hs as [Hb Hs]. cbn [app Py.split_ws_aux]. rewrite Hb.
    rewrite IH by done. now rewrite <- app_assoc.
Qed.

End PyMore.

(** ** The head on the wire *)

Module Wire.
Import Client ClientSpec PyFacts StreamFacts ChunkedFacts HeaderLoop
       ClientMore ClientHeader PyMore.
Import ServerSpec.

Lemma find_skip_line (l : bytes) (b : byte) (R : bytes) :
  CR ∉ l → b ≠ CR →
  Py.find CRLFCRLF (l ++ CRLF ++ b :: R)
  = (λ q, length l + 2 + q)%nat <$> Py.find CRLFCRLF (b :: R).
Proof.
  intros Hl Hb. induction l as [|a l IH].
  - cbn [app length CRLF]. 
    change (Py.find CRLFCRLF (CR :: LF :: b :: R))
      with (if Py.startswith CRLFCRLF (CR :: LF :: b :: R) then Some 0%nat
            else S <$> (S <$> Py.find CRLFCRLF (b :: R))).
    assert (Py.startswith CRLFCRLF (CR :: LF :: b :: R) = false) as ->.
    { unfold CRLFCRLF. cbn [Py.startswith].
      rewrite (bool_decide_eq_false_2 (CR = b)) by (intros E; now apply Hb).
      now rewrite andb_false_r. }
    now destruct (Py.find CRLFCRLF (b :: R)).
  - apply not_elem_of_cons in Hl as [Ha Hl]. specialize (IH Hl).
    set (f := Py.find CRLFCRLF (b :: R)) in *.
    cbn [app length] in *. cbn [Py.find]. unfold CRLFCRLF at 1. cbn [Py.startswith].
    rewrite bool_decide_eq_false_2 by congruence. cbn [andb].
    rewrite IH. destruct f; reflexivity.
Qed.

(** The blank line that ends a head of non-empty lines is the first one. *)
Lemma find_blank_line (lines : list bytes) (body : bytes) :
  lines ≠ [] → Forall (λ l, l ≠ [] ∧ CR ∉ l) lines →
  Py.find CRLFCRLF (Py.join CRLF lines ++ CRLFCRLF ++ body)
  = Some (length (Py.join CRLF lines)).
Proof.
  induction lines as [|l [|l2 ls] IH]; intros Hne Hall; [done| |].
  - apply Forall_cons in Hall as [[_ Hl] _]. cbn [Py.join].
    now apply (find_sep_line CR [LF; CR; LF]).
  - apply Forall_cons in Hall as [[_ Hl] Hall].
    specialize (IH ltac:(done) Hall).
    rewrite join_cons2, <- !app_assoc.
    pose proof Hall as Hall'. apply Forall_cons in Hall' as [[Hl2 Hcr2] _].
    assert (∃ b R, Py.join CRLF (l2 :: ls) ++ CRLFCRLF ++ body = b :: R ∧ b ≠ CR)
      as (b & R & E & Hb).
    { destruct l2 as [|b l2]; [done|]. apply not_elem_of_cons in Hcr2 as [Hb _].
      destruct ls; cbn [Py.join app]; eauto. }
    rewrite E, find_skip_line by done. rewrite <- E, IH.
    cbn [fmap option_fmap option_map]. f_equal. rewrite !length_app. simpl. lia.
Qed.

Lemma response_head_join code ct cache :
  concat (response_head code ct cache)
  = Py.join CRLF (head_lines code ct cache) ++ CRLFCRLF.
Proof.
  unfold response_head, head_lines.
  destruct cache; cbn [app concat Py.join]; rewrite <- ?app_assoc; reflexivity.
Qed.

End Wire.

(** ** What the client makes of the head the server writes *)

Module EndToEnd.
Import Client ClientSpec PyFacts StreamFacts ChunkedFacts HeaderLoop
       ClientMore ClientHeader PyMore Wire.
Import ServerSpec.

Lemma no_cr_literal (l : bytes) :
  forallb (λ b, negb (bool_decide (b = CR))) l = true → CR ∉ l.
Proof.
  intros H Hin. rewrite forallb_forall in H.
  apply list_elem_of_In, H in Hin. now rewrite bool_decide_eq_true_2 in Hin.
Qed.

Lemma head_lines_shape code ct cache :
  CR ∉ ct →
  Forall (λ l, l ≠ [] ∧ CR ∉ l) (head_lines code ct cache).
Proof.
  intros Hct. unfold head_lines.
  repeat apply Forall_app_2.
  - repeat constructor; try discriminate.
    + apply not_elem_of_app. split; [now apply no_cr_literal|apply str_of_Z_no_cr].
    + apply not_elem_of_app. split; [now apply no_cr_literal|done].
  - destruct cache; repeat constructor; try discriminate; now apply no_cr_literal.
  - repeat constructor; try discriminate; now apply no_cr_literal.
Qed.

Lemma head_lines_ascii code ct cache :
  forallb is_ascii ct = true →
  forallb is_ascii (Py.join CRLF (head_lines code ct cache)) = true.
Proof.
  intros Hct. unfold head_lines.
  destruct cache; cbn [app Py.join]; rewrite !forallb_app, Hct, str_of_Z_ascii;
    reflexivity.
Qed.

Lemma parse_status_head code ct cache :
  parse_status (head_lines code ct cache) = code.
Proof.
  unfold head_lines, parse_status. cbn [app]. unfold Py.split_ws.
  change (B "HTTP/1.1 " ++ Py.str_of_Z code)
    with (B "HTTP/1.1" ++ x20 :: Py.str_of_Z code).
  rewrite (split_ws_aux_space (B "HTTP/1.1")); [|repeat constructor|reflexivity].
  rewrite split_ws_aux_token by apply str_of_Z_nospace.
  cbn [app]. destruct (str_of_Z_chars code) as [_ Hne].
  destruct (Py.str_of_Z code) eqn:E; [done|]. rewrite <- E.
  change (default 500 (Py.int_of 10 (Py.str_of_Z code)) = code).
  now rewrite int_of_str_of_Z.
Qed.

Lemma parse_headers_head code ct cache :
  let headers := parse_headers (head_lines code ct cache) in
  chunked headers = false ∧
  headers !! B "content-length" = None ∧
  headers !! B "content-type" = Some (Py.strip ct).
Proof.
  unfold head_lines, parse_headers, chunked. cbn [app tail].
  destruct cache; repeat split; vm_compute; reflexivity.
Qed.

(** What the client makes of a head written by [send_headers] followed by
    a payload, the connection being closed after it. *)
Lemma response_read_back fuel code ct cache payload segments :
  CR ∉ ct → forallb is_ascii ct = true →
  (length (concat (response_head code ct cache)) + 63 ≤ MAX_HEADER)%nat →
  concat segments = concat (response_head code ct cache) ++ payload →
  forallb is_ascii payload = true →
  (length (concat segments) < fuel)%nat →
  ∃ headers,
    single_request fuel None (delivers segments)
    = Ok {| status_code := code; headers := Some headers; body := payload |} ∧
    headers !! B "content-type" = Some (Py.strip ct).
Proof.
  intros Hcr Hct Hlen Hseg Hpay Hf.
  set (lines := head_lines code ct cache).
  set (text := Py.join CRLF lines).
  rewrite response_head_join in Hseg, Hlen. fold lines text in Hseg, Hlen.
  rewrite length_app in Hlen. change (length CRLFCRLF) with 4%nat in Hlen.
  rewrite <- app_assoc in Hseg.
  assert (Py.find CRLFCRLF (concat segments) = Some (length text)) as Hfind.
  { rewrite Hseg. apply find_blank_line; [discriminate|].
    now apply head_lines_shape. }
  destruct (read_header_bytes_found (concat segments) (length text) fuel []
              (stream_of segments))
    as (hb & s' & Hr & Hcat & Hend & Hfb); auto; [lia|].
  pose proof (find_bound _ _ _ Hfb) as Hb. change (length CRLFCRLF) with 4%nat in Hb.
  assert (take (length text) hb = text) as Htake.
  { rewrite <- (take_app_le _ (pending s')) by lia.
    rewrite Hcat, Hseg. apply take_app_length. }
  assert (drop (length text + 4) hb ++ pending s' = payload) as Hrest.
  { rewrite <- drop_app_le by lia. rewrite Hcat, Hseg.
    rewrite drop_app_ge by lia.
    replace (length text + 4 - length text)%nat with 4%nat by lia. reflexivity. }
  destruct (parse_headers_head code ct cache) as (Hch & Hcl & Hty).
  exists (parse_headers lines). split; [|exact Hty].
  unfold single_request, delivers. cbn [connect_error incoming].
  rewrite Hr. cbn [mbind result_bind].
  unfold Py.partition. rewrite Hfb, Htake. change (length CRLFCRLF) with 4%nat.
  unfold decode at 1.
  rewrite (utf8_valid_ascii text) by now apply head_lines_ascii.
  cbn [mbind result_bind].
  assert (Py.split CRLF text = lines) as ->.
  { apply (split_join CR [LF]); [discriminate|].
    eapply Forall_impl; [apply head_lines_shape; exact Hcr|]. now intros l [_ H]. }
  unfold read_body. rewrite select_dynamic by auto.
  rewrite body_dynamic_ascii.
  - cbn [mbind result_bind]. rewrite Hrest. unfold lines.
    now rewrite parse_status_head.
  - now rewrite Hend.
  - assert (length (pending s') ≤ length (concat segments))%nat; [|lia].
    rewrite <- Hcat, length_app. lia.
  - now rewrite Hrest.
Qed.

End EndToEnd.

(** ** The log and the [finally] block *)

Module ServerMore.
Import Server ServerSpec ServerFacts HookFacts PyFacts PyMore.

Section More.
Context {JSON : Type}.
Variable json_loads : bytes → option JSON.
Variable json_dumps : JSON → str.
Variable fs : str → option file.

Implicit Types (s : @st JSON) (c : conn) (srv : @HttpServer JSON).

(** *** Log projections *)

Lemma sent_app (a b : list event) : sent (a ++ b) = sent a ++ sent b.
Proof. unfold sent. now rewrite omap_app, concat_app. Qed.

Lemma writes_app (a b : list event) : writes (a ++ b) = writes a ++ writes b.
Proof. apply omap_app. Qed.

Lemma handler_calls_app (a b : list event) :
  handler_calls (a ++ b) = handler_calls a ++ handler_calls b.
Proof. apply omap_app. Qed.

Lemma error_calls_app (a b : list event) :
  error_calls (a ++ b) = error_calls a ++ error_calls b.
Proof. apply omap_app. Qed.

Lemma sent_writes (ws : list bytes) : sent (map EvWrite ws) = concat ws.
Proof.
  unfold sent. f_equal. induction ws as [|w ws IH]; [done|].
  cbn. now rewrite IH.
Qed.

Lemma closing_silent (evs : list event) :
  Forall (λ ev, closing_event ev = true) evs →
  sent evs = [] ∧ handler_calls evs = [] ∧ error_calls evs = [].
Proof.
  induction 1 as [|ev evs Hev _ (IH1 & IH2 & IH3)]; [done|].
  destruct ev; try discriminate; auto.
Qed.

(** *** The [finally] block *)

Lemma run_after_events hooks : ∀ i s,
  ∃ evs, run_after i hooks s = (Ok tt, logged s evs) ∧
         after_codes evs = imap (λ j _, ((i + j)%nat, status_code s)) hooks ∧
         Forall (λ ev, closing_event ev = true) evs.
Proof.
  induction hooks as [|h hooks IH]; intros i s; simpl.
  - exists []. now rewrite logged_nil.
  - set (called := EvAfterHook i (status_code s) ::
                   match h (request s) (status_code s) with
                   | Some e => [EvPrint e]
                   | None => []
                   end).
    destruct (IH (S i) (logged s called)) as (evs & Hrun & Hcodes & Hcl).
    exists (called ++ evs). split; [|split].
    + unfold mbind, M_bind, get, emit, mret, M_ret. subst called.
      destruct (h (request s) (status_code s)); rewrite ?logged_app;
        simpl in *; rewrite Hrun, logged_app; reflexivity.
    + assert (after_codes (called ++ evs)
              = (i, status_code s) :: after_codes evs) as ->
        by (subst called; destruct (h _ _); reflexivity).
      rewrite Hcodes, Nat.add_0_r. f_equal.
      apply imap_ext. intros j x _. simpl. f_equal. lia.
    + apply Forall_app. split; [|done].
      subst called. destruct (h _ _); repeat constructor.
Qed.

Lemma teardown_events srv c s :
  ∃ evs, teardown srv c s = (Ok tt, logged s evs) ∧
         after_codes evs = imap (λ j _, (j, status_code s)) (_after_hooks srv) ∧
         Forall (λ ev, closing_event ev = true) evs.
Proof.
  destruct (run_after_events (_after_hooks srv) 0 s) as (evs & Hrun & Hcodes & Hcl).
  unfold teardown, mbind, M_bind. rewrite Hrun.
  unfold try_except, aclose, emit, raise.
  destruct (aclose_error c); simpl.
  - exists evs. auto.
  - exists (evs ++ [EvClose]). rewrite logged_app, after_codes_app. simpl.
    rewrite app_nil_r. split; [done|]. split; [done|].
    apply Forall_app. split; [done|]. repeat constructor.
Qed.

(** The outcome of [handle] for an admitted connection, given how the
    [try] block with its [except] clauses ended. *)
Lemma handle_admitted srv c fuel r s1 :
  full srv = false →
  try_except (process json_loads json_dumps fs (enter srv c) c fuel)
             (on_exception (enter srv c) c) (initial c) = (r, s1) →
  r ≠ Spin →
  ∃ evs, handle json_loads json_dumps fs srv c fuel
         = (release (enter srv c) c, r, log s1 ++ evs) ∧
         after_codes evs = imap (λ j _, (j, status_code s1)) (_after_hooks srv) ∧
         Forall (λ ev, closing_event ev = true) evs.
Proof.
  intros Hf Hbody Hr. unfold handle. rewrite Hf.
  assert (_after_hooks (enter srv c) = _after_hooks srv) as Hh
    by (unfold enter; now rewrite Hf).
  destruct (teardown_events (enter srv c) c s1) as (evs & Htear & Hcodes & Hcl).
  rewrite Hh in Hcodes.
  exists evs. split; [|done].
  unfold serve, try_finally. rewrite Hbody, Htear.
  destruct r as [[]|e|]; try done.
Qed.

End More.

End ServerMore.

(** ** Requests that get no answer *)

Module ServerErrors.
Import Server ServerSpec ServerFacts HookFacts PyFacts PyMore ServerMore.

Section Errors.
Context {JSON : Type}.
Variable json_loads : bytes → option JSON.
Variable json_dumps : JSON → str.
Variable fs : str → option file.

Implicit Types (s : @st JSON) (c : conn) (srv : @HttpServer JSON).

(** *** Reading the request line *)

Lemma readline_open c s :
  peer_end c = None →
  readline c s
  = (Ok (first_line (input s)),
     logged {| input := drop (length (first_line (input s))) (input s);
               request := request s; status_code := status_code s;
               log := log s |}
            [EvReadline (first_line (input s))]).
Proof.
  intros He. unfold readline, first_line, at_peer_end, mbind, M_bind, get.
  destruct (Py.find [LF] (input s)) as [p|] eqn:F.
  - pose proof (find_bound _ _ _ F) as Hb. simpl in Hb.
    rewrite length_take, Nat.min_l by lia. reflexivity.
  - rewrite He. destruct (input s) as [|b i] eqn:E.
    + unfold mret, M_ret, emit, logged. cbn. now rewrite E.
    + cbn -[drop length]. rewrite drop_all. reflexivity.
Qed.

Lemma readline_fails c s e :
  peer_end c = Some e → Py.find [LF] (input s) = None →
  readline c s = (Raise e, s).
Proof.
  intros He F. unfold readline, at_peer_end, mbind, M_bind, get, raise.
  rewrite F, He. now destruct (input s).
Qed.

Lemma process_unparsable srv c fuel s line s' :
  readline c s = (Ok line, s') →
  line = [] ∨ (Py.utf8_valid line = true ∧ length (Py.split_ws line) ≠ 3%nat) →
  process json_loads json_dumps fs srv c fuel s = (Ok tt, s').
Proof.
  intros Hr Hl. unfold process. erewrite bind_ok by exact Hr.
  destruct Hl as [-> | [Hv Hn]]; [reflexivity|].
  destruct line as [|b line]; [reflexivity|].
  unfold lift, decode. rewrite Hv. unfold mbind at 1, M_bind at 1.
  destruct (Py.split_ws (b :: line)) as [|m [|u [|v [|]]]]; try reflexivity.
  now simpl in Hn.
Qed.

(** X9.  A request line that is empty or does not have exactly three fields is
    not answered at all: nothing is written, no handler and no error hook
    is called; the after-hooks are given 200 and the connection is
    closed and released. *)
Theorem unparsable_request_unanswered srv c fuel :
  full srv = false → peer_end c = None →
  let line := first_line (peer_input c) in
  line = [] ∨ (Py.utf8_valid line = true ∧ length (Py.split_ws line) ≠ 3%nat) →
  ∃ l, handle json_loads json_dumps fs srv c fuel
       = (release (enter srv c) c, Ok tt, EvReadline line :: l) ∧
       sent l = [] ∧ handler_calls l = [] ∧ error_calls l = [] ∧
       after_codes l = imap (λ i _, (i, 200)) (_after_hooks srv).
Proof.
  intros Hf He line Hl.
  pose proof (readline_open c (initial c) He) as Hr. cbn [input initial] in Hr.
  fold line in Hr.
  pose proof (process_unparsable (enter srv c) c fuel _ _ _ Hr Hl) as Hp.
  destruct (handle_admitted json_loads json_dumps fs srv c fuel (Ok tt)
              (logged {| input := drop (length line) (peer_input c);
                         request := new_request; status_code := 200; log := [] |}
                      [EvReadline line]) Hf)
    as (evs & Hh & Hcodes & Hcl); [|done|].
  { unfold try_except. now rewrite Hp. }
  exists evs. cbn [log logged app] in Hh. split; [exact Hh|].
  destruct (closing_silent evs Hcl) as (H1 & H2 & H3). auto.
Qed.

(** X10.  When the read of the request line fails with a network error or times
    out, the error is printed and nothing else happens: no byte is
    written and no error hook is called; the after-hooks are given 200 and
    the connection is closed and released. *)
Theorem transport_error_unanswered srv c fuel e :
  full srv = false → peer_end c = Some e → is_transport e = true →
  Py.find [LF] (peer_input c) = None →
  ∃ l, handle json_loads json_dumps fs srv c fuel
       = (release (enter srv c) c, Ok tt, EvPrint e :: l) ∧
       sent l = [] ∧ handler_calls l = [] ∧ error_calls l = [] ∧
       after_codes l = imap (λ i _, (i, 200)) (_after_hooks srv).
Proof.
  intros Hf He Ht Hn.
  pose proof (readline_fails c (initial c) e He Hn) as Hr.
  destruct (handle_admitted json_loads json_dumps fs srv c fuel (Ok tt)
              (logged (initial c) [EvPrint e]) Hf)
    as (evs & Hh & Hcodes & Hcl); [|done|].
  { unfold try_except, process, mbind at 1, M_bind at 1. rewrite Hr.
    destruct e; try discriminate; reflexivity. }
  exists evs. split; [exact Hh|].
  destruct (closing_silent evs Hcl) as (H1 & H2 & H3). auto.
Qed.

(** *** The write helper *)

Lemma write_swallowed c data s errno :
  awrite_error c = Some errno → swallowed errno = true →
  write c data s = (Ok tt, s).
Proof.
  intros Hw Hs. unfold write, try_except, awrite, raise. rewrite Hw.
  unfold swallowed in Hs. now rewrite Hs.
Qed.

Lemma send_headers_swallowed c code ct cache s errno :
  awrite_error c = Some errno → swallowed errno = true →
  send_headers c code ct cache s = (Ok tt, s).
Proof.
  intros Hw Hs. unfold send_headers.
  destruct cache; unfold mbind, M_bind;
    rewrite !(write_swallowed _ _ _ _ Hw Hs); reflexivity.
Qed.

Lemma write_chunks_swallowed c errno fuel : ∀ content s,
  awrite_error c = Some errno → swallowed errno = true →
  write_chunks c fuel content s = (Ok tt, s).
Proof.
  induction fuel as [|fuel IH]; intros content s Hw Hs; [reflexivity|].
  simpl. destruct (take 512 content); [reflexivity|].
  unfold mbind, M_bind. rewrite (write_swallowed _ _ _ _ Hw Hs). now apply IH.
Qed.

(** X11.  On a connection that the peer has reset ([ECONNRESET]) or that is no
    longer connected ([ENOTCONN]) the static responder ends normally and
    leaves no trace, whether the file exists or not. *)
Theorem static_on_reset_connection c (req : @Request JSON) s errno :
  awrite_error c = Some errno → swallowed errno = true →
  serve_static fs c req s = (Ok tt, s).
Proof.
  intros Hw Hs. unfold serve_static.
  destruct (static_target (url req)) as [[path ct] binary].
  unfold send_file, try_except, mbind, M_bind, lift, os_stat, open_file, raise.
  destruct (fs path) as [[content|]|]; cbn [is_OSError];
    rewrite ?(send_headers_swallowed _ _ _ _ _ _ Hw Hs).
  - now rewrite (write_chunks_swallowed _ _ _ _ _ Hw Hs).
  - rewrite bool_decide_eq_false_2 by discriminate. cbn [is_OSError].
    rewrite (send_headers_swallowed _ _ _ _ _ _ Hw Hs).
    now rewrite (write_swallowed _ _ _ _ Hw Hs).
  - now rewrite (write_swallowed _ _ _ _ Hw Hs).
Qed.

End Errors.

End ServerErrors.

(** ** Errors and their answers *)

Module ServerAnswers.
Import Server ServerSpec ServerFacts HookFacts PyFacts PyMore ServerMore
       ServerErrors.

Section Answers.
Context {JSON : Type}.
Variable json_loads : bytes → option JSON.
Variable json_dumps : JSON → str.
Variable fs : str → option file.

Implicit Types (s : @st JSON) (c : conn) (srv : @HttpServer JSON).
#[local] Abbreviation raises_within := (ServerSpec.raises_within (JSON:=JSON)).

(** *** What may escape *)

Lemma raises_within_bind {A B'} P (m : @M JSON A) (f : A → @M JSON B') :
  raises_within P m → (∀ a, raises_within P (f a)) → raises_within P (m ≫= f).
Proof.
  intros Hm Hf s e s'. unfold mbind, M_bind.
  destruct (m s) as [[a|e0|] s1] eqn:E.
  - apply Hf.
  - intros [= <- <-]. now apply Hm in E.
  - discriminate.
Qed.

Lemma raises_within_write c data : raises_within (write_failure c) (write c data).
Proof.
  intros s e s'. unfold write, try_except, awrite, emit, raise.
  destruct (awrite_error c) as [errno|] eqn:Hw; [|discriminate].
  destruct (bool_decide (errno = ECONNRESET) || bool_decide (errno = ENOTCONN)) eqn:Hs;
    [discriminate|].
  intros [= <- <-]. now exists errno.
Qed.

Lemma raises_within_send_headers c code ct cache :
  raises_within (write_failure c) (send_headers c code ct cache).
Proof.
  unfold send_headers.
  destruct cache; repeat (apply raises_within_bind; [|intros _]);
    apply raises_within_write.
Qed.

Lemma run_error_events hooks code msg : ∀ i s,
  ∃ evs, run_error i hooks code msg s = (Ok tt, logged s evs) ∧
         error_calls evs = imap (λ j _, ((i + j)%nat, code, msg)) hooks ∧
         sent evs = [] ∧ handler_calls evs = [] ∧ after_codes evs = [].
Proof.
  induction hooks as [|h hooks IH]; intros i s; simpl.
  - exists []. now rewrite logged_nil.
  - destruct (IH (S i) (logged s [EvErrorHook i code msg]))
      as (evs & Hrun & Hcalls & Hsent & Hh & Ha).
    exists (EvErrorHook i code msg :: evs). split; [|split; [|done]].
    + unfold mbind, M_bind, emit. now rewrite Hrun, logged_app.
    + change (error_calls (EvErrorHook i code msg :: evs))
        with ((i, code, msg) :: error_calls evs).
      rewrite Hcalls, Nat.add_0_r. f_equal.
      apply imap_ext. intros j x _. simpl. do 2 f_equal. lia.
Qed.

Lemma raises_within_answer srv c code msg page :
  raises_within (write_failure c)
    (run_error 0 (_error_hooks srv) code msg;;
     send_headers c code (B "text/html") false;;
     write c page).
Proof.
  apply raises_within_bind; [|intros _].
  { intros s e' s'.
    destruct (run_error_events (_error_hooks srv) code msg 0 s) as (evs & -> & _).
    discriminate. }
  apply raises_within_bind; [apply raises_within_send_headers|intros _].
  apply raises_within_write.
Qed.

Lemma raises_within_on_exception srv c e0 :
  raises_within (λ e, write_failure c e ∨
                      ∃ n text, e0 = HttpErrorArgs n text ∧ e = unpack_error n)
    (on_exception srv c e0).
Proof.
  intros s e s' H.
  destruct e0; cbn [on_exception] in H;
    try (left; exact (raises_within_answer srv c _ _ _ s e s' H));
    try (unfold emit in H; discriminate).
  right. injection H as <- <-. eauto.
Qed.

(** X12.  An exception leaves [handle] only from inside an [except] clause:
    it is the [OSError] of a write that failed there with an [errno] other
    than [ECONNRESET] and [ENOTCONN], or the [ValueError] of the unpacking
    at line 210 when the [try] block raised an [HttpError] whose [args] are
    not three values.  The slot is released all the same. *)
Theorem handle_raises_from_except_clause srv c fuel srv' e l :
  handle json_loads json_dumps fs srv c fuel = (srv', Raise e, l) →
  (write_failure c e ∨
   ∃ n text s0,
     process json_loads json_dumps fs (enter srv c) c fuel (initial c)
     = (Raise (HttpErrorArgs n text), s0) ∧
     e = unpack_error n) ∧
  srv' = release (enter srv c) c.
Proof.
  unfold handle. destruct (full srv) eqn:Hf.
  - destruct (ServerClaims.reject_log (JSON:=JSON) c) as (l' & -> & _). discriminate.
  - unfold serve, try_finally.
    destruct (try_except _ _ (initial c)) as [r s1] eqn:Hbody.
    destruct (teardown_events (enter srv c) c s1) as (evs & -> & _).
    destruct r as [[]|e0|]; intros [= <- <- <-]. split; [|done].
    unfold try_except in Hbody.
    destruct (process _ _ _ _ _ _ _) as [[[]|e1|] s0] eqn:Hp; try discriminate.
    apply raises_within_on_exception in Hbody as [Hw|(n & text & -> & ->)];
      [now left|right].
    now exists n, text, s0.
Qed.

(** *** Answers of the [except] clauses *)

(** X13.  A request line that is not UTF-8 is answered with the 500 page, and
    every error hook is called with 500. *)
Theorem undecodable_request_line_500 srv c fuel :
  full srv = false → peer_end c = None → awrite_error c = None →
  let line := first_line (peer_input c) in
  line ≠ [] → Py.utf8_valid line = false →
  ∃ l, handle json_loads json_dumps fs srv c fuel
       = (release (enter srv c) c, Ok tt, l) ∧
       sent l = concat (response_head 500 (B "text/html") false)
                ++ B "<h1>500 Internal Server Error</h1>" ∧
       fst <$> error_calls l = imap (λ i _, (i, 500)) (_error_hooks srv) ∧
       handler_calls l = [] ∧
       after_codes l = imap (λ i _, (i, 200)) (_after_hooks srv).
Proof.
  intros Hf He Hw line Hne Hv.
  pose proof (readline_open (JSON:=JSON) c (initial c) He) as Hr. cbn [input initial] in Hr.
  fold line in Hr.
  set (s0 := logged _ [EvReadline line]) in Hr.
  set (e := UnicodeError (B "invalid utf-8")).
  assert (process json_loads json_dumps fs (enter srv c) c fuel (initial c)
          = (Raise e, s0)) as Hp.
  { unfold process. erewrite bind_ok by exact Hr.
    destruct line as [|b line']; [done|].
    unfold lift, decode. rewrite Hv. reflexivity. }
  assert (_error_hooks (enter srv c) = _error_hooks srv) as Hh
    by (unfold enter; now rewrite Hf).
  destruct (run_error_events (_error_hooks srv) 500 (str_of_exn e) 0 s0)
    as (errs & Hrun & E1 & E2 & E3 & E4).
  set (ws := response_head 500 (B "text/html") false
             ++ [B "<h1>500 Internal Server Error</h1>"]).
  destruct (handle_admitted json_loads json_dumps fs srv c fuel (Ok tt)
              (logged s0 (errs ++ map EvWrite ws)) Hf)
    as (evs & Hh' & Hcodes & Hcl); [|done|].
  { unfold try_except. rewrite Hp. unfold on_exception, e.
    unfold mbind, M_bind. rewrite Hh. fold e. rewrite Hrun.
    rewrite send_headers_ok, write_ok by done.
    rewrite !logged_app. unfold ws. now rewrite map_app. }
  eexists. split; [exact Hh'|].
  destruct (closing_silent evs Hcl) as (H1 & H2 & H3).
  assert (log (logged s0 (errs ++ map EvWrite ws))
          = [EvReadline line] ++ errs ++ map EvWrite ws) as -> by reflexivity.
  rewrite !sent_app, !error_calls_app, !handler_calls_app, !after_codes_app.
  rewrite H1, H2, H3, E1, E2, E3, E4, Hcodes, sent_writes.
  assert (error_calls (map EvWrite ws) = [] ∧ handler_calls (map EvWrite ws) = [] ∧
          after_codes (map EvWrite ws) = []) as (W1 & W2 & W3)
    by (unfold ws; repeat split; reflexivity).
  rewrite W1, W2, W3. cbn [app sent error_calls handler_calls after_codes omap concat].
  rewrite !app_nil_r. split; [|split; [|done]].
  - unfold ws. now rewrite concat_app; cbn [concat]; rewrite app_nil_r.
  - change (error_calls [EvReadline line]) with (@nil (nat * Z * str)).
    cbn [app]. rewrite fmap_imap. reflexivity.
Qed.

(** *** The static responder *)

Lemma serve_static_found c (req : @Request JSON) s path ct binary content :
  awrite_error c = None →
  static_target (url req) = (path, ct, binary) →
  fs path = Some (File content) →
  serve_static fs c req s
  = (Ok tt, logged s (map EvWrite (response_head 200 ct true
                                   ++ file_chunks (S (length content)) content))).
Proof.
  intros Hw Ht Hf. unfold serve_static. rewrite Ht.
  unfold try_except, mbind, M_bind, lift, os_stat. rewrite Hf.
  rewrite send_headers_ok by done.
  rewrite (ServerClaims.send_file_ok fs _ _ _ _ content) by done.
  now rewrite logged_app, map_app.
Qed.

Lemma serve_static_missing c (req : @Request JSON) s path ct binary :
  awrite_error c = None →
  static_target (url req) = (path, ct, binary) →
  fs path = None →
  serve_static fs c req s
  = (Ok tt, logged s (map EvWrite (response_head 404 (B "text/html") false
                                   ++ [not_found_body]))).
Proof.
  intros Hw Ht Hf. unfold serve_static. rewrite Ht.
  unfold try_except, mbind, M_bind, lift, os_stat. rewrite Hf.
  cbn [is_OSError]. rewrite send_headers_ok by done.
  rewrite write_ok by done.
  now rewrite logged_app, map_app.
Qed.

(** X14.  A URL that resolves to a directory passes the [os.stat] test, so the
    200 head is written; opening it then fails, and the 404 head and page
    are written after it on the same connection. *)
Theorem static_directory_two_heads c (req : @Request JSON) s path ct binary :
  awrite_error c = None →
  static_target (url req) = (path, ct, binary) →
  fs path = Some Dir →
  serve_static fs c req s
  = (Ok tt, logged s (map EvWrite (response_head 200 ct true
                                   ++ response_head 404 (B "text/html") false
                                   ++ [not_found_body]))).
Proof.
  intros Hw Ht Hf. unfold serve_static. rewrite Ht.
  unfold send_file, try_except, mbind, M_bind, lift, os_stat, open_file, raise.
  rewrite Hf. rewrite send_headers_ok by done.
  rewrite bool_decide_eq_false_2 by discriminate. cbn [is_OSError].
  rewrite send_headers_ok, write_ok by done.
  now rewrite !logged_app, !map_app.
Qed.

(** *** Errors raised by a handler *)

(** X15.  When the handler of the matching route raises [HttpError(code, msg)]
    without having written, every error hook is called with [code] and
    [msg], and the answer is the head with status [code] followed by
    [msg] as a heading. *)
Theorem handler_http_error_answer srv c (req : @Request JSON) (h : handler)
    (methods : list str) code msg s :
  awrite_error c = None →
  routes srv !! url req = Some (h, methods) → method req ∈ methods →
  h_writes (h req) = [] → h_outcome (h req) = Raise (HttpError code msg) →
  ∃ evs,
    try_except (dispatch json_dumps fs srv c req) (on_exception srv c) s
    = (Ok tt, logged s (EvHandler (url req) :: evs
                        ++ map EvWrite (response_head code (B "text/html") false
                                        ++ [B "<h1>" ++ msg ++ B "</h1>"]))) ∧
    error_calls evs = imap (λ i _, (i, code, msg)) (_error_hooks srv) ∧
    sent evs = [].
Proof.
  intros Hw Hr Hm Hws Hout.
  destruct (run_error_events (_error_hooks srv) code msg 0
              (logged s [EvHandler (url req)]))
    as (evs & Hrun & E1 & E2 & _).
  exists evs. split; [|done].
  unfold try_except, dispatch. rewrite Hr. rewrite bool_decide_eq_true_2 by done.
  unfold call_handler, mbind, M_bind, emit, lift. rewrite Hws, Hout.
  cbn [emit_writes]. unfold mret, M_ret. cbn [on_exception].
  unfold mbind, M_bind. rewrite Hrun.
  rewrite send_headers_ok, write_ok by done.
  rewrite !logged_app, map_app. reflexivity.
Qed.

End Answers.

End ServerAnswers.

(** ** Stripping, and the POST body *)

Module StripFacts.
Import PyFacts PyMore.

Lemma lstrip_space_app (w t : bytes) :
  Forall (λ b, Py.isspace b = true) w → Py.lstrip (w ++ t) = Py.lstrip t.
Proof.
  induction 1 as [|b w Hb _ IH]; [done|]. simpl. now rewrite Hb.
Qed.

Lemma lstrip_space (w : bytes) :
  Forall (λ b, Py.isspace b = true) w → Py.lstrip w = [].
Proof.
  intros H. rewrite <- (app_nil_r w). now rewrite lstrip_space_app.
Qed.

Lemma lstrip_cases (s : bytes) :
  Forall (λ b, Py.isspace b = true) s ∨ ∀ w, Py.lstrip (s ++ w) = Py.lstrip s ++ w.
Proof.
  induction s as [|b s IH]; [left; constructor|].
  destruct (Py.isspace b) eqn:E.
  - destruct IH as [IH|IH]; [left; now constructor|right].
    intros w. simpl. rewrite E. apply IH.
  - right. intros w. simpl. now rewrite E.
Qed.

Lemma rstrip_app_space (s w : bytes) :
  Forall (λ b, Py.isspace b = true) w → Py.rstrip (s ++ w) = Py.rstrip s.
Proof.
  intros H. unfold Py.rstrip. rewrite rev_app_distr.
  rewrite lstrip_space_app; [done|]. now apply Forall_rev.
Qed.

(** Trailing white space does not survive [strip]. *)
Lemma strip_app_space (s w : bytes) :
  Forall (λ b, Py.isspace b = true) w → Py.strip (s ++ w) = Py.strip s.
Proof.
  intros H. unfold Py.strip. destruct (lstrip_cases s) as [Hs|Hs].
  - rewrite (lstrip_space s Hs), lstrip_space; [done|]. now apply Forall_app.
  - rewrite Hs. now apply rstrip_app_space.
Qed.

End StripFacts.

Module ServerParse.
Import Server ServerSpec ServerFacts HookFacts PyFacts PyMore ServerMore
       ServerErrors ServerAnswers StripFacts.
Import ClientMore.

Section Parse.
Context {JSON : Type}.
Variable json_loads : bytes → option JSON.
Variable json_dumps : JSON → str.
Variable fs : str → option file.

Implicit Types (s : @st JSON) (c : conn) (srv : @HttpServer JSON).

(** *** The POST body *)

Lemma read_open c n s :
  peer_end c = None →
  read c n s
  = (Ok (take n (input s)),
     {| input := drop n (input s); request := request s;
        status_code := status_code s;
        log := log s ++ [EvRead (take n (input s))] |}).
Proof.
  intros He. unfold read, at_peer_end, mbind, M_bind, get. rewrite He.
  destruct (input s) as [|b i] eqn:E.
  - unfold mret, M_ret, emit, logged. cbn. rewrite E, take_nil, drop_nil. reflexivity.
  - reflexivity.
Qed.

Lemma read_post_body_starved c len : ∀ fuel body s,
  peer_end c = None →
  Z.of_nat (length body + length (input s)) < len →
  (read_post_body c fuel len body s).1 = Spin.
Proof.
  induction fuel as [|fuel IH]; intros body s He Hl; cbn [read_post_body];
    (destruct (Z.ltb_spec (Z.of_nat (length body)) len); [|lia]); [reflexivity|].
  erewrite bind_ok by (apply read_open; exact He).
  apply IH; [done|]. cbn [input].
  rewrite length_app, length_take, length_drop. lia.
Qed.

(** The body loop receives empty reads for ever when the peer has shut its
    side down before the announced length. *)
Lemma read_json_starved c fuel s v n :
  headers (request s) !! B "Content-Length" = Some v →
  Py.int_of 10 v = Some n →
  peer_end c = None → Z.of_nat (length (input s)) < n →
  (read_json json_loads c fuel s).1 = Spin.
Proof.
  intros Hh Hv He Hl. unfold read_json, mbind at 1, M_bind at 1, get.
  rewrite Hh. unfold py_int, lift. rewrite Hv. unfold mbind at 1, M_bind at 1.
  pose proof (read_post_body_starved c n fuel [] s He Hl) as Hs.
  unfold mbind, M_bind.
  destruct (read_post_body c fuel n [] s) as [[body| |] s1]; try discriminate.
  reflexivity.
Qed.

Lemma read_log c n s r s' :
  read c n s = (r, s') → ∃ ds, log s' = log s ++ map EvRead ds.
Proof.
  unfold read, at_peer_end, mbind, M_bind, get, set_input, emit, raise, mret, M_ret.
  destruct (input s); [destruct (peer_end c)|]; intros [= <- <-];
    (try (exists []; cbn; now rewrite app_nil_r)); eexists [_]; reflexivity.
Qed.

Lemma read_post_body_log c len : ∀ fuel body s r s',
  read_post_body c fuel len body s = (r, s') →
  ∃ ds, log s' = log s ++ map EvRead ds.
Proof.
  induction fuel as [|fuel IH]; intros body s r s'; cbn [read_post_body];
    destruct (_ <? _);
    try (intros [= <- <-]; exists []; now rewrite app_nil_r).
  unfold mbind, M_bind.
  destruct (read c _ s) as [[data|e|] s1] eqn:R; apply read_log in R as [ds Hds].
  - intros [ds' Hds']%IH. exists (ds ++ ds'). now rewrite Hds', Hds, map_app, app_assoc.
  - intros [= <- <-]. eauto.
  - intros [= <- <-]. eauto.
Qed.

Lemma read_json_log c fuel s r s' :
  read_json json_loads c fuel s = (r, s') →
  ∃ ds, log s' = log s ++ map EvRead ds.
Proof.
  unfold read_json, mbind at 1, M_bind at 1, get.
  unfold mbind at 1, M_bind at 1.
  destruct (match headers (request s) !! B "Content-Length" with
            | Some v => lift (py_int 10 v)
            | None => mret 0
            end s) as [[len|e|] s0] eqn:E.
  - assert (s0 = s) as ->.
    { destruct (headers (request s) !! B "Content-Length");
        [unfold lift in E|unfold mret, M_ret in E]; congruence. }
    unfold mbind, M_bind.
    destruct (read_post_body c fuel len [] s) as [[body|e|] s1] eqn:R;
      apply read_post_body_log in R as [ds Hds].
    + destruct body; unfold mret, M_ret, get, set_request;
        intros [= <- <-]; exists ds; exact Hds.
    + intros [= <- <-]. eauto.
    + intros [= <- <-]. eauto.
  - assert (s0 = s) as ->.
    { destruct (headers (request s) !! B "Content-Length");
        [unfold lift in E|unfold mret, M_ret in E]; congruence. }
    intros [= <- <-]. exists []. now rewrite app_nil_r.
  - assert (s0 = s) as ->.
    { destruct (headers (request s) !! B "Content-Length");
        [unfold lift in E|unfold mret, M_ret in E]; congruence. }
    intros [= <- <-]. exists []. now rewrite app_nil_r.
Qed.

(** X16.  A POST body is read in full when it has arrived -- exactly the
    [Content-Length] announced, the bytes after it staying unread -- and
    handed to [json.loads]; without the header, or with a length that is
    not positive, nothing is read and [json] stays as it is. *)
Theorem post_body_exact c fuel s :
  (0 < fuel)%nat → peer_end c = None →
  (∀ v n, headers (request s) !! B "Content-Length" = Some v →
          Py.int_of 10 v = Some (Z.of_nat n) →
          (0 < n ≤ length (input s))%nat →
          read_json json_loads c fuel s
          = (Ok tt, {| input := drop n (input s);
                       request := with_json (request s)
                                    (json_loads (take n (input s)));
                       status_code := status_code s;
                       log := log s ++ [EvRead (take n (input s))] |})) ∧
  (headers (request s) !! B "Content-Length" = None ∨
   (∃ v n, headers (request s) !! B "Content-Length" = Some v ∧
           Py.int_of 10 v = Some n ∧ n ≤ 0) →
   read_json json_loads c fuel s = (Ok tt, s)).
Proof.
  intros Hfuel He. split.
  - intros v n Hh Hv [Hn Hl].
    unfold read_json, mbind at 1, M_bind at 1, get.
    rewrite Hh. unfold py_int, lift. rewrite Hv. unfold mbind at 1, M_bind at 1.
    destruct fuel as [|fuel]; [lia|]. cbn [read_post_body length].
    destruct (Z.ltb_spec (Z.of_nat 0) (Z.of_nat n)); [|lia].
    replace (Z.to_nat (Z.of_nat n - Z.of_nat 0)) with n by lia.
    unfold mbind at 1, M_bind at 1.
    erewrite bind_ok by (apply read_open; exact He).
    set (body := take n (input s)).
    assert (length body = n) as Hlen by (unfold body; rewrite length_take; lia).
    assert (∀ s', read_post_body c fuel (Z.of_nat n) ([] ++ body) s' = (Ok body, s'))
      as ->.
    { intros s'. cbn [app].
      destruct fuel; cbn [read_post_body];
        (destruct (Z.ltb_spec (Z.of_nat (length body)) (Z.of_nat n));
         [lia|reflexivity]). }
    destruct body as [|b0 body'] eqn:Eb; [simpl in Hlen; lia|]. reflexivity.
  - intros [Hh|(v & n & Hh & Hv & Hn)];
      unfold read_json, mbind at 1, M_bind at 1, get; rewrite Hh.
    + unfold mret at 1, M_ret at 1, mbind at 1, M_bind at 1.
      destruct fuel; cbn [read_post_body]; reflexivity.
    + unfold py_int, lift. rewrite Hv. unfold mbind at 1, M_bind at 1.
      assert (read_post_body c fuel n [] = mret []) as ->.
      { destruct fuel; cbn [read_post_body length];
          (destruct (Z.ltb_spec (Z.of_nat 0) n); [lia|reflexivity]). }
      reflexivity.
Qed.

End Parse.

End ServerParse.

(** ** Parsing the request *)

Module ServerRequest.
Import Server ServerSpec ServerFacts HookFacts PyFacts PyMore ServerMore
       ServerErrors ServerAnswers StripFacts ServerParse.
Import ClientMore.

Section Request.
Context {JSON : Type}.
Variable json_loads : bytes → option JSON.
Variable json_dumps : JSON → str.
Variable fs : str → option file.

Implicit Types (s : @st JSON) (c : conn) (srv : @HttpServer JSON).

(** *** The query string *)

Lemma foldl_add_arg (kvs : list (str * str)) : ∀ args,
  Forall (λ kv, Py.contains (B "=") kv.1 = false) kvs →
  foldl add_arg args (map query_pair kvs)
  = foldl (λ m kv, <[kv.1 := kv.2]> m) args kvs.
Proof.
  induction kvs as [|[k v] kvs IH]; intros args Hall; [done|].
  apply Forall_cons in Hall as [Hk Hall]. cbn [map foldl].
  rewrite <- IH by done. f_equal.
  unfold add_arg, query_pair. cbn [fst snd] in *.
  change (B "=") with [x3d] in *. change ([x3d] ++ v) with (x3d :: v).
  now rewrite (split_once_join _ _ _ Hk).
Qed.

(** X17.  A target [path?k1=v1&k2=v2...] is taken apart into the path and the
    pairs, a later pair replacing an earlier one with the same key; the
    values are kept as they are (no percent-decoding), and may hold [=]
    and [?].  Without [?] the target is the path and there are no
    arguments. *)
Theorem parse_target_query (path : str) (kvs : list (str * str)) :
  Py.contains (B "?") path = false →
  kvs ≠ [] →
  Forall (λ kv, Py.contains (B "=") kv.1 = false ∧
                (x26 ∉ kv.1) ∧ (x26 ∉ kv.2)) kvs →
  parse_target (path ++ B "?" ++ query_string kvs)
  = (path, foldl (λ m kv, <[kv.1 := kv.2]> m) ∅ kvs) ∧
  parse_target path = (path, ∅).
Proof.
  intros Hp Hne Hall. unfold parse_target. change (B "?") with [x3f] in *.
  change ([x3f] ++ query_string kvs) with (x3f :: query_string kvs).
  rewrite (split_once_join _ _ _ Hp), (split_once_none _ _ Hp).
  split; [|done]. f_equal. unfold query_string.
  change (B "&") with [x26].
  rewrite (split_join x26 []).
  - apply foldl_add_arg. eapply Forall_impl; [exact Hall|]. now intros kv [H _].
  - now destruct kvs.
  - apply Forall_fmap. eapply Forall_impl; [exact Hall|].
    intros [k v] (Hk & Hk' & Hv). unfold compose, query_pair. cbn [fst snd] in *.
    rewrite !not_elem_of_app. split; [done|]. split; [|done].
    change (B "=") with [x3d]. rewrite list_elem_of_singleton. discriminate.
Qed.

(** *** Header lines *)

Lemma readline_line c s (l rest : bytes) :
  LF ∉ l → input s = l ++ LF :: rest →
  readline c s
  = (Ok (l ++ [LF]),
     {| input := rest; request := request s; status_code := status_code s;
        log := log s ++ [EvReadline (l ++ [LF])] |}).
Proof.
  intros Hl Hi. unfold readline, mbind, M_bind, get. rewrite Hi.
  rewrite (ServerClaims.find_byte_app LF l rest)
    by (now apply (find_sep_none LF [])).
  unfold set_input, emit, mret, M_ret, logged. cbn -[take drop].
  replace (drop (S (length l)) (l ++ LF :: rest)) with rest.
  2:{ rewrite drop_app_ge by lia.
      replace (S (length l) - length l)%nat with 1%nat by lia. reflexivity. }
  replace (take (S (length l)) (l ++ LF :: rest)) with (l ++ [LF]).
  2:{ rewrite take_app_ge by lia.
      replace (S (length l) - length l)%nat with 1%nat by lia. reflexivity. }
  reflexivity.
Qed.

Lemma header_line_shape (h : str * str) :
  wellformed_header h →
  ∃ l, header_line h = l ++ [LF] ∧ (LF ∉ l) ∧ l ++ [LF] ≠ [] ∧ l ++ [LF] ≠ CRLF ∧
       decode (l ++ [LF]) = Ok (l ++ [LF]) ∧
       Py.split_once (B ":") (l ++ [LF]) = Some (h.1, h.2 ++ CRLF).
Proof.
  destruct h as [k v]. intros (Hk & Hlk & Hlv & Hv). cbn [fst snd] in *.
  exists (k ++ B ":" ++ v ++ [CR]).
  assert (header_line (k, v) = (k ++ B ":" ++ v ++ [CR]) ++ [LF]) as E.
  { unfold header_line. cbn [fst snd]. rewrite <- !app_assoc. reflexivity. }
  rewrite <- E. split; [done|]. split; [|split; [|split; [|split]]].
  - rewrite !not_elem_of_app. repeat split; try done.
    + change (B ":") with [x3a]. rewrite list_elem_of_singleton. discriminate.
    + rewrite list_elem_of_singleton. discriminate.
  - unfold header_line. cbn [fst snd]. destruct k; discriminate.
  - unfold header_line. cbn [fst snd]. intros H.
    apply (f_equal length) in H. rewrite !length_app in H. simpl in H. lia.
  - unfold decode. now rewrite Hv.
  - unfold header_line. cbn [fst snd]. change (B ":") with [x3a] in *.
    change ([x3a] ++ v ++ CRLF) with (x3a :: v ++ CRLF).
    now apply split_once_join.
Qed.

Lemma read_headers_block c : ∀ hs fuel s rest,
  Forall wellformed_header hs →
  input s = header_block hs ++ CRLF ++ rest →
  (length hs < fuel)%nat →
  read_headers c fuel s
  = (Ok tt,
     {| input := rest;
        request := foldl (λ r h, with_header r (Py.strip h.1) (Py.strip h.2))
                         (request s) hs;
        status_code := status_code s;
        log := log s ++ map EvReadline (map header_line hs ++ [CRLF]) |}).
Proof.
  induction hs as [|h hs IH]; intros fuel s rest Hall Hi Hf;
    (destruct fuel as [|fuel]; [simpl in Hf; lia|]); cbn [read_headers].
  - cbn [header_block map concat app] in Hi.
    erewrite bind_ok by (apply (readline_line c s [CR] rest);
                         [rewrite list_elem_of_singleton; discriminate|exact Hi]).
    reflexivity.
  - apply Forall_cons in Hall as [Hh Hall].
    destruct (header_line_shape h Hh) as (l & El & Hl & Hne & Hcrlf & Hdec & Hsplit).
    assert (input s = l ++ LF :: (header_block hs ++ CRLF ++ rest)) as Hi'.
    { rewrite Hi. unfold header_block. cbn [map concat]. rewrite El.
      now rewrite <- !app_assoc. }
    erewrite bind_ok by (apply (readline_line c s l _ Hl Hi')).
    rewrite !bool_decide_eq_false_2 by done. cbn [orb].
    unfold lift. rewrite Hdec. unfold mbind at 1, M_bind at 1.
    rewrite Hsplit. unfold mbind at 1, M_bind at 1, mbind at 1, M_bind at 1, get.
    unfold set_request. rewrite IH with (rest := rest); [|done|reflexivity|simpl in Hf; lia].
    cbn [request status_code log input foldl map app].
    rewrite (strip_app_space (h.2) CRLF) by (repeat constructor).
    rewrite <- El, <- app_assoc. reflexivity.
Qed.

Lemma token_no_byte (t : str) (b : byte) :
  token t → Py.isspace b = true → b ∉ t.
Proof.
  intros [_ Ht] Hb Hin. rewrite Forall_forall in Ht. apply Ht in Hin. congruence.
Qed.

Lemma split_ws_field (tok rest : bytes) (w : byte) :
  token tok → Py.isspace w = true →
  Py.split_ws_aux [] (tok ++ w :: rest) = tok :: Py.split_ws_aux [] rest.
Proof.
  intros [Hne Hs] Hw. rewrite split_ws_aux_space by done.
  rewrite app_nil_l. now destruct tok.
Qed.

Lemma split_ws_request_line (m target version : str) :
  token m → token target → token version →
  Py.split_ws (request_line m target version) = [m; target; version].
Proof.
  intros Hm Ht Hv. unfold Py.split_ws, request_line.
  change (B " ") with [x20]. unfold CRLF. cbn [app].
  rewrite !split_ws_field by (assumption || reflexivity). reflexivity.
Qed.

Lemma run_before_events hooks : ∀ i s,
  ∃ evs, run_before i hooks s
         = (Ok tt, {| input := input s; request := hooked hooks (request s);
                      status_code := status_code s; log := log s ++ evs |}) ∧
         before_calls evs = seq i (length hooks) ∧
         sent evs = [] ∧ handler_calls evs = [] ∧ error_calls evs = [] ∧
         after_codes evs = [].
Proof.
  induction hooks as [|h hooks IH]; intros i s; cbn [run_before].
  - exists []. rewrite app_nil_r. now destruct s.
  - destruct (h (request s)) as [r e] eqn:Eh.
    set (called := EvBeforeHook i ::
                   match e with Some e => [EvPrint e] | None => [] end).
    destruct (IH (S i) {| input := input s; request := r;
                          status_code := status_code s;
                          log := log s ++ called |})
      as (evs & Hrun & Hcalls & Hs & Hh & He & Ha).
    exists (called ++ evs). split.
    + cbn [input request status_code log] in Hrun.
      unfold mbind, M_bind, get, emit, set_request, logged. rewrite Eh.
      assert (hooked (h :: hooks) (request s) = hooked hooks r) as ->
        by (unfold hooked; cbn [foldl]; now rewrite Eh).
      rewrite (app_assoc (log s)). rewrite <- Hrun. subst called.
      destruct e as [e|]; cbn [input request status_code log mret M_ret];
        rewrite <- ?app_assoc; reflexivity.
    + unfold before_calls, sent, handler_calls, error_calls, after_codes in *.
      rewrite !omap_app, Hcalls, Hh, He, Ha. subst called.
      destruct e; cbn; rewrite ?Hs; auto.
Qed.

Lemma foldl_with_header (hs : list (str * str)) : ∀ m u (hd : gmap str str) a
    (j : option JSON),
  foldl (λ r h, with_header r (Py.strip h.1) (Py.strip h.2))
        {| method := m; url := u; headers := hd; args := a; json := j |} hs
  = {| method := m; url := u;
       headers := foldl (λ hd h, <[Py.strip h.1 := Py.strip h.2]> hd) hd hs;
       args := a; json := j |}.
Proof.
  induction hs as [|h hs IH]; intros m u hd a j; [reflexivity|].
  cbn [foldl]. unfold with_header at 2. cbn [method url headers args json].
  apply IH.
Qed.

(** The body of the [try] block once the request line and the header lines
    have been read: the request is the parsed one and the bytes after the
    blank line are still unread. *)
Lemma process_after_headers srv c fuel (m target version : str)
    (hs : list (str * str)) (rest : bytes) :
  token m → token target → token version →
  Py.utf8_valid (request_line m target version) = true →
  Forall wellformed_header hs →
  peer_input c = request_line m target version ++ header_block hs ++ CRLF ++ rest →
  (length hs < fuel)%nat →
  process json_loads json_dumps fs srv c fuel (initial c)
  = ((if bool_decide (m = B "POST") then read_json json_loads c fuel else mret tt);;
     run_before 0 (_before_hooks srv);;
     s ← get;
     if bool_decide (method (request s) = B "OPTIONS")
     then set_status_code 204;; send_headers c 204 (B "text/html") false
     else dispatch json_dumps fs srv c (request s))
      {| input := rest; request := parsed_request m target hs; status_code := 200;
         log := map EvReadline (request_line m target version
                                :: map header_line hs ++ [CRLF]) |}.
Proof.
  intros Hm Ht Hv Hu Hhs Hin Hf.
  set (l := m ++ B " " ++ target ++ B " " ++ version ++ [CR]).
  assert (request_line m target version = l ++ [LF]) as El
    by (unfold request_line, l; now rewrite <- !app_assoc).
  assert (LF ∉ l) as Hl.
  { unfold l. change (B " ") with [x20]. rewrite !not_elem_of_app.
    repeat split; try (now apply token_no_byte);
      rewrite list_elem_of_singleton; discriminate. }
  assert (input (initial (JSON:=JSON) c)
          = l ++ LF :: (header_block hs ++ CRLF ++ rest)) as Hi.
  { cbn [input initial]. rewrite Hin, El. now rewrite <- !app_assoc. }
  unfold process. erewrite bind_ok by (apply (readline_line c _ l _ Hl Hi)).
  rewrite <- El.
  destruct (request_line m target version) as [|b0 rl] eqn:Erl.
  { destruct l; discriminate. }
  cbv beta iota. unfold lift, decode. rewrite Hu. rewrite <- Erl.
  unfold mbind at 1, M_bind at 1.
  rewrite split_ws_request_line by done.
  unfold mbind at 1, M_bind at 1, get.
  destruct (parse_target target) as [u a] eqn:Ep.
  unfold mbind at 1, M_bind at 1, set_request.
  unfold mbind at 1, M_bind at 1.
  rewrite (read_headers_block c hs fuel _ rest Hhs) by (reflexivity || lia).
  cbn [request input status_code log initial].
  assert (foldl (λ r h, with_header r (Py.strip h.1) (Py.strip h.2))
            (with_line (new_request (JSON:=JSON)) m u a) hs
          = parsed_request m target hs) as ->.
  { unfold parsed_request. rewrite Ep. cbn [fst snd].
    apply foldl_with_header. }
  cbn [app]. reflexivity.
Qed.

(** The same for a request other than POST, the before-hooks having run. *)
Lemma process_head srv c fuel (m target version : str)
    (hs : list (str * str)) (rest : bytes) :
  token m → token target → token version →
  Py.utf8_valid (request_line m target version) = true →
  Forall wellformed_header hs → m ≠ B "POST" →
  peer_input c = request_line m target version ++ header_block hs ++ CRLF ++ rest →
  (length hs < fuel)%nat →
  let req := hooked (_before_hooks srv) (parsed_request m target hs) in
  ∃ evs,
    process json_loads json_dumps fs srv c fuel (initial c)
    = (if bool_decide (method req = B "OPTIONS")
       then set_status_code 204;; send_headers c 204 (B "text/html") false
       else dispatch json_dumps fs srv c req)
        {| input := rest; request := req; status_code := 200;
           log := map EvReadline (request_line m target version
                                  :: map header_line hs ++ [CRLF]) ++ evs |} ∧
    before_calls evs = seq 0 (length (_before_hooks srv)) ∧
    sent evs = [] ∧ handler_calls evs = [] ∧ error_calls evs = [] ∧
    after_codes evs = [].
Proof.
  intros Hm Ht Hv Hu Hhs Hpost Hin Hf req.
  rewrite (process_after_headers srv c fuel m target version hs rest) by done.
  rewrite bool_decide_eq_false_2 by done.
  unfold mbind at 1, M_bind at 1, mret at 1, M_ret at 1.
  unfold mbind at 1, M_bind at 1.
  match goal with
  | |- context [run_before 0 ?hooks ?s0] =>
      destruct (run_before_events hooks 0 s0) as (evs & Hrun & Hcalls & Hrest)
  end.
  rewrite Hrun. exists evs. split; [|split; [exact Hcalls|exact Hrest]].
  unfold mbind at 1, M_bind at 1, get.
  cbn [request input status_code log]. fold req. reflexivity.
Qed.

End Request.

End ServerRequest.

(** ** Whole connections *)

Module ServerExchange.
Import Server ServerSpec ServerFacts HookFacts PyFacts PyMore ServerMore
       ServerErrors ServerAnswers StripFacts ServerParse ServerRequest.

Section Exchange.
Context {JSON : Type}.
Variable json_loads : bytes → option JSON.
Variable json_dumps : JSON → str.
Variable fs : str → option file.

Implicit Types (s : @st JSON) (c : conn) (srv : @HttpServer JSON).

Lemma enter_fields srv c :
  routes (enter srv c) = routes srv ∧
  _before_hooks (enter srv c) = _before_hooks srv ∧
  _after_hooks (enter srv c) = _after_hooks srv ∧
  _error_hooks (enter srv c) = _error_hooks srv.
Proof. unfold enter. now destruct (full srv). Qed.

Lemma readlines_silent (ls : list bytes) :
  sent (map EvReadline ls) = [] ∧ handler_calls (map EvReadline ls) = [] ∧
  error_calls (map EvReadline ls) = [] ∧ after_codes (map EvReadline ls) = [].
Proof. induction ls as [|l ls (I1 & I2 & I3 & I4)]; [done|]. now cbn. Qed.

Lemma writes_silent (ws : list bytes) :
  handler_calls (map EvWrite ws) = [] ∧ error_calls (map EvWrite ws) = [] ∧
  after_codes (map EvWrite ws) = [].
Proof. induction ws as [|w ws (I1 & I2 & I3)]; [done|]. now cbn. Qed.

(** X18.  A request whose method is [OPTIONS] when the before-hooks have run is
    answered with the 204 head and nothing else: no route is looked up, no
    handler and no error hook is called, and the after-hooks are given
    204. *)
Theorem options_preflight srv c fuel (m target version : str)
    (hs : list (str * str)) (rest : bytes) :
  full srv = false → awrite_error c = None →
  token m → token target → token version →
  Py.utf8_valid (request_line m target version) = true →
  Forall wellformed_header hs → m ≠ B "POST" →
  peer_input c = request_line m target version ++ header_block hs ++ CRLF ++ rest →
  (length hs < fuel)%nat →
  method (hooked (_before_hooks srv) (parsed_request m target hs)) = B "OPTIONS" →
  ∃ l, handle json_loads json_dumps fs srv c fuel
       = (release (enter srv c) c, Ok tt, l) ∧
       sent l = concat (response_head 204 (B "text/html") false) ∧
       handler_calls l = [] ∧ error_calls l = [] ∧
       after_codes l = imap (λ i _, (i, 204)) (_after_hooks srv).
Proof.
  intros Hf Hw Hm Ht Hv Hu Hhs Hpost Hin Hfuel Hopt.
  destruct (enter_fields srv c) as (_ & Hb & _ & _).
  destruct (process_head json_loads json_dumps fs (enter srv c) c fuel
              m target version hs rest)
    as (evs & Hp & _ & B1 & B2 & B3 & B4); auto.
  rewrite Hb in Hp. rewrite bool_decide_eq_true_2 in Hp by done.
  unfold mbind, M_bind, set_status_code in Hp. rewrite send_headers_ok in Hp by done.
  match type of Hp with _ = (_, ?s1) =>
    destruct (handle_admitted json_loads json_dumps fs srv c fuel (Ok tt) s1 Hf)
      as (evs' & Hh & Hcodes & Hcl); [|done|]
  end.
  { unfold try_except. now rewrite Hp. }
  eexists. split; [exact Hh|].
  destruct (closing_silent evs' Hcl) as (C1 & C2 & C3).
  cbn [log logged status_code] in *.
  destruct (readlines_silent (request_line m target version
                              :: map header_line hs ++ [CRLF])) as (R1 & R2 & R3 & R4).
  destruct (writes_silent (response_head 204 (B "text/html") false)) as (W1 & W2 & W3).
  rewrite !sent_app, !handler_calls_app, !error_calls_app, !after_codes_app.
  rewrite R1, R2, R3, R4, B1, B2, B3, B4, C1, C2, C3, W1, W2, W3, sent_writes, Hcodes.
  cbn [app]. now rewrite !app_nil_r.
Qed.

(** X19.  A POST whose [Content-Length] promises more than the peer sends before
    it shuts its side down is never answered: the body loop goes on for
    ever, whatever the time allowed; nothing is written, the after-hooks
    never run and the connection keeps its slot. *)
Theorem short_post_holds_slot srv c fuel (target version : str)
    (hs : list (str * str)) (body v : bytes) (n : Z) :
  full srv = false → peer_end c = None →
  token target → token version →
  Py.utf8_valid (request_line (B "POST") target version) = true →
  Forall wellformed_header hs →
  peer_input c
  = request_line (B "POST") target version ++ header_block hs ++ CRLF ++ body →
  headers (parsed_request (JSON:=JSON) (B "POST") target hs) !! B "Content-Length"
  = Some v →
  Py.int_of 10 v = Some n → Z.of_nat (length body) < n →
  (length hs < fuel)%nat →
  ∃ l, handle json_loads json_dumps fs srv c fuel = (enter srv c, Spin, l) ∧
       conn_id c ∈ _connections (enter srv c) ∧
       sent l = [] ∧ after_codes l = [].
Proof.
  intros Hf He Ht Hv Hu Hhs Hin Hcl Hint Hshort Hfuel.
  assert (token (B "POST")) as Hm by (split; [discriminate|repeat constructor]).
  pose proof (process_after_headers json_loads json_dumps fs (enter srv c) c fuel
                (B "POST") target version hs body Hm Ht Hv Hu Hhs Hin Hfuel) as Hp.
  rewrite bool_decide_eq_true_2 in Hp by done.
  match type of Hp with _ = _ ?s0 =>
    pose proof (read_json_starved json_loads c fuel s0 v n Hcl Hint He Hshort) as Hs;
    destruct (read_json json_loads c fuel s0) as [r s1] eqn:Hr
  end.
  cbn [fst] in Hs. subst r.
  unfold mbind at 1, M_bind at 1 in Hp. rewrite Hr in Hp.
  apply read_json_log in Hr as [ds Hds]. cbn [log] in Hds.
  exists (log s1). split; [|split].
  - unfold handle. rewrite Hf. unfold serve, try_finally, try_except. now rewrite Hp.
  - unfold enter. rewrite Hf. cbn. apply elem_of_union_l. now apply elem_of_singleton.
  - rewrite Hds, sent_app, after_codes_app.
    destruct (readlines_silent (request_line (B "POST") target version
                                :: map header_line hs ++ [CRLF])) as (R1 & _ & _ & R4).
    rewrite R1, R4. clear. split; induction ds; auto.
Qed.

End Exchange.

End ServerExchange.

(** ** A route that does not take the method *)

Module MethodMismatch.
Import Server Registration ServerSpec ServerFacts HookFacts PyFacts PyMore
       ServerMore ServerErrors ServerAnswers StripFacts ServerParse
       ServerRequest ServerExchange.

Section Mismatch.
Context {JSON : Type}.
Variable json_loads : bytes → option JSON.
Variable json_dumps : JSON → str.
Variable fs : str → option file.

Implicit Types (s : @st JSON) (c : conn) (srv : @HttpServer JSON).

Lemma reads_silent (ds : list bytes) :
  sent (map EvRead ds) = [] ∧ handler_calls (map EvRead ds) = [] ∧
  error_calls (map EvRead ds) = [].
Proof. induction ds as [|d ds (I1 & I2 & I3)]; [done|]. now cbn. Qed.

Lemma post_block_log c fuel m s r s' :
  post_block json_loads c fuel m s = (r, s') →
  ∃ ds, log s' = log s ++ map EvRead ds.
Proof.
  unfold post_block. destruct (bool_decide _).
  - apply read_json_log.
  - intros [= <- <-]. exists []. now rewrite app_nil_r.
Qed.

(** What the static responder writes on a connection whose writes succeed
    does not depend on the state of the task. *)
Lemma serve_static_answer c (req : @Request JSON) :
  awrite_error c = None →
  ∃ ws, (∀ s, serve_static fs c req s = (Ok tt, logged s (map EvWrite ws))) ∧
        (Py.startswith (B "HTTP/1.1 200" ++ CRLF) (concat ws) = true ∨
         Py.startswith (B "HTTP/1.1 404" ++ CRLF) (concat ws) = true) ∧
        (fs (static_target (url req)).1.1 = None →
         ws = response_head 404 (B "text/html") false ++ [not_found_body]).
Proof.
  intros Hw. destruct (static_target (url req)) as [[path ct] binary] eqn:Ht.
  cbn [fst snd].
  destruct (fs path) as [[content|]|] eqn:Hf.
  - exists (response_head 200 ct true ++ file_chunks (S (length content)) content).
    split; [|split; [left; reflexivity|discriminate]].
    intros s. now apply serve_static_found with (path := path) (binary := binary).
  - exists (response_head 200 ct true ++ response_head 404 (B "text/html") false
            ++ [not_found_body]).
    split; [|split; [left; reflexivity|discriminate]].
    intros s. unfold serve_static. rewrite Ht.
    unfold send_file, try_except, mbind, M_bind, lift, os_stat, open_file, raise.
    rewrite Hf. rewrite send_headers_ok by done.
    rewrite bool_decide_eq_false_2 by discriminate. cbn [is_OSError].
    rewrite send_headers_ok, write_ok by done.
    now rewrite !logged_app, !map_app.
  - exists (response_head 404 (B "text/html") false ++ [not_found_body]).
    split; [|split; [right; reflexivity|done]].
    intros s.
    now apply serve_static_missing with (path := path) (ct := ct) (binary := binary).
Qed.

(** C10 (amended).  A request with a well-formed head, whose body, if it
    is a POST, has been read, and which is not an OPTIONS request when the
    before-hooks have run: if its path is a registered route and its method
    is not among the methods of that route, the connection is answered by
    the static responder and by nothing else.  No handler runs, the
    wildcard's included, and no error hook; what is sent is what the
    static responder writes for the request, so the status line is that of
    200 or of 404, never of 405; it is the 404 page when the static root
    has nothing at the path.  And registering any wildcard route changes
    nothing to the dispatch of this request, whose path has a route of its
    own. *)
Theorem method_mismatch_served_static srv c fuel (m target version : str)
    (hs : list (str * str)) (rest : bytes) s1 (h : handler) (methods : list str) :
  full srv = false → awrite_error c = None →
  token m → token target → token version →
  Py.utf8_valid (request_line m target version) = true →
  Forall wellformed_header hs →
  peer_input c = request_line m target version ++ header_block hs ++ CRLF ++ rest →
  (length hs < fuel)%nat →
  post_block json_loads c fuel m (after_head m target version hs rest) = (Ok tt, s1) →
  let req := hooked (_before_hooks srv) (request s1) in
  method req ≠ B "OPTIONS" →
  routes srv !! url req = Some (h, methods) →
  method req ∉ methods →
  (∃ l ws, handle json_loads json_dumps fs srv c fuel
           = (release (enter srv c) c, Ok tt, l) ∧
           handler_calls l = [] ∧ error_calls l = [] ∧
           (∀ s, serve_static fs c req s = (Ok tt, logged s (map EvWrite ws))) ∧
           sent l = concat ws ∧
           (Py.startswith (B "HTTP/1.1 200" ++ CRLF) (sent l) = true ∨
            Py.startswith (B "HTTP/1.1 404" ++ CRLF) (sent l) = true) ∧
           (fs (static_target (url req)).1.1 = None →
            sent l = concat (response_head 404 (B "text/html") false)
                     ++ not_found_body)) ∧
  (∀ methods' func', url req ≠ B "*" →
     dispatch json_dumps fs (route srv (B "*") methods' func') c req
     = dispatch json_dumps fs srv c req).
Proof.
  intros Hf Hw Hm Ht Hv Hu Hhs Hin Hfuel Hpost req Hopt Hr Hmis.
  split.
  2:{ intros methods' func' Hstar. unfold dispatch, route. cbn [routes].
      rewrite lookup_insert_ne by (intros E; now apply Hstar).
      now rewrite Hr. }
  destruct (enter_fields srv c) as (Hroutes & Hb & _ & _).
  pose proof (process_after_headers json_loads json_dumps fs (enter srv c) c fuel
                m target version hs rest Hm Ht Hv Hu Hhs Hin Hfuel) as Hp.
  fold (post_block json_loads c fuel m) in Hp.
  fold (after_head (JSON:=JSON) m target version hs rest) in Hp.
  unfold mbind at 1, M_bind at 1 in Hp. rewrite Hpost in Hp.
  destruct (post_block_log _ _ _ _ _ _ Hpost) as [ds Hds].
  destruct (run_before_events (_before_hooks (enter srv c)) 0 s1)
    as (evs & Hrun & _ & B1 & B2 & B3 & _).
  unfold mbind at 1, M_bind at 1 in Hp. rewrite Hrun in Hp.
  unfold mbind at 1, M_bind at 1, get in Hp.
  cbn [request] in Hp. rewrite Hb in Hp. fold req in Hp.
  rewrite bool_decide_eq_false_2 in Hp by done.
  rewrite (ServerClaims.dispatch_method_mismatch json_dumps fs (enter srv c) c req
             h methods) in Hp by (rewrite ?Hroutes; done).
  destruct (serve_static_answer c req Hw) as (ws & Hstatic & Hline & Hnone).
  rewrite Hstatic in Hp.
  match type of Hp with _ = (_, ?s2) =>
    destruct (handle_admitted json_loads json_dumps fs srv c fuel (Ok tt) s2 Hf)
      as (evs' & Hh & _ & Hcl); [|done|]
  end.
  { unfold try_except. now rewrite Hp. }
  eexists. exists ws. split; [exact Hh|].
  destruct (closing_silent evs' Hcl) as (C1 & C2 & C3).
  cbn [log logged] in *. rewrite Hds. cbn [log after_head].
  destruct (readlines_silent (request_line m target version
                              :: map header_line hs ++ [CRLF])) as (R1 & R2 & R3 & _).
  destruct (reads_silent ds) as (D1 & D2 & D3).
  destruct (writes_silent ws) as (W1 & W2 & _).
  rewrite !sent_app, !handler_calls_app, !error_calls_app.
  rewrite R1, R2, R3, D1, D2, D3, B1, B2, B3, C1, C2, C3, W1, W2, sent_writes.
  cbn [app]. rewrite !app_nil_r.
  split; [done|]. split; [done|]. split; [exact Hstatic|]. split; [done|].
  split; [exact Hline|].
  intros Hn. rewrite (Hnone Hn). rewrite concat_app. cbn [concat].
  now rewrite app_nil_r.
Qed.

End Mismatch.

(** *** Concrete runs *)

(** C10 at [GET /led] where [/led] accepts POST only and the wildcard
    route accepts GET: the answer is the static responder's 404. *)
Lemma method_mismatch_served_static_witness :
  let srv := new_server led_routes [seen] 10 in
  let c := peer 1 (http_get (B "/led")) in
  ∃ l, handle loads dumps site srv c 16 = (release (enter srv c) c, Ok tt, l) ∧
       handler_calls l = [] ∧
       sent l = concat (response_head 404 (B "text/html") false) ++ not_found_body.
Proof.
  intros srv c.
  destruct (method_mismatch_served_static loads dumps site srv c 16
              (B "GET") (B "/led") (B "HTTP/1.1") [] []
              (after_head (B "GET") (B "/led") (B "HTTP/1.1") [] [])
              (answers (Ok (HText (B "on")))) [B "POST"])
    as [(l & ws & Hh & Hc & _ & _ & _ & _ & Hs) _].
  - reflexivity.
  - reflexivity.
  - split; [discriminate|repeat constructor].
  - split; [discriminate|repeat constructor].
  - split; [discriminate|repeat constructor].
  - reflexivity.
  - constructor.
  - reflexivity.
  - simpl. lia.
  - reflexivity.
  - discriminate.
  - vm_compute. reflexivity.
  - vm_compute. intros H. inversion H as [|? ? ? H1]; subst; inversion H1.
  - exists l. split; [exact Hh|]. split; [exact Hc|]. apply Hs. reflexivity.
Defined.

(** A POST with a JSON body on a path whose route takes GET only. *)
Example post_on_get_route :
  let routes := <[B "/status" := (answers (Ok (HText (B "ok"))), [B "GET"])]>
                  (<[B "*" := (answers (Ok (HText (B "fallback"))), [B "POST"])]> ∅) in
  let l := run routes (http_post (B "/status") (B "Content-Length: 2") (B "{}")) in
  reads l = [B "{}"] ∧ handler_calls l = [] ∧
  status_lines l = [B "HTTP/1.1 404" ++ CRLF].
Proof. repeat split; vm_compute; reflexivity. Qed.

(** C10 as stated fails on [OPTIONS /led] where [/led] accepts POST only:
    the path matches a route, the method is not among its methods, and the
    answer is the 204 head of the OPTIONS branch; the static responder,
    which would answer 404, is not reached. *)
Lemma options_mismatch_counterexample :
  let l := run led_routes (B "OPTIONS /led HTTP/1.1" ++ CRLFCRLF) in
  snd <$> led_routes !! B "/led" = Some [B "POST"] ∧
  sent l = concat (response_head 204 (B "text/html") false) ∧
  handler_calls l = [] ∧
  sent (log (serve_static site (peer 1 [])
               ({| method := B "OPTIONS"; url := B "/led"; headers := ∅;
                   args := ∅; json := None |} : @Request bytes)
               (initial (peer 1 []))).2)
  = concat (response_head 404 (B "text/html") false) ++ not_found_body.
Proof. repeat split; vm_compute; reflexivity. Qed.

End MethodMismatch.

(** ** The client against the server *)

Module Exchange.
Import Server ServerSpec ServerFacts HookFacts PyFacts PyMore ServerMore
       ServerErrors ServerAnswers StripFacts ServerParse ServerRequest
       ServerExchange ExchangeSpec.
Import ClientSpec.

Section Exchange.
Context {JSON : Type}.
Variable json_loads : bytes → option JSON.
Variable json_dumps : JSON → str.
Variable fs : str → option file.

Implicit Types (s : @st JSON) (c : conn) (srv : @HttpServer JSON).

(** The request the client writes, as request line and header lines. *)
Lemma request_bytes_head (host path : str) :
  Client.request_bytes host path
  = request_line (B "GET") path (B "HTTP/1.1")
    ++ header_block [(B "Host", B " " ++ host); (B "Connection", B " close")]
    ++ CRLF ++ [].
Proof.
  unfold Client.request_bytes, request_line, header_block, header_line.
  cbn [map concat fst snd]. rewrite <- !app_assoc. reflexivity.
Qed.

Lemma not_in_literal (b : byte) (l : bytes) :
  forallb (λ x, negb (bool_decide (x = b))) l = true → b ∉ l.
Proof.
  intros H Hin. rewrite forallb_forall in H.
  apply list_elem_of_In, H in Hin. now rewrite bool_decide_eq_true_2 in Hin.
Qed.

Lemma ascii_token_line (host path : str) :
  token host → forallb is_ascii host = true →
  token path → forallb is_ascii path = true →
  Py.utf8_valid (request_line (B "GET") path (B "HTTP/1.1")) = true ∧
  Forall wellformed_header [(B "Host", B " " ++ host); (B "Connection", B " close")].
Proof.
  intros Hh Hha Hp Hpa. split.
  - apply ClientHeader.utf8_valid_ascii. unfold request_line.
    rewrite !forallb_app, Hpa. reflexivity.
  - apply Forall_cons. split; [|apply Forall_cons; split; [|constructor]];
      unfold wellformed_header; cbn [fst snd].
    + split; [reflexivity|]. split; [now apply not_in_literal|]. split.
      * apply not_elem_of_app. split; [now apply not_in_literal|].
        now apply token_no_byte.
      * apply ClientHeader.utf8_valid_ascii. unfold header_line. cbn [fst snd].
        rewrite !forallb_app, Hha. reflexivity.
    + split; [reflexivity|]. split; [now apply not_in_literal|].
      split; [now apply not_in_literal|reflexivity].
Qed.

Lemma parsed_url m (path : str) hs :
  Py.contains (B "?") path = false →
  url (parsed_request (JSON:=JSON) m path hs) = path.
Proof.
  intros Hq. unfold parsed_request, parse_target. cbn [url].
  change (B "?") with [x3f] in *. now rewrite (ClientMore.split_once_none _ _ Hq).
Qed.

(** A GET written by the client, on a server without before-hooks and
    without a route for the path, ends in the static responder. *)
Lemma get_static srv id fuel (host path : str) (ws : list bytes) :
  let c := peer id (Client.request_bytes host path) in
  let req : @Request JSON :=
    parsed_request (B "GET") path
      [(B "Host", B " " ++ host); (B "Connection", B " close")] in
  full srv = false → _before_hooks srv = [] →
  routes srv !! path = None → routes srv !! B "*" = None →
  token host → forallb is_ascii host = true →
  token path → forallb is_ascii path = true →
  Py.contains (B "?") path = false →
  (2 < fuel)%nat →
  (∀ s, serve_static fs c req s = (Ok tt, logged s (map EvWrite ws))) →
  url req = path ∧
  ∃ l, handle json_loads json_dumps fs srv c fuel
       = (release (enter srv c) c, Ok tt, l) ∧
       sent l = concat ws ∧
       after_codes l = imap (λ i _, (i, 200)) (_after_hooks srv).
Proof.
  intros c req Hf Hb Hr Hstar Hh Hha Hp Hpa Hq Hfuel Hstatic.
  destruct (ascii_token_line host path Hh Hha Hp Hpa) as [Hu Hhs].
  assert (url req = path) as Hurl.
  { now apply parsed_url. }
  split; [exact Hurl|].
  destruct (enter_fields srv c) as (Hroutes & Hb' & _ & _).
  assert (token (B "GET")) as Tg by (split; [discriminate|repeat constructor]).
  assert (token (B "HTTP/1.1")) as Tv by (split; [discriminate|repeat constructor]).
  destruct (process_head json_loads json_dumps fs (enter srv c) c fuel
              (B "GET") path (B "HTTP/1.1")
              [(B "Host", B " " ++ host); (B "Connection", B " close")] []
              Tg Hp Tv Hu Hhs ltac:(discriminate) (request_bytes_head host path)
              ltac:(simpl; lia))
    as (evs & Hproc & _ & B1 & B2 & B3 & B4).
  rewrite Hb', Hb in Hproc. unfold hooked in Hproc. cbn [foldl] in Hproc.
  fold req in Hproc.
  rewrite bool_decide_eq_false_2 in Hproc by discriminate.
  assert (dispatch json_dumps fs (enter srv c) c req = serve_static fs c req) as Hd.
  { unfold dispatch. rewrite Hroutes, Hurl, Hr, Hstar. reflexivity. }
  rewrite Hd, Hstatic in Hproc.
  match type of Hproc with _ = (_, ?s1) =>
    destruct (handle_admitted json_loads json_dumps fs srv c fuel (Ok tt) s1 Hf)
      as (evs' & Hh' & Hcodes & Hcl); [|done|]
  end.
  { unfold try_except. now rewrite Hproc. }
  eexists. split; [exact Hh'|].
  destruct (closing_silent evs' Hcl) as (C1 & C2 & C3).
  cbn [log logged status_code] in *.
  match goal with
  | |- context [map EvReadline ?ls] =>
      destruct (readlines_silent ls) as (R1 & R2 & R3 & R4)
  end.
  destruct (writes_silent ws) as (W1 & W2 & W3).
  rewrite !sent_app, !after_codes_app.
  rewrite R1, R4, B1, B4, C1, W3, sent_writes, Hcodes.
  cbn [app]. now rewrite !app_nil_r.
Qed.

(** The content types of the static responder. *)
Lemma static_content_type (u : str) :
  (static_target u).1.2 ∈
    [B "text/html"; B "text/css"; B "application/javascript"; B "image/x-icon";
     B "image/png"; B "image/jpeg"; B "application/json";
     B "application/octet-stream"].
Proof.
  unfold static_target. cbn [fst snd].
  destruct (_MIME !! _) as [ct|] eqn:E; cbn [default from_option id].
  - unfold _MIME in E. apply elem_of_list_to_map_2 in E.
    rewrite !elem_of_cons, elem_of_nil in E.
    rewrite !elem_of_cons.
    repeat (destruct E as [E|E]; [injection E as _ ->; tauto|]). done.
  - rewrite !elem_of_cons. tauto.
Qed.

Lemma static_content_type_plain (u : str) :
  let ct := (static_target u).1.2 in
  (CR ∉ ct) ∧ forallb is_ascii ct = true ∧ Py.strip ct = ct ∧
  (length (concat (response_head 200 ct true)) ≤ 256)%nat.
Proof.
  intros ct. pose proof (static_content_type u) as H. fold ct in H.
  rewrite !elem_of_cons, elem_of_nil in H.
  repeat (destruct H as [-> | H];
          [repeat split; try reflexivity;
           [apply EndToEnd.no_cr_literal; reflexivity
           |apply Nat.leb_le; vm_compute; reflexivity]|]).
  done.
Qed.

(** X20.  The client against the server.  A GET for a path that no route covers
    is answered by the static responder, and the client returns what the
    responder found: for a file that exists and is ASCII, status 200, the
    content type of the table and the content of the file, whatever the
    segments the response travels in; the first attempt succeeds and no
    other is made. *)
Theorem client_fetches_static_file srv (fuel_s fuel : nat)
    (cut : bytes → list bytes) (host p content : str) (retries : Z) :
  let path := B "/" ++ p in
  let ct := (static_target path).1.2 in
  full srv = false → _before_hooks srv = [] →
  routes srv !! path = None → routes srv !! B "*" = None →
  token host → forallb is_ascii host = true → Py.contains (B "/") host = false →
  token path → forallb is_ascii path = true → Py.contains (B "?") path = false →
  fs (static_target path).1.1 = Some (File content) →
  forallb is_ascii content = true →
  (∀ x, concat (cut x) = x) →
  1 ≤ retries → (2 < fuel_s)%nat → (256 + length content < fuel)%nat →
  ∃ headers,
    Client.http_client (served_by json_loads json_dumps fs srv fuel_s cut) fuel
      (B "http://" ++ host ++ path) retries None
    = (Ok (Some {| Client.status_code := 200;
                   Client.headers := Some headers;
                   Client.body := content |}),
       [Client.EvAttempt 0]) ∧
    headers !! B "content-type" = Some ct.
Proof.
  intros path ct Hf Hb Hr Hstar Hh Hha Hslash Hp Hpa Hq Hfile Hca Hcut Hret Hfs Hfc.
  destruct (static_target path) as [[fpath ct'] binary] eqn:Et.
  cbn [fst snd] in *. subst ct.
  pose proof (static_content_type_plain path) as Hct. rewrite Et in Hct.
  cbn [fst snd] in Hct. destruct Hct as (Hcr & Hcta & Hstrip & Hlen).
  set (c := peer 0 (Client.request_bytes host path)).
  set (ws := response_head 200 ct' true ++ file_chunks (S (length content)) content).
  destruct (get_static srv 0 fuel_s host path ws) as (Hurl & l & Hh' & Hsent & _);
    auto.
  { intros s. apply serve_static_found with (path := fpath) (binary := binary);
      [reflexivity| |done].
    now rewrite parsed_url. }
  assert (concat (cut (sent l)) = concat (response_head 200 ct' true) ++ content)
    as Hseg.
  { rewrite Hcut, Hsent. unfold ws. rewrite concat_app.
    now rewrite (file_chunks_concat (S (length content))) by lia. }
  destruct (EndToEnd.response_read_back fuel 200 ct' true content (cut (sent l)))
    as (headers & Hreq & Hty); auto.
  { unfold Client.MAX_HEADER. lia. }
  { rewrite Hseg, length_app. lia. }
  exists headers. split; [|now rewrite Hty, Hstrip].
  unfold Client.http_client. subst path.
  rewrite (ClientMore.parse_url_http host p Hslash).
  destruct (Z.to_nat retries) as [|n] eqn:En; [lia|].
  cbn [Client.retry_loop]. unfold served_by.
  change (Z.of_nat O) with Z0. rewrite Hh'. cbn [snd].
  now rewrite Hreq.
Qed.

End Exchange.

End Exchange.

(** ** Hooks, registration and the answer read back *)

Module ServerPipeline.
Import Server Registration ServerSpec ServerFacts HookFacts PyFacts PyMore
       ServerMore ServerErrors ServerAnswers StripFacts ServerParse
       ServerRequest ServerExchange ExchangeSpec Exchange.
Import ClientSpec.

Section Pipeline.
Context {JSON : Type}.
Variable json_loads : bytes → option JSON.
Variable json_dumps : JSON → str.
Variable fs : str → option file.

Implicit Types (s : @st JSON) (c : conn) (srv : @HttpServer JSON).

(** X21.  Every before-hook is called once, in registration order, on the
    request as the hooks before it left it; a hook that raises is
    reported and stops neither the hooks after it nor the request. *)
Theorem before_hooks_all_run (hooks : list (@before_hook JSON)) i s :
  ∃ evs, run_before i hooks s
         = (Ok tt, {| input := input s; request := hooked hooks (request s);
                      status_code := status_code s; log := log s ++ evs |}) ∧
         before_calls evs = seq i (length hooks) ∧
         sent evs = [] ∧ handler_calls evs = [] ∧ error_calls evs = [] ∧
         after_codes evs = [].
Proof. apply run_before_events. Qed.

(** X22.  A well-formed head is parsed into its method, the path and the
    arguments of its target, and its headers -- names and values stripped,
    names in the case they were sent in, a later line replacing an earlier
    one of the same name --, and the bytes after the blank line are left
    unread for the rest of the [try] block. *)
Theorem request_head_parsed srv c fuel (m target version : str)
    (hs : list (str * str)) (rest : bytes) :
  token m → token target → token version →
  Py.utf8_valid (request_line m target version) = true →
  Forall wellformed_header hs →
  peer_input c = request_line m target version ++ header_block hs ++ CRLF ++ rest →
  (length hs < fuel)%nat →
  process json_loads json_dumps fs srv c fuel (initial c)
  = ((if bool_decide (m = B "POST") then read_json json_loads c fuel else mret tt);;
     run_before 0 (_before_hooks srv);;
     s ← get;
     if bool_decide (method (request s) = B "OPTIONS")
     then set_status_code 204;; send_headers c 204 (B "text/html") false
     else dispatch json_dumps fs srv c (request s))
      {| input := rest;
         request := {| method := m; url := (parse_target target).1;
                       headers := foldl (λ hd h, <[Py.strip h.1 := Py.strip h.2]> hd)
                                        ∅ hs;
                       args := (parse_target target).2; json := None |};
         status_code := 200;
         log := map EvReadline (request_line m target version
                                :: map header_line hs ++ [CRLF]) |}.
Proof. apply process_after_headers. Qed.

(** *** Registration *)

(** X23.  A route registered for a path replaces the one registered before for
    the same path, and changes the dispatch of no request for another
    path unless it is the wildcard; registering a hook changes no
    dispatch. *)
Theorem route_registration srv c (req : @Request JSON) (path : str)
    (methods methods' : list str) (func func' : handler)
    (bh : before_hook) (ah : after_hook) (eh : error_hook) :
  dispatch json_dumps fs (route (route srv path methods' func') path methods func) c req
  = dispatch json_dumps fs (route srv path methods func) c req ∧
  (path ≠ url req → path ≠ B "*" →
   dispatch json_dumps fs (route srv path methods func) c req
   = dispatch json_dumps fs srv c req) ∧
  dispatch json_dumps fs (before srv bh) c req = dispatch json_dumps fs srv c req ∧
  dispatch json_dumps fs (after srv ah) c req = dispatch json_dumps fs srv c req ∧
  dispatch json_dumps fs (on_error srv eh) c req = dispatch json_dumps fs srv c req.
Proof.
  split; [|split; [|done]].
  - unfold dispatch, route. cbn [routes]. now rewrite insert_insert_eq.
  - intros Hu Hs. unfold dispatch, route. cbn [routes].
    now rewrite !lookup_insert_ne by done.
Qed.

(** *** What the client makes of an answer *)

(** X24.  Whatever status and content type the server writes with
    [send_headers], followed by an ASCII payload, the client reports this
    status, this content type and this payload, however the bytes are cut
    on their way, provided the head fits the client's limit. *)
Theorem head_read_back c (code : Z) (ct : bytes) (cache : bool) (payload : bytes)
    (cut : bytes → list bytes) (fuel : nat) :
  let s1 : @st JSON :=
    ((send_headers c code ct cache;; write c payload) (initial c)).2 in
  awrite_error c = None →
  CR ∉ ct → forallb is_ascii ct = true → forallb is_ascii payload = true →
  (length (concat (response_head code ct cache)) + 63 ≤ Client.MAX_HEADER)%nat →
  (∀ x, concat (cut x) = x) →
  (length (sent (log s1)) < fuel)%nat →
  ∃ headers,
    Client.single_request fuel None (delivers (cut (sent (log s1))))
    = Ok {| Client.status_code := code; Client.headers := Some headers;
            Client.body := payload |} ∧
    headers !! B "content-type" = Some (Py.strip ct).
Proof.
  intros s1 Hw Hcr Hct Hpay Hlen Hcut Hf.
  assert (sent (log s1) = concat (response_head code ct cache) ++ payload) as Hs.
  { unfold s1, mbind, M_bind.
    rewrite (send_headers_ok c code ct cache _ Hw), (write_ok c payload _ Hw).
    cbn [snd]. rewrite logged_app. cbn [log logged initial app].
    rewrite sent_app, sent_writes. cbn. now rewrite app_nil_r. }
  rewrite Hs in *.
  apply (EndToEnd.response_read_back fuel code ct cache payload); auto;
    now rewrite Hcut.
Qed.

End Pipeline.

End ServerPipeline.

(** ** The weather fetch *)

Module CallerFacts.
Import Client ClientSpec OpenMeteo ClientClaims.

(** X25.  [update] asks for one attempt only, so the client always hands it a
    response: the [except] branch around the call is never taken and
    [status_code] is never read from [None].  When the attempt fails --
    an error or the timeout -- [update] prints the status 500 of the
    synthetic response and returns [False] with [weather_data] as it was,
    the body never being looked at.  The request goes to port 80 of
    [api.open-meteo.com] without TLS, whatever the coordinates. *)
Theorem update_single_attempt {JSON} (process_body : str → result bool * option JSON)
    (net : network) (fuel : nat) (url : str) (weather_data : option JSON) :
  (∀ e, EvPrintFetchFailed e ∉ (update process_body net fuel url weather_data).2) ∧
  (∃ response log, http_client net fuel url 1 None = (Ok (Some response), log)) ∧
  (∀ e, attempt net fuel url None 0 = Raise e →
        update process_body net fuel url weather_data
        = (Ok false, weather_data,
           [EvHttp (EvAttempt 0); EvHttp (EvPrint e); EvPrintStatus 500])) ∧
  (∀ latitude longitude tilt azimuth,
     ∃ path, parse_url (forecast_url latitude longitude tilt azimuth)
             = (false, B "api.open-meteo.com", 80, B "/v1/forecast?" ++ path)).
Proof.
  assert (∃ resp log, http_client net fuel url 1 None = (Ok (Some resp), log) ∧
                      (∀ e, attempt net fuel url None 0 = Raise e →
                            resp = synthetic e ∧ log = [EvAttempt 0; EvPrint e]))
    as (resp & log & Hc & Hfail).
  { unfold http_client, attempt. destruct (parse_url url) as [[[ssl host] port] path].
    change (Z.to_nat 1) with 1%nat. cbn [retry_loop].
    destruct (wait_for_ms _) as [r|e|] eqn:E.
    - exists r, [EvAttempt 0]. split; [done|discriminate].
    - exists (synthetic e), [EvAttempt 0; EvPrint e]. split; [reflexivity|].
      now intros e' [= <-].
    - now apply wait_for_ms_not_spin in E. }
  unfold update. split; [|split; [|split]]; rewrite ?Hc.
  - intros e. destruct (bool_decide _); [|destruct (process_body _)]; cbn [snd].
    + rewrite elem_of_app, list_elem_of_fmap. intros [(ev & Hev & _)|Hin].
      * discriminate.
      * apply list_elem_of_singleton in Hin. discriminate.
    + rewrite list_elem_of_fmap. intros (ev & Hev & _). discriminate.
  - eauto.
  - intros e He. destruct (Hfail e He) as [-> ->]. reflexivity.
  - intros latitude longitude tilt azimuth. eexists. unfold forecast_url.
    reflexivity.
Qed.

End CallerFacts.

(** ** Concrete runs of the further properties *)

Module ServerRuns.
Import Server Registration ServerSpec ServerFacts HookFacts PyFacts PyMore
       ServerMore ServerErrors ServerAnswers StripFacts ServerParse
       ServerRequest ServerExchange ExchangeSpec Exchange ServerPipeline
       Fixtures.
Import ClientSpec.

Lemma pieces_concat n : ∀ fuel data, concat (pieces fuel n data) = data.
Proof.
  induction fuel as [|fuel IH]; intros data; cbn [pieces].
  - cbn. apply app_nil_r.
  - destruct data as [|b data]; [reflexivity|].
    cbn [concat]. rewrite IH. apply take_drop.
Qed.

(** [GET /missing] on a server with two after-hooks. *)
Lemma after_hooks_run_once_witness :
  let c := peer 1 (http_get (B "/missing")) in
  let out := handle loads dumps site guarded c 16 in
  ∃ code, (code = 200 ∨ code = 204) ∧
          after_codes out.2 = imap (λ i _, (i, code)) (_after_hooks guarded) ∧
          conn_id c ∉ _connections out.1.1.
Proof.
  intros c out.
  apply (after_hooks_run_once loads dumps site guarded c 16 out.1.1 out.1.2 out.2).
  - reflexivity.
  - vm_compute. reflexivity.
  - vm_compute. discriminate.
Defined.

(** A request line of one field. *)
Lemma unparsable_request_unanswered_witness :
  let c := peer 1 (B "HELLO" ++ CRLF) in
  ∃ l, handle loads dumps site guarded c 16
       = (release (enter guarded c) c, Ok tt, EvReadline (B "HELLO" ++ CRLF) :: l) ∧
       sent l = [] ∧ handler_calls l = [] ∧ error_calls l = [] ∧
       after_codes l = [(0%nat, 200); (1%nat, 200)].
Proof.
  apply (unparsable_request_unanswered loads dumps site guarded
           (peer 1 (B "HELLO" ++ CRLF)) 16).
  - reflexivity.
  - reflexivity.
  - right. split; [reflexivity|]. vm_compute. discriminate.
Defined.

(** A client that connects and sends nothing for five seconds. *)
Lemma transport_error_unanswered_witness :
  let c := stalled 1 [] (TimeoutError []) in
  ∃ l, handle loads dumps site guarded c 16
       = (release (enter guarded c) c, Ok tt, EvPrint (TimeoutError []) :: l) ∧
       sent l = [] ∧ handler_calls l = [] ∧ error_calls l = [] ∧
       after_codes l = [(0%nat, 200); (1%nat, 200)].
Proof.
  apply (transport_error_unanswered loads dumps site guarded
           (stalled 1 [] (TimeoutError [])) 16 (TimeoutError []));
    reflexivity.
Defined.

(** A request line that starts with the byte [FF]. *)
Lemma undecodable_request_line_500_witness :
  let c := peer 1 (xff :: B " / HTTP/1.1" ++ CRLFCRLF) in
  ∃ l, handle loads dumps site guarded c 16
       = (release (enter guarded c) c, Ok tt, l) ∧
       sent l = concat (response_head 500 (B "text/html") false)
                ++ B "<h1>500 Internal Server Error</h1>" ∧
       fst <$> error_calls l = [(0%nat, 500)] ∧
       handler_calls l = [] ∧
       after_codes l = [(0%nat, 200); (1%nat, 200)].
Proof.
  apply (undecodable_request_line_500 loads dumps site guarded
           (peer 1 (xff :: B " / HTTP/1.1" ++ CRLFCRLF)) 16).
  - reflexivity.
  - reflexivity.
  - reflexivity.
  - vm_compute. discriminate.
  - reflexivity.
Defined.

(** A handler that raises [HttpError("boom")], with one argument: the
    unpacking fails and its [ValueError] leaves [handle]. *)
Lemma handle_raises_from_except_clause_witness :
  let srv := new_server
               (<[B "/data" := (answers (Raise (HttpErrorArgs 1 (B "boom"))),
                                [B "GET"])]> ∅) [seen] 10 in
  let c := peer 1 (http_get (B "/data")) in
  (write_failure c (unpack_error 1) ∨
   ∃ n text s0,
     process loads dumps site (enter srv c) c 16 (initial c)
     = (Raise (HttpErrorArgs n text), s0) ∧
     unpack_error 1 = unpack_error n) ∧
  (handle loads dumps site srv c 16).1.1 = release (enter srv c) c.
Proof.
  intros srv c.
  apply (handle_raises_from_except_clause loads dumps site srv c 16
           (handle loads dumps site srv c 16).1.1 (unpack_error 1)
           (handle loads dumps site srv c 16).2).
  vm_compute. reflexivity.
Defined.

(** A page requested on a connection that the peer has reset. *)
Lemma static_on_reset_connection_witness :
  let c := broken_pipe 1 [] ECONNRESET in
  serve_static site c (page (B "/index")) (initial c) = (Ok tt, initial c).
Proof.
  apply (static_on_reset_connection site (broken_pipe 1 [] ECONNRESET)
           (page (B "/index")) _ ECONNRESET); reflexivity.
Defined.

(** [GET /v1.2] where [./html/v1.2] is a directory. *)
Lemma static_directory_two_heads_witness :
  let c := peer 1 [] in
  sent (log (serve_static site_with_dir c (page (B "/v1.2")) (initial c)).2)
  = concat (response_head 200 (B "application/octet-stream") true)
    ++ concat (response_head 404 (B "text/html") false)
    ++ not_found_body.
Proof.
  intros c.
  rewrite (static_directory_two_heads site_with_dir c (page (B "/v1.2")) (initial c)
             (B "./html/v1.2") (B "application/octet-stream") false);
    reflexivity.
Defined.

(** The typed 404 of the handler of [/data]. *)
Lemma handler_http_error_answer_witness :
  let c := peer 1 [] in
  ∃ evs,
    try_except (dispatch dumps site guarded c (page (B "/data")))
               (on_exception guarded c) (initial c)
    = (Ok tt, logged (initial c)
                (EvHandler (B "/data") :: evs
                 ++ map EvWrite (response_head 404 (B "text/html") false
                                 ++ [B "<h1>File Not Found</h1>"]))) ∧
    error_calls evs = [(0%nat, 404, B "File Not Found")] ∧
    sent evs = [].
Proof.
  apply (handler_http_error_answer dumps site guarded (peer 1 []) (page (B "/data"))
           (answers (Raise (HttpError 404 (B "File Not Found")))) [B "GET"]
           404 (B "File Not Found") (initial (peer 1 []))).
  - reflexivity.
  - vm_compute. reflexivity.
  - apply list_elem_of_singleton. reflexivity.
  - reflexivity.
  - reflexivity.
Defined.

(** Five body bytes announced, seven sent; and a length of zero. *)
Lemma post_body_exact_witness :
  let c := peer 1 [] in
  read_json loads c 4 (awaiting_body (B "5") (B "hello!!"))
  = (Ok tt, {| input := B "!!";
               request := with_json (request (awaiting_body (B "5") (B "hello!!")))
                            (Some (B "hello"));
               status_code := 200; log := [EvRead (B "hello")] |}) ∧
  read_json loads c 4 (awaiting_body (B "0") (B "hello!!"))
  = (Ok tt, awaiting_body (B "0") (B "hello!!")).
Proof.
  intros c. split.
  - destruct (post_body_exact loads c 4 (awaiting_body (B "5") (B "hello!!")))
      as [Hread _]; [lia|reflexivity|].
    apply (Hread (B "5") 5%nat); [reflexivity|reflexivity|vm_compute; lia].
  - destruct (post_body_exact loads c 4 (awaiting_body (B "0") (B "hello!!")))
      as [_ Hnone]; [lia|reflexivity|].
    apply Hnone. right. exists (B "0"), 0. repeat split; reflexivity || lia.
Defined.

(** Ten body bytes announced, five sent, then the peer shuts down. *)
Lemma short_post_holds_slot_witness :
  let c := peer 1 (http_post (B "/api") (B "Content-Length: 10") (B "hello")) in
  ∃ l, handle loads dumps site guarded c 16 = (enter guarded c, Spin, l) ∧
       conn_id c ∈ _connections (enter guarded c) ∧
       sent l = [] ∧ after_codes l = [].
Proof.
  apply (short_post_holds_slot loads dumps site guarded
           (peer 1 (http_post (B "/api") (B "Content-Length: 10") (B "hello"))) 16
           (B "/api") (B "HTTP/1.1") [(B "Content-Length", B " 10")] (B "hello")
           (B "10") 10).
  - reflexivity.
  - reflexivity.
  - split; [discriminate|repeat constructor].
  - split; [discriminate|repeat constructor].
  - reflexivity.
  - repeat constructor; cbn [fst snd]; try reflexivity;
      apply not_in_literal; reflexivity.
  - reflexivity.
  - vm_compute. reflexivity.
  - reflexivity.
  - vm_compute. reflexivity.
  - simpl. lia.
Defined.

(** [/led?state=on&level=3&state=off]. *)
Lemma parse_target_query_witness :
  parse_target (B "/led?state=on&level=3&state=off")
  = (B "/led", <[B "state" := B "off"]> (<[B "level" := B "3"]>
                 (<[B "state" := B "on"]> ∅))).
Proof.
  destruct (parse_target_query (B "/led")
              [(B "state", B "on"); (B "level", B "3"); (B "state", B "off")])
    as [H _].
  - reflexivity.
  - discriminate.
  - repeat constructor; cbn [fst snd]; apply not_in_literal; reflexivity.
  - exact H.
Defined.

(** A GET that a before-hook turns into OPTIONS. *)
Lemma options_preflight_witness :
  let c := peer 1 (http_get (B "/led")) in
  ∃ l, handle loads dumps site (with_before [force_options]) c 16
       = (release (enter (with_before [force_options]) c) c, Ok tt, l) ∧
       sent l = concat (response_head 204 (B "text/html") false) ∧
       handler_calls l = [] ∧ error_calls l = [] ∧
       after_codes l = [(0%nat, 204)].
Proof.
  apply (options_preflight loads dumps site (with_before [force_options])
           (peer 1 (http_get (B "/led"))) 16
           (B "GET") (B "/led") (B "HTTP/1.1") [] []).
  - reflexivity.
  - reflexivity.
  - split; [discriminate|repeat constructor].
  - split; [discriminate|repeat constructor].
  - split; [discriminate|repeat constructor].
  - reflexivity.
  - constructor.
  - discriminate.
  - reflexivity.
  - simpl. lia.
  - reflexivity.
Defined.

(** The head of [GET /led?state=on] with one header. *)
Lemma request_head_parsed_witness :
  let c := peer 1 (B "GET /led?state=on HTTP/1.1" ++ CRLF
                   ++ B "Accept:  text/plain " ++ CRLF ++ CRLF ++ B "rest") in
  ∃ s, process loads dumps site guarded c 16 (initial c)
       = (run_before 0 [];;
          s ← get;
          if bool_decide (method (request s) = B "OPTIONS")
          then set_status_code 204;; send_headers c 204 (B "text/html") false
          else dispatch dumps site guarded c (request s)) s ∧
       input s = B "rest" ∧
       method (request s) = B "GET" ∧ url (request s) = B "/led" ∧
       args (request s) !! B "state" = Some (B "on") ∧
       headers (request s) !! B "Accept" = Some (B "text/plain").
Proof.
  intros c. eexists. split.
  - apply (request_head_parsed loads dumps site guarded c 16
             (B "GET") (B "/led?state=on") (B "HTTP/1.1")
             [(B "Accept", B "  text/plain ")] (B "rest")).
    + split; [discriminate|repeat constructor].
    + split; [discriminate|repeat constructor].
    + split; [discriminate|repeat constructor].
    + reflexivity.
    + repeat constructor; cbn [fst snd]; try reflexivity;
        apply not_in_literal; reflexivity.
    + reflexivity.
    + simpl. lia.
  - cbn [input request method url args headers]. repeat split; vm_compute; reflexivity.
Defined.

(** A second registration of [/led], and a registration of [/other]. *)
Lemma route_registration_witness :
  let c := peer 1 [] in
  dispatch dumps site
    (route (new_server led_routes [] 10) (B "/other") [B "GET"]
       (answers (Ok HNone))) c (page (B "/led"))
  = dispatch dumps site (new_server led_routes [] 10) c (page (B "/led")).
Proof.
  intros c.
  destruct (route_registration dumps site (new_server led_routes [] 10) c
              (page (B "/led")) (B "/other") [B "GET"] [B "GET"]
              (answers (Ok HNone)) (answers (Ok HNone))
              force_options seen (fun _ _ _ => None)) as (_ & H & _).
  apply H; discriminate.
Defined.

(** A 404 head and an ASCII page, cut every seven bytes. *)
Lemma head_read_back_witness :
  let c := peer 1 [] in
  let cut := fun x => pieces (length x) 6 x in
  let s1 : @st bytes :=
    ((send_headers c 404 (B "text/html") false;; write c not_found_body)
       (initial c)).2 in
  ∃ headers,
    Client.single_request 512 None (delivers (cut (sent (log s1))))
    = Ok {| Client.status_code := 404; Client.headers := Some headers;
            Client.body := not_found_body |} ∧
    headers !! B "content-type" = Some (B "text/html").
Proof.
  intros c cut.
  apply (head_read_back (JSON:=bytes) c 404 (B "text/html") false not_found_body cut 512).
  - reflexivity.
  - apply EndToEnd.no_cr_literal. reflexivity.
  - reflexivity.
  - reflexivity.
  - apply Nat.leb_le. vm_compute. reflexivity.
  - intros x. apply pieces_concat.
  - apply Nat.ltb_lt. vm_compute. reflexivity.
Defined.

(** [http://device.local/index.html] fetched from a server without
    routes, the answer cut every seven bytes. *)
Lemma client_fetches_static_file_witness :
  ∃ headers,
    Client.http_client
      (served_by loads dumps site one_slot 16 (fun x => pieces (length x) 6 x))
      512 (B "http://device.local/index.html") 3 None
    = (Ok (Some {| Client.status_code := 200; Client.headers := Some headers;
                   Client.body := B "<html></html>" |}),
       [Client.EvAttempt 0]) ∧
    headers !! B "content-type" = Some (B "text/html").
Proof.
  apply (client_fetches_static_file loads dumps site one_slot 16 512
           (fun x => pieces (length x) 6 x) (B "device.local") (B "index.html")
           (B "<html></html>") 3).
  - reflexivity.
  - reflexivity.
  - reflexivity.
  - reflexivity.
  - split; [discriminate|repeat constructor].
  - reflexivity.
  - reflexivity.
  - split; [discriminate|repeat constructor].
  - reflexivity.
  - reflexivity.
  - reflexivity.
  - reflexivity.
  - intros x. apply pieces_concat.
  - lia.
  - lia.
  - simpl. lia.
Defined.

End ServerRuns.

Module CallerRuns.
Import Client ClientSpec OpenMeteo CallerFacts.

(** [update] against a server that resets the connection. *)
Lemma update_single_attempt_witness :
  update (JSON:=bytes) (fun body => (Ok true, Some body)) net_reset 8
    (forecast_url (B "45.0395") (B "7.7771") (B "30") (B "-40")) None
  = (Ok false, None,
     [EvHttp (EvAttempt 0); EvHttp (EvPrint (OSError 104 (B "ECONNRESET")));
      EvPrintStatus 500]).
Proof.
  destruct (update_single_attempt (JSON:=bytes) (fun body => (Ok true, Some body))
              net_reset 8
              (forecast_url (B "45.0395") (B "7.7771") (B "30") (B "-40")) None)
    as (_ & _ & H & _).
  apply (H (OSError 104 (B "ECONNRESET"))). reflexivity.
Defined.

End CallerRuns.
